(** * Backtesting core: portfolio, strategies, metrics and engine

    A shallow embedding of the simulation core of the repository
    ([src/backtesting/portfolio.py], [src/backtesting/preformance_metrics.py],
    [src/backtesting/backtesting_engine.py], [src/strategies/*.py]) together
    with the properties its specification states about it.

    Modelling conventions.
    - A Python [float] is an exact rational ([Q]): rounding and overflow are
      not modelled.  Equalities between computed amounts are therefore stated
      with [==] ([Qeq]); a state that the code leaves untouched is compared
      with Leibniz equality.
    - The one exception is [buy64], which follows [Portfolio.buy] on binary64
      floats to show what rounding does to the sizing of an order.
    - Python's [/] on floats raises [ZeroDivisionError] on a zero divisor
      ([pydiv]).  numpy's and pandas' [/] does not raise: it yields NaN or an
      infinity.  Both are folded into the single value [NaN] of [npfloat].
    - A [datetime] is a day number ([Z]); [(b - a).days] is [b - a].
    - Exceptions are values of [exn]; a method that mutates [self] returns the
      new object next to its result, also when it raises. *)

From Stdlib Require Import String Ascii DecimalString Floats.
From Stdlib Require Import QArith Qabs Qround Qminmax Lqa ZArith List Bool Lia.
Import ListNotations.

Open Scope Q_scope.

(** ** Python values *)

(** The exceptions that the modelled code raises.  [NonFiniteInput] is not
    one of Python's: it ends a run that reads a NaN price, which this model
    does not follow any further. *)
Inductive exn : Type :=
| ValueError (msg : string)
| ZeroDivisionError
| TypeError
| IndexError
| KeyError (key : string)
| NonFiniteInput.

Inductive result (A : Type) : Type :=
| Ok (a : A)
| Err (e : exn).

Arguments Ok {A} a.
Arguments Err {A} e.

(** Sequencing of computations that may raise. *)
Notation "'do' x <- m ; k" :=
  (match m with Ok x => k | Err e => Err e end)
    (at level 10, x name, m at level 100, k at level 200).

(** [x > y] and [x < y] on floats. *)
Definition Qgtb (x y : Q) : bool := negb (Qle_bool x y).
Definition Qltb (x y : Q) : bool := negb (Qle_bool y x).

(** Truth value of a float: every value but zero. *)
Definition truthy (x : Q) : bool := negb (Qeq_bool x 0).

(** Python float division. *)
Definition pydiv (x y : Q) : result Q :=
  if Qeq_bool y 0 then Err ZeroDivisionError else Ok (x / y).

(** ** portfolio.py: [Trade] *)

Record Trade : Type := mkTrade {
  entry_date  : Z;
  entry_price : Q;
  shares      : Q;
  exit_date   : option Z;
  exit_price  : option Q
}.

Definition is_open (t : Trade) : bool :=
  match exit_date t with None => true | Some _ => false end.

(** [None] and [0.0] are both false in a condition. *)
Definition truthy_opt (x : option Q) : bool :=
  match x with None => false | Some v => truthy v end.

Definition return_pct (t : Trade) : result (option Q) :=
  match exit_price t with
  | Some xp =>
      if negb (is_open t) && truthy xp then
        do r <- pydiv (xp - entry_price t) (entry_price t);
        Ok (Some (r * 100))
      else Ok None
  | None => Ok None
  end.

Definition return_dollars (t : Trade) : option Q :=
  match exit_price t with
  | Some xp =>
      if negb (is_open t) && truthy xp
      then Some ((xp - entry_price t) * shares t) else None
  | None => None
  end.

Definition holding_days (t : Trade) : option Z :=
  match exit_date t with
  | Some xd => Some (xd - entry_date t)%Z
  | None => None
  end.

(** ** portfolio.py: [Portfolio] *)

(** One entry of [equity_curve] (a dict in the source). *)
Record EquitySnapshot : Type := mkSnapshot {
  snap_date        : Z;
  portfolio_value  : Q;
  snap_cash        : Q;
  position_value   : Q;
  snap_shares_held : Q
}.

Record Portfolio : Type := mkPortfolio {
  starting_capital     : Q;
  cash                 : Q;
  commission_pct       : Q;
  shares_held          : Q;
  position_entry_price : Q;
  trades               : list Trade;
  current_trade        : option Trade;
  equity_curve         : list EquitySnapshot
}.

(** [Portfolio.__init__]. *)
Definition Portfolio_init (capital commission : Q) : Portfolio :=
  {| starting_capital := capital;
     cash := capital;
     commission_pct := commission;
     shares_held := 0;
     position_entry_price := 0;
     trades := [];
     current_trade := None;
     equity_curve := [] |}.

Definition has_position (p : Portfolio) : bool := Qgtb (shares_held p) 0.

Definition get_position_value (p : Portfolio) (current_price : Q) : Q :=
  shares_held p * current_price.

Definition get_total_value (p : Portfolio) (current_price : Q) : Q :=
  cash p + get_position_value p current_price.

(** The size of a buy: the given one, or all cash net of commission. *)
Definition buy_size (p : Portfolio) (price : Q) (size : option Q) : result Q :=
  match size with
  | Some s => Ok s
  | None => pydiv (cash p * (1 - commission_pct p)) price
  end.

Definition buy_total_cost (p : Portfolio) (price size : Q) : Q :=
  let cost := size * price in
  let commission := cost * commission_pct p in
  cost + commission.

Definition buy (p : Portfolio) (date : Z) (price : Q) (size : option Q)
  : result bool * Portfolio :=
  if has_position p then (Ok false, p)
  else
    match buy_size p price size with
    | Err e => (Err e, p)
    | Ok s =>
        let total_cost := buy_total_cost p price s in
        if Qgtb total_cost (cash p) then (Ok false, p)
        else
          (Ok true,
           {| starting_capital := starting_capital p;
              cash := cash p - total_cost;
              commission_pct := commission_pct p;
              shares_held := s;
              position_entry_price := price;
              trades := trades p;
              current_trade := Some (mkTrade date price s None None);
              equity_curve := equity_curve p |})
    end.

Definition sell (p : Portfolio) (date : Z) (price : Q)
  : result bool * Portfolio :=
  if negb (has_position p) then (Ok false, p)
  else
    let proceeds := shares_held p * price in
    let commission := proceeds * commission_pct p in
    let net_proceeds := proceeds - commission in
    (Ok true,
     {| starting_capital := starting_capital p;
        cash := cash p + net_proceeds;
        commission_pct := commission_pct p;
        shares_held := 0;
        position_entry_price := 0;
        trades :=
          match current_trade p with
          | Some t =>
              trades p ++
              [mkTrade (entry_date t) (entry_price t) (shares t)
                       (Some date) (Some price)]
          | None => trades p
          end;
        current_trade := None;
        equity_curve := equity_curve p |}).

Definition record_day (p : Portfolio) (date : Z) (price : Q) : Portfolio :=
  {| starting_capital := starting_capital p;
     cash := cash p;
     commission_pct := commission_pct p;
     shares_held := shares_held p;
     position_entry_price := position_entry_price p;
     trades := trades p;
     current_trade := current_trade p;
     equity_curve :=
       equity_curve p ++
       [mkSnapshot date (get_total_value p price) (cash p)
                   (get_position_value p price) (shares_held p)] |}.

Definition get_closed_trades (p : Portfolio) : list Trade :=
  filter (fun t => negb (is_open t)) (trades p).

(** ** [Portfolio.buy] on binary64 floats *)

(** The part of a portfolio that [buy] reads or writes, with the floats of
    the machine (IEEE 754 binary64, rounded to nearest, as in Python).  The
    trade history and the equity curve, which [buy] leaves alone, are not
    kept; the open trade is its date, price and size. *)
Record Portfolio64 : Type := mkPortfolio64 {
  cash64                 : float;
  commission_pct64       : float;
  shares_held64          : float;
  position_entry_price64 : float;
  current_trade64        : option (Z * float * float)
}.

Definition Portfolio64_init (capital commission : float) : Portfolio64 :=
  mkPortfolio64 capital commission 0 0 None.

Definition has_position64 (p : Portfolio64) : bool :=
  (0 <? shares_held64 p)%float.

(** [Portfolio.buy], statement by statement, on binary64. *)
Definition buy64 (p : Portfolio64) (date : Z) (price : float) (size : option float)
  : result bool * Portfolio64 :=
  if has_position64 p then (Ok false, p)
  else
    match
      match size with
      | Some s => Ok s
      | None =>
          if (price =? 0)%float then Err ZeroDivisionError
          else Ok (cash64 p * (1 - commission_pct64 p) / price)%float
      end
    with
    | Err e => (Err e, p)
    | Ok s =>
        let cost := (s * price)%float in
        let commission := (cost * commission_pct64 p)%float in
        let total_cost := (cost + commission)%float in
        if (cash64 p <? total_cost)%float then (Ok false, p)
        else
          (Ok true,
           mkPortfolio64 (cash64 p - total_cost)%float (commission_pct64 p)
                         s price (Some (date, price, s)))
    end.

(** ** numpy floats and pandas Series *)

(** A float that may be undefined.  [NaN] also stands for the infinities
    that numpy produces on a zero divisor. *)
Inductive npfloat : Type :=
| Fin (q : Q)
| NaN.

Definition isnan (x : npfloat) : bool :=
  match x with NaN => true | Fin _ => false end.

Definition np_lift2 (f : Q -> Q -> Q) (x y : npfloat) : npfloat :=
  match x, y with
  | Fin a, Fin b => Fin (f a b)
  | _, _ => NaN
  end.

Definition np_add : npfloat -> npfloat -> npfloat := np_lift2 Qplus.
Definition np_sub : npfloat -> npfloat -> npfloat := np_lift2 Qminus.
Definition np_mul : npfloat -> npfloat -> npfloat := np_lift2 Qmult.

(** numpy division: no exception on a zero divisor. *)
Definition npdiv (a b : Q) : npfloat :=
  if Qeq_bool b 0 then NaN else Fin (a / b).

Definition np_div (x y : npfloat) : npfloat :=
  match x, y with
  | Fin a, Fin b => npdiv a b
  | _, _ => NaN
  end.

(** [x == v]: false on NaN. *)
Definition np_eqb (x : npfloat) (v : Q) : bool :=
  match x with Fin a => Qeq_bool a v | NaN => false end.

(** [sum(...)] of Python, from 0, left to right. *)
Definition Qsum (l : list Q) : Q := fold_left Qplus l 0.

Definition Qlen {A} (l : list A) : Q := inject_Z (Z.of_nat (length l)).

(** [Series.dropna()]. *)
Fixpoint dropna (s : list npfloat) : list Q :=
  match s with
  | [] => []
  | Fin q :: s' => q :: dropna s'
  | NaN :: s' => dropna s'
  end.

(** Consecutive quotients [cur / prev - 1], without the leading NaN. *)
Fixpoint pct_changes (prev : Q) (s : list Q) : list npfloat :=
  match s with
  | [] => []
  | cur :: s' => np_sub (npdiv cur prev) (Fin 1) :: pct_changes cur s'
  end.

(** [Series.pct_change()]: the first entry has no predecessor. *)
Definition pct_change (s : list Q) : list npfloat :=
  match s with
  | [] => []
  | x :: s' => NaN :: pct_changes x s'
  end.

(** [Series.mean()]: NaN on an empty series. *)
Definition series_mean (s : list Q) : npfloat :=
  match s with
  | [] => NaN
  | _ => Fin (Qsum s / Qlen s)
  end.

(** Sum of the squared deviations from [m]. *)
Definition sq_dev (m : Q) (s : list Q) : Q :=
  Qsum (map (fun x => (x - m) * (x - m)) s).

(** [Series.min()] skips NaN; NaN when nothing is left. *)
Definition series_min (s : list npfloat) : npfloat :=
  match dropna s with
  | [] => NaN
  | x :: l => Fin (fold_left Qmin l x)
  end.

(** [Series.expanding().max()]: the maximum of every prefix. *)
Fixpoint expanding_max_from (m : Q) (s : list Q) : list Q :=
  match s with
  | [] => []
  | x :: s' => Qmax m x :: expanding_max_from (Qmax m x) s'
  end.

Definition expanding_max (s : list Q) : list Q :=
  match s with
  | [] => []
  | x :: s' => x :: expanding_max_from x s'
  end.

(** Element-wise combination of two aligned Series. *)
Fixpoint zip_with {A B C} (f : A -> B -> C) (a : list A) (b : list B) : list C :=
  match a, b with
  | x :: a', y :: b' => f x y :: zip_with f a' b'
  | _, _ => []
  end.

(** ** preformance_metrics.py *)

Record TradeStats : Type := mkTradeStats {
  total_trades     : nat;
  winning_trades   : nat;
  losing_trades    : nat;
  win_rate_pct     : Q;
  avg_win_pct      : Q;
  avg_loss_pct     : Q;
  profit_factor    : Q;
  avg_holding_days : Q
}.

Record Metrics : Type := mkMetrics {
  m_starting_capital      : Q;
  m_final_value           : Q;
  m_total_return_pct      : npfloat;
  m_annualized_return_pct : npfloat;
  m_sharpe_ratio          : npfloat;
  m_max_drawdown_pct      : npfloat;
  m_volatility            : npfloat;
  m_num_days              : nat;
  m_trade_stats           : TradeStats
}.

(** [[t for t in trades if t.return_pct and cond(t.return_pct)]]: the
    property is evaluated on every trade and may raise. *)
Fixpoint select_trades (cond : Q -> bool) (ts : list Trade) : result (list Trade) :=
  match ts with
  | [] => Ok []
  | t :: ts' =>
      do r <- return_pct t;
      do l <- select_trades cond ts';
      Ok (if truthy_opt r && match r with Some v => cond v | None => false end
          then t :: l else l)
  end.

(** [sum(f(t) for t in ts)] where [f] may raise or give [None]; adding
    [None] to a number is a [TypeError]. *)
Fixpoint sum_over (f : Trade -> result (option Q)) (acc : Q) (ts : list Trade)
  : result Q :=
  match ts with
  | [] => Ok acc
  | t :: ts' =>
      match f t with
      | Err e => Err e
      | Ok None => Err TypeError
      | Ok (Some v) => sum_over f (acc + v) ts'
      end
  end.

Definition is_nil {A} (l : list A) : bool :=
  match l with [] => true | _ => false end.

(** The mean of [f] over a group of trades, 0 for an empty group. *)
Definition mean_over (f : Trade -> result (option Q)) (ts : list Trade)
  : result Q :=
  if is_nil ts then Ok 0
  else do s <- sum_over f 0 ts; Ok (s / Qlen ts).

Definition calculate_trade_statistics (ts : list Trade) : result TradeStats :=
  if is_nil ts then Ok (mkTradeStats 0 0 0 0 0 0 0 0)
  else
    do winning <- select_trades (fun r => Qgtb r 0) ts;
    do losing <- select_trades (fun r => Qle_bool r 0) ts;
    let win_rate := Qlen winning / Qlen ts * 100 in
    do avg_win <- mean_over return_pct winning;
    do avg_loss <- mean_over return_pct losing;
    do total_wins <-
      (if is_nil winning then Ok 0
       else sum_over (fun t => Ok (return_dollars t)) 0 winning);
    do total_losses <-
      (if is_nil losing then Ok 0
       else do s <- sum_over (fun t => Ok (return_dollars t)) 0 losing;
            Ok (Qabs s));
    let profit_factor :=
      if Qgtb total_losses 0 then total_wins / total_losses else 0 in
    do days <- sum_over (fun t => Ok (option_map inject_Z (holding_days t))) 0 ts;
    Ok (mkTradeStats (length ts) (length winning) (length losing)
                     win_rate avg_win avg_loss profit_factor
                     (days / Qlen ts)).

Section FloatPrimitives.

(** [numpy.sqrt] and [**] on floats, as the platform computes them. *)
Variable sqrt : Q -> Q.
Variable pow : Q -> Q -> npfloat.

(** [Series.std()], with pandas' default [ddof=1]: NaN when the series
    has fewer than two entries. *)
Definition series_std (s : list Q) : npfloat :=
  match s with
  | [] | [_] => NaN
  | _ =>
      match series_mean s with
      | Fin m => Fin (sqrt (sq_dev m s / (Qlen s - 1)))
      | NaN => NaN
      end
  end.

Definition calculate_total_return (equity : list Q) (capital : Q)
  : result npfloat :=
  match rev equity with
  | [] => Err IndexError
  | final_value :: _ =>
      Ok (np_mul (npdiv (final_value - capital) capital) (Fin 100))
  end.

Definition calculate_annualized_return (total_return : npfloat) (num_days : nat)
  : npfloat :=
  let years := inject_Z (Z.of_nat num_days) / (36525 # 100) in
  if Qeq_bool years 0 then Fin 0
  else
    match np_add (Fin 1) (np_div total_return (Fin 100)) with
    | Fin base => np_mul (np_sub (pow base (1 / years)) (Fin 1)) (Fin 100)
    | NaN => NaN
    end.

Definition calculate_sharpe_ratio (equity : list Q) (risk_free_rate : Q)
  : npfloat :=
  let daily_returns := dropna (pct_change equity) in
  if is_nil daily_returns || np_eqb (series_std daily_returns) 0 then Fin 0
  else
    let avg_return := np_mul (series_mean daily_returns) (Fin 252) in
    let std_return := np_mul (series_std daily_returns) (Fin (sqrt 252)) in
    np_div (np_sub avg_return (Fin risk_free_rate)) std_return.

Definition calculate_max_drawdown (equity : list Q) : npfloat :=
  let running_max := expanding_max equity in
  let drawdown :=
    zip_with (fun x m => np_mul (npdiv (x - m) m) (Fin 100))
             equity running_max in
  let max_dd := series_min drawdown in
  if isnan max_dd then Fin 0 else max_dd.

Definition calculate_volatility (equity : list Q) : npfloat :=
  let daily_returns := dropna (pct_change equity) in
  if is_nil daily_returns then Fin 0
  else np_mul (np_mul (series_std daily_returns) (Fin (sqrt 252))) (Fin 100).

Definition calculate_all (equity : list Q) (capital : Q) (ts : list Trade)
           (risk_free_rate : Q) : result Metrics :=
  match rev equity with
  | [] => Err IndexError
  | final_value :: _ =>
      do total_return <- calculate_total_return equity capital;
      let num_days := length equity in
      let annualized := calculate_annualized_return total_return num_days in
      let sharpe := calculate_sharpe_ratio equity risk_free_rate in
      let max_dd := calculate_max_drawdown equity in
      let vol := calculate_volatility equity in
      do stats <- calculate_trade_statistics ts;
      Ok (mkMetrics capital final_value total_return annualized
                    sharpe max_dd vol num_days stats)
  end.

End FloatPrimitives.

(** ** pandas DataFrame *)

(** A column and its dtype. *)
Inductive column : Type :=
| Float64 (v : list npfloat)
| Object (v : list string)
| Boolean (v : list bool).

(** A frame: the dates of its index and its named columns, in order. *)
Record DataFrame : Type := mkFrame {
  index   : list Z;
  columns : list (string * column)
}.

Definition column_names (df : DataFrame) : list string := map fst (columns df).

(** [col in df.columns]. *)
Definition has_column (df : DataFrame) (col : string) : bool :=
  existsb (String.eqb col) (column_names df).

(** [df[col]]. *)
Fixpoint lookup (col : string) (cs : list (string * column)) : option column :=
  match cs with
  | [] => None
  | (k, c) :: cs' => if String.eqb col k then Some c else lookup col cs'
  end.

Definition get_col (df : DataFrame) (col : string) : option column :=
  lookup col (columns df).

(** [df[col] = c]: replaces the column, or adds it after the others. *)
Fixpoint assign (col : string) (c : column) (cs : list (string * column))
  : list (string * column) :=
  match cs with
  | [] => [(col, c)]
  | (k, c') :: cs' =>
      if String.eqb col k then (k, c) :: cs' else (k, c') :: assign col c cs'
  end.

Definition set_col (df : DataFrame) (col : string) (c : column) : DataFrame :=
  mkFrame (index df) (assign col c (columns df)).

(** [df.empty]: one of the two axes has length 0. *)
Definition empty (df : DataFrame) : bool :=
  is_nil (index df) || is_nil (columns df).

(** A numeric column read for arithmetic; [KeyError] when absent. *)
Definition float_col (df : DataFrame) (col : string) : result (list npfloat) :=
  match get_col df col with
  | Some (Float64 v) => Ok v
  | Some (Boolean v) => Ok (map (fun b : bool => Fin (if b then 1 else 0)) v)
  | Some (Object _) => Err TypeError
  | None => Err (KeyError col)
  end.

(** [Series.shift(1)]. *)
Definition shift1 (v : list npfloat) : list npfloat :=
  match v with [] => [] | _ => NaN :: removelast v end.

(** [Series.shift(1)] of a boolean Series used under [&]: the missing first
    entry counts as [False]. *)
Definition shift1_bool (v : list bool) : list bool :=
  match v with [] => [] | _ => false :: removelast v end.

(** Comparisons of floats: false as soon as one side is NaN. *)
Definition np_cmp (cmp : Q -> Q -> bool) (x y : npfloat) : bool :=
  match x, y with
  | Fin a, Fin b => cmp a b
  | _, _ => false
  end.

Definition np_gt : npfloat -> npfloat -> bool := np_cmp Qgtb.
Definition np_lt : npfloat -> npfloat -> bool := np_cmp Qltb.
Definition np_ge : npfloat -> npfloat -> bool := np_cmp (fun a b => Qle_bool b a).
Definition np_le : npfloat -> npfloat -> bool := np_cmp Qle_bool.

(** [df.loc[mask, 'signal'] = value]. *)
Definition assign_where (mask : list bool) (value : string) (signal : list string)
  : list string :=
  zip_with (fun (m : bool) s => if m then value else s) mask signal.

(** [df.loc[i, 'signal'] = value] at a position of the index. *)
Fixpoint assign_at (i : nat) (value : string) (signal : list string) : list string :=
  match i, signal with
  | _, [] => []
  | O, _ :: s' => value :: s'
  | S i', x :: s' => x :: assign_at i' value s'
  end.

(** [df[[...]].first_valid_index()]: the first row with a value that is not
    NaN in one of the columns. *)
Fixpoint first_valid_from (i : nat) (rows : list (list npfloat)) : option nat :=
  match rows with
  | [] => None
  | r :: rows' =>
      if existsb (fun x => negb (isnan x)) r then Some i
      else first_valid_from (S i) rows'
  end.

(** The rows of the frame restricted to some columns of equal length. *)
Fixpoint transpose (n : nat) (cols : list (list npfloat)) : list (list npfloat) :=
  match n with
  | O => []
  | S n' => map (fun c => hd NaN c) cols :: transpose n' (map (@tl npfloat) cols)
  end.

Definition first_valid_index (n : nat) (cols : list (list npfloat)) : option nat :=
  first_valid_from 0 (transpose n cols).

(** ** strategies *)

Inductive Strategy : Type :=
| BuyAndHold
| SMACrossover (short_window long_window : Z)
| BreakoutStrategy (window : Z) (threshold_pct : Q)
| VolatilityBreakout (sma_window atr_window : Z) (atr_multiplier : Q)
| BollingerMeanReversion (window : Z) (num_std : Q)
| VolumeMomentum (volume_window : Z) (volume_multiplier : Q).

(** [f"{n}"] for an int. *)
Definition str_of_int (n : Z) : string := NilZero.string_of_int (Z.to_int n).

(** [self.name], set by each constructor. *)
Definition name (s : Strategy) : string :=
  match s with
  | BuyAndHold => "Buy and Hold"
  | SMACrossover sw lw =>
      "SMA Crossover (" ++ str_of_int sw ++ "/" ++ str_of_int lw ++ ")"
  | BreakoutStrategy w _ => "Breakout (" ++ str_of_int w ++ "-day)"
  | VolatilityBreakout _ _ _ => "ATR Volatility Breakout"
  | BollingerMeanReversion _ _ => "Bollinger Mean Reversion"
  | VolumeMomentum _ _ => "Volume Momentum"
  end%string.

Definition get_required_columns (s : Strategy) : list string :=
  match s with
  | BuyAndHold => ["close_price"]
  | SMACrossover sw lw =>
      ["close_price"; "sma_" ++ str_of_int sw; "sma_" ++ str_of_int lw]
  | BreakoutStrategy w _ => ["close_price"; "sma_" ++ str_of_int w]
  | VolatilityBreakout sw aw _ =>
      ["close_price"; "sma_" ++ str_of_int sw; "atr_" ++ str_of_int aw]
  | BollingerMeanReversion _ _ =>
      ["close_price"; "bollinger_upper"; "bollinger_middle"; "bollinger_lower"]
  | VolumeMomentum vw _ =>
      ["close_price"; "volume"; "volume_sma_" ++ str_of_int vw; "volume_ratio"]
  end%string.

(** [repr] of a list of plain column names, as an f-string prints it. *)
Fixpoint join_repr (l : list string) : string :=
  match l with
  | [] => ""
  | [x] => "'" ++ x ++ "'"
  | x :: l' => "'" ++ x ++ "', " ++ join_repr l'
  end%string.

Definition repr_list (l : list string) : string :=
  ("[" ++ join_repr l ++ "]")%string.

(** The columns the strategy needs and the frame lacks. *)
Definition missing_columns (s : Strategy) (df : DataFrame) : list string :=
  filter (fun col => negb (has_column df col)) (get_required_columns s).

(** [BaseStrategy.validate_data]; [out] is what has been printed so far. *)
Definition validate_data (s : Strategy) (df : DataFrame) (out : list string)
  : bool * list string :=
  let missing := missing_columns s df in
  if negb (is_nil missing)
  then (false,
        out ++ [("  ✗ Missing required columns: " ++ repr_list missing)%string])
  else (true, out).

(** [df['signal'] = 'HOLD']: one entry per date. *)
Definition hold (df : DataFrame) : list string := repeat "HOLD"%string (length (index df)).

Definition band (f : bool -> bool -> bool) : list bool -> list bool -> list bool :=
  zip_with f.

(** [Series.diff()]. *)
Fixpoint diffs (prev : npfloat) (v : list npfloat) : list npfloat :=
  match v with
  | [] => []
  | cur :: v' => np_sub cur prev :: diffs cur v'
  end.

Definition diff (v : list npfloat) : list npfloat :=
  match v with
  | [] => []
  | x :: v' => NaN :: diffs x v'
  end.

(** The signal of the first valid row, set to [value] when [test] holds
    there. *)
Definition initial_position (df : DataFrame) (cols : list (list npfloat))
           (test : nat -> bool) (value : string) (signal : list string)
  : list string :=
  match first_valid_index (length (index df)) cols with
  | Some i => if test i then assign_at i value signal else signal
  | None => signal
  end.

(** buy_and_hold.py, after the validation. *)
Definition buy_and_hold_signals (df : DataFrame) : result DataFrame :=
  let df := set_col df "signal" (Object (hold df)) in
  match index df with
  | [] => Err IndexError
  | _ :: _ => Ok (set_col df "signal" (Object (assign_at 0 "BUY" (hold df))))
  end.

(** sma_crossover.py, after the validation. *)
Definition sma_crossover_signals (sw lw : Z) (df : DataFrame) : result DataFrame :=
  let short_sma := ("sma_" ++ str_of_int sw)%string in
  let long_sma := ("sma_" ++ str_of_int lw)%string in
  let df := set_col df "signal" (Object (hold df)) in
  do short <- float_col df short_sma;
  do long <- float_col df long_sma;
  let prev := zip_with np_gt (shift1 short) (shift1 long) in
  let now := zip_with np_gt short long in
  let golden_cross := band andb (map negb prev) now in
  let death_cross := band andb prev (map negb now) in
  let signal := assign_where golden_cross "BUY" (hold df) in
  let signal := assign_where death_cross "SELL" signal in
  let signal :=
    initial_position df [short; long]
      (fun i => np_gt (nth i short NaN) (nth i long NaN)) "BUY" signal in
  Ok (set_col df "signal" (Object signal)).

(** breakout_strategy.py, after the validation. *)
Definition breakout_signals (w : Z) (threshold : Q) (df : DataFrame)
  : result DataFrame :=
  let sma_col := ("sma_" ++ str_of_int w)%string in
  do close <- float_col df "close_price";
  do sma <- float_col df sma_col;
  let pct :=
    zip_with (fun c s => np_mul (np_div (np_sub c s) s) (Fin 100)) close sma in
  let df := set_col df "price_vs_sma_pct" (Float64 pct) in
  let df := set_col df "signal" (Object (hold df)) in
  let breakout_up := map (fun x => np_gt x (Fin threshold)) pct in
  let breakout_down := map (fun x => np_lt x (Fin (- threshold))) pct in
  let signal := assign_where breakout_up "BUY" (hold df) in
  let signal := assign_where breakout_down "SELL" signal in
  do sma' <- float_col df sma_col;
  let signal :=
    initial_position df [sma'; pct]
      (fun i => np_gt (nth i pct NaN) (Fin threshold)) "BUY" signal in
  Ok (set_col df "signal" (Object signal)).

(** volatility_strategy.py, after the validation. *)
Definition volatility_signals (sw aw : Z) (multiplier : Q) (df : DataFrame)
  : result DataFrame :=
  let sma_col := ("sma_" ++ str_of_int sw)%string in
  let atr_col := ("atr_" ++ str_of_int aw)%string in
  do sma <- float_col df sma_col;
  do atr <- float_col df atr_col;
  let upper :=
    zip_with (fun s a => np_add s (np_mul a (Fin multiplier))) sma atr in
  let df := set_col df "upper_threshold" (Float64 upper) in
  do sma <- float_col df sma_col;
  do atr <- float_col df atr_col;
  let lower :=
    zip_with (fun s a => np_sub s (np_mul a (Fin multiplier))) sma atr in
  let df := set_col df "lower_threshold" (Float64 lower) in
  let df := set_col df "signal" (Object (hold df)) in
  do close <- float_col df "close_price";
  let signal := assign_where (zip_with np_gt close upper) "BUY" (hold df) in
  let signal := assign_where (zip_with np_lt close lower) "SELL" signal in
  let signal :=
    initial_position df [close; upper]
      (fun i => np_gt (nth i close NaN) (nth i upper NaN)) "BUY" signal in
  Ok (set_col df "signal" (Object signal)).

(** mean_reversion.py, after the validation. *)
Definition bollinger_signals (df : DataFrame) : result DataFrame :=
  let df := set_col df "signal" (Object (hold df)) in
  do close <- float_col df "close_price";
  do lower <- float_col df "bollinger_lower";
  do upper <- float_col df "bollinger_upper";
  let band_position :=
    zip_with (fun num den => np_div num den)
             (zip_with np_sub close lower) (zip_with np_sub upper lower) in
  let df := set_col df "band_position" (Float64 band_position) in
  let oversold := map (fun x => np_le x (Fin (1 # 10))) band_position in
  let overbought := map (fun x => np_ge x (Fin (9 # 10))) band_position in
  let signal := assign_where oversold "BUY" (hold df) in
  let signal := assign_where overbought "SELL" signal in
  do close <- float_col df "close_price";
  do lower <- float_col df "bollinger_lower";
  do upper <- float_col df "bollinger_upper";
  let crosses_up :=
    band andb (zip_with np_lt (shift1 close) (shift1 lower))
              (zip_with np_ge close lower) in
  let signal := assign_where crosses_up "BUY" signal in
  let crosses_down :=
    band andb (zip_with np_gt (shift1 close) (shift1 upper))
              (zip_with np_le close upper) in
  let signal := assign_where crosses_down "SELL" signal in
  let signal :=
    initial_position df [close; lower; upper]
      (fun i => np_le (nth i band_position NaN) (Fin (1 # 10))) "BUY" signal in
  Ok (set_col df "signal" (Object signal)).

(** volume_momentum.py, after the validation. *)
Definition volume_momentum_signals (multiplier : Q) (df : DataFrame)
  : result DataFrame :=
  do close <- float_col df "close_price";
  let price_change := diff close in
  let df := set_col df "price_change" (Float64 price_change) in
  let price_up := map (fun x => np_gt x (Fin 0)) price_change in
  let df := set_col df "price_up" (Boolean price_up) in
  let price_down := map (fun x => np_lt x (Fin 0)) price_change in
  let df := set_col df "price_down" (Boolean price_down) in
  do ratio <- float_col df "volume_ratio";
  let high_volume := map (fun x => np_ge x (Fin multiplier)) ratio in
  let df := set_col df "high_volume" (Boolean high_volume) in
  let df := set_col df "signal" (Object (hold df)) in
  let signal := assign_where (band andb price_up high_volume) "BUY" (hold df) in
  let signal := assign_where (band andb price_down high_volume) "SELL" signal in
  let consecutive_up :=
    band andb (band andb price_up (shift1_bool price_up)) high_volume in
  let df := set_col df "consecutive_up" (Boolean consecutive_up) in
  let consecutive_down :=
    band andb (band andb price_down (shift1_bool price_down)) high_volume in
  let df := set_col df "consecutive_down" (Boolean consecutive_down) in
  let signal := assign_where consecutive_up "BUY" signal in
  let signal := assign_where consecutive_down "SELL" signal in
  do close <- float_col df "close_price";
  do ratio <- float_col df "volume_ratio";
  let signal :=
    initial_position df [close; ratio] (fun _ => true) "HOLD" signal in
  Ok (set_col df "signal" (Object signal)).

(** The body of [generate_signals] that follows the validation. *)
Definition signals (s : Strategy) (df : DataFrame) : result DataFrame :=
  match s with
  | BuyAndHold => buy_and_hold_signals df
  | SMACrossover sw lw => sma_crossover_signals sw lw df
  | BreakoutStrategy w t => breakout_signals w t df
  | VolatilityBreakout sw aw m => volatility_signals sw aw m df
  | BollingerMeanReversion _ _ => bollinger_signals df
  | VolumeMomentum _ m => volume_momentum_signals m df
  end.

(** [generate_signals]: every variant starts with the same validation and
    raises the same [ValueError] when it fails. *)
Definition generate_signals (s : Strategy) (df : DataFrame) (out : list string)
  : result DataFrame * list string :=
  let (valid, out) := validate_data s df out in
  if negb valid
  then (Err (ValueError ("DataFrame missing required columns for " ++ name s)%string),
        out)
  else (signals s df, out).

(** ** backtesting_engine.py *)

Record BacktestEngine : Type := mkEngine {
  strategy          : Strategy;
  engine_capital    : Q;
  engine_commission : Q;
  portfolio         : option Portfolio;
  results_df        : option DataFrame;
  metrics           : option Metrics
}.

(** [BacktestEngine.__init__]. *)
Definition BacktestEngine_init (s : Strategy) (capital commission : Q)
  : BacktestEngine :=
  mkEngine s capital commission None None None.

Definition with_portfolio (e : BacktestEngine) (p : Portfolio) : BacktestEngine :=
  mkEngine (strategy e) (engine_capital e) (engine_commission e)
           (Some p) (results_df e) (metrics e).

Definition with_results (e : BacktestEngine) (df : DataFrame) : BacktestEngine :=
  mkEngine (strategy e) (engine_capital e) (engine_commission e)
           (portfolio e) (Some df) (metrics e).

Definition with_metrics (e : BacktestEngine) (m : Metrics) : BacktestEngine :=
  mkEngine (strategy e) (engine_capital e) (engine_commission e)
           (portfolio e) (results_df e) (Some m).

(** What the loop reads of a row: its date, [row['signal']] and
    [row['close_price']]. *)
Definition Row : Type := (Z * (string * npfloat))%type.

(** The cells of the signal column as the loop compares them with ['BUY']
    and ['SELL']: a cell that is not a string equals neither. *)
Definition signal_cells (df : DataFrame) : result (list string) :=
  match get_col df "signal" with
  | Some (Object v) => Ok v
  | Some (Float64 v) => Ok (map (fun _ => EmptyString) v)
  | Some (Boolean v) => Ok (map (fun _ => EmptyString) v)
  | None => Err (KeyError "signal")
  end.

(** [df.iterrows()]. *)
Definition iterrows (df : DataFrame) : result (list Row) :=
  do signal <- signal_cells df;
  do close <- float_col df "close_price";
  Ok (combine (index df) (combine signal close)).

(** The order, if any, that one iteration of the loop of [run] places. *)
Definition day_order (p : Portfolio) (date : Z) (signal : string) (price : Q)
  : result bool * Portfolio :=
  if String.eqb signal "BUY" && negb (has_position p)
  then buy p date price None
  else if String.eqb signal "SELL" && has_position p
  then sell p date price
  else (Ok false, p).

(** One iteration of the loop of [run], for a price that is a number: the
    order, then the snapshot of the day. *)
Definition trade_day (p : Portfolio) (date : Z) (signal : string) (price : Q)
  : result unit * Portfolio :=
  let (r, p) := day_order p date signal price in
  match r with
  | Err e => (Err e, p)
  | Ok _ => (Ok tt, record_day p date price)
  end.

(** The loop of [run].  A NaN price is not followed: the run stops with
    [NonFiniteInput], which is no Python exception. *)
Fixpoint simulate (p : Portfolio) (rows : list Row) : result unit * Portfolio :=
  match rows with
  | [] => (Ok tt, p)
  | (date, (signal, NaN)) :: _ => (Err NonFiniteInput, p)
  | (date, (signal, Fin price)) :: rows' =>
      match trade_day p date signal price with
      | (Err e, p) => (Err e, p)
      | (Ok _, p) => simulate p rows'
      end
  end.

(** Step 5 of [run]: an open position is sold at the last date and price. *)
Definition close_position (p : Portfolio) (rows : list Row)
  : result unit * Portfolio :=
  if has_position p then
    match rev rows with
    | [] => (Err IndexError, p)
    | (_, (_, NaN)) :: _ => (Err NonFiniteInput, p)
    | (last_date, (_, Fin last_price)) :: _ =>
        (Ok tt, snd (sell p last_date last_price))
    end
  else (Ok tt, p).

Section Engine.

Variable sqrt : Q -> Q.
Variable pow : Q -> Q -> npfloat.

(** [BacktestEngine.run]; [df] is the frame that [get_combined_data]
    loaded for the ticker, [out] the lines printed so far.  The lines that
    [run] itself prints are left out. *)
Definition run (e : BacktestEngine) (ticker : string) (df : DataFrame)
           (out : list string) : result unit * BacktestEngine * list string :=
  if empty df
  then (Err (ValueError ("No data found for " ++ ticker)%string), e, out)
  else
    match generate_signals (strategy e) df out with
    | (Err x, out) => (Err x, e, out)
    | (Ok df, out) =>
        let p := Portfolio_init (engine_capital e) (engine_commission e) in
        let e := with_portfolio e p in
        match iterrows df with
        | Err x => (Err x, e, out)
        | Ok rows =>
            match simulate p rows with
            | (Err x, p) => (Err x, with_portfolio e p, out)
            | (Ok _, p) =>
                match close_position p rows with
                | (Err x, p) => (Err x, with_portfolio e p, out)
                | (Ok _, p) =>
                    let e := with_portfolio e p in
                    let values := map portfolio_value (equity_curve p) in
                    let e :=
                      with_results e
                        (set_col df "portfolio_value" (Float64 (map Fin values))) in
                    match calculate_all sqrt pow values (engine_capital e)
                                        (get_closed_trades p) (2 # 100) with
                    | Err x => (Err x, e, out)
                    | Ok m => (Ok tt, with_metrics e m, out)
                    end
                end
            end
        end
    end.

End Engine.

(** Stand-ins for the float primitives, enough to execute a run: the
    integer square root of the floor, and powers with an integer exponent. *)
Definition floor_sqrt (x : Q) : Q := inject_Z (Z.sqrt (Qfloor x)).

Definition int_pow (b e : Q) : npfloat :=
  if Qeq_bool e (inject_Z (Qfloor e)) then Fin (Qpower b (Qfloor e)) else NaN.

(** ** Reading error messages *)

(** [sub in s]. *)
Fixpoint contains (sub s : string) : bool :=
  prefix sub s ||
  match s with
  | EmptyString => false
  | String _ s' => contains sub s'
  end.

(** The text names every one of the fields. *)
Definition names_all (text : string) (fields : list string) : bool :=
  forallb (fun f => contains f text) fields.

(** C9 as stated, for one strategy and one frame: [generate_signals] raises
    an error whose message names the missing fields. *)
Definition raises_naming_missing (s : Strategy) (df : DataFrame) : Prop :=
  forall out, exists msg,
    fst (generate_signals s df out) = Err (ValueError msg) /\
    names_all msg (missing_columns s df) = true.

(** A frame of prices without the [close_price] column. *)
Definition frame_without_close : DataFrame :=
  mkFrame [0; 1]%Z [("volume"%string, Float64 [Fin 1000; Fin 1200])].

(** ** The drawdown in the words of the specification *)

(** The largest of [equity[0] .. equity[t]]. *)
Definition running_max_up_to (equity : list Q) (t : nat) : Q :=
  match firstn (S t) equity with
  | [] => 0
  | x :: l => fold_left Qmax l x
  end.

(** [(equity[t] - running_max_up_to_t) / running_max_up_to_t * 100]. *)
Definition drawdown_at (equity : list Q) (t : nat) : Q :=
  (nth t equity 0 - running_max_up_to equity t) / running_max_up_to equity t * 100.

Definition Qmin_list (l : list Q) : Q :=
  match l with
  | [] => 0
  | x :: l' => fold_left Qmin l' x
  end.

(** The minimum over every [t] of the drawdown at [t]. *)
Definition spec_max_drawdown (equity : list Q) : Q :=
  Qmin_list (map (drawdown_at equity) (seq 0 (length equity))).

Fixpoint nondecreasing_from (prev : Q) (l : list Q) : Prop :=
  match l with
  | [] => True
  | x :: l' => prev <= x /\ nondecreasing_from x l'
  end.

(** The curve never goes down from one day to the next. *)
Definition nondecreasing (l : list Q) : Prop :=
  match l with
  | [] => True
  | x :: l' => nondecreasing_from x l'
  end.

(** The drawdowns that [calculate_max_drawdown] computes after a prefix
    whose maximum is [m], when no division is by zero. *)
Fixpoint drawdowns_from (m : Q) (s : list Q) : list Q :=
  match s with
  | [] => []
  | x :: s' => (x - Qmax m x) / Qmax m x * 100 :: drawdowns_from (Qmax m x) s'
  end.

(** ** The round trip of buy and hold *)

(** The portfolio closed exactly one trade: it entered on the first date at
    the first close and left on the last date at the last close. *)
Definition round_trip (p : Portfolio) (dates : list Z) (closes : list Q) : Prop :=
  exists t,
    get_closed_trades p = [t] /\
    entry_date t = hd 0%Z dates /\ exit_date t = Some (last dates 0%Z) /\
    entry_price t = hd 0 closes /\ exit_price t = Some (last closes 0).

(** Two states of a portfolio that differ by their equity curve at most. *)
Definition same_account (p q : Portfolio) : Prop :=
  starting_capital q = starting_capital p /\ cash q = cash p /\
  commission_pct q = commission_pct p /\ shares_held q = shares_held p /\
  position_entry_price q = position_entry_price p /\
  trades q = trades p /\ current_trade q = current_trade p.

(** A row on which the loop only records the day. *)
Definition hold_row (r : Row) : Prop :=
  fst (snd r) = "HOLD"%string /\ exists pr, snd (snd r) = Fin pr.

(** ** Sample data *)

Definition sample_frame : DataFrame :=
  mkFrame [0; 1; 2]%Z
          [("close_price"%string, Float64 [Fin 100; Fin 110; Fin 120]);
           ("volume"%string, Float64 [Fin 1000; Fin 1200; Fin 900])].

Definition sample_engine : BacktestEngine :=
  BacktestEngine_init BuyAndHold 10000 (1 # 1000).

Definition sample_run : result unit * BacktestEngine * list string :=
  run floor_sqrt int_pow sample_engine "AAPL" sample_frame [].

(** The same run with no capital. *)
Definition unfunded_run : result unit * BacktestEngine * list string :=
  run floor_sqrt int_pow (BacktestEngine_init BuyAndHold 0 (1 # 1000))
      "AAPL" sample_frame [].

(** ** Sequences of portfolio operations *)

Inductive op : Type :=
| Buy (date : Z) (price : Q) (size : option Q)
| Sell (date : Z) (price : Q)
| RecordDay (date : Z) (price : Q).

(** The portfolio after one call, whatever the call returned. *)
Definition exec (p : Portfolio) (o : op) : Portfolio :=
  match o with
  | Buy d pr s => snd (buy p d pr s)
  | Sell d pr => snd (sell p d pr)
  | RecordDay d pr => record_day p d pr
  end.

Definition exec_all (p : Portfolio) (ops : list op) : Portfolio :=
  fold_left exec ops p.

(** Every trade of the portfolio that is still open. *)
Definition open_trades (p : Portfolio) : list Trade :=
  filter is_open
         (trades p ++ match current_trade p with Some t => [t] | None => [] end).

(** The invariant of the data model, its three parts chained by
    equivalences. *)
Definition position_invariant (p : Portfolio) : Prop :=
  (0 < shares_held p <-> length (open_trades p) = 1%nat) /\
  (length (open_trades p) = 1%nat <->
   exists t, current_trade p = Some t /\ is_open t = true /\
             position_entry_price p = entry_price t).

(** A call with sound arguments: a positive size when the buy gives one, a
    positive price when the buy is all-in, a positive price for a sell. *)
Definition op_positive (o : op) : Prop :=
  match o with
  | Buy _ _ (Some s) => 0 < s
  | Buy _ pr None => 0 < pr
  | Sell _ pr => 0 < pr
  | RecordDay _ _ => True
  end.

(** What a run of sound calls on a funded portfolio maintains: the
    history holds closed trades only, an open trade goes with a positive
    holding and records the entry price, and a flat portfolio has cash. *)
Record funded (p : Portfolio) : Prop := mkFunded {
  funded_history : forall t, In t (trades p) -> is_open t = false;
  funded_position :
    match current_trade p with
    | Some t => is_open t = true /\ position_entry_price p = entry_price t /\
                0 < shares_held p
    | None => ~ 0 < shares_held p /\ 0 < cash p
    end;
  funded_cash : 0 <= cash p;
  funded_rate : commission_pct p < 1
}.

(** ** Sample data for the portfolio *)

Definition sample_ops : list op :=
  [Buy 0 100 None; RecordDay 0 100; Buy 1 101 (Some 5); RecordDay 1 101;
   Sell 2 110; RecordDay 2 110; Sell 3 90; Buy 3 90 (Some 1)].

(** A closed trade that exits at its entry price. *)
Definition breakeven_trade : Trade := mkTrade 0 100 10 (Some 5%Z) (Some 100).

(** ** Further readings of a sequence of operations *)

(** Every sell of the sequence is at a price that is not negative. *)
Definition sells_not_negative (ops : list op) : Prop :=
  Forall (fun o => match o with Sell _ pr => 0 <= pr | _ => True end) ops.

(** The dates of the [record_day] calls of a sequence, in order. *)
Fixpoint recorded_dates (ops : list op) : list Z :=
  match ops with
  | [] => []
  | RecordDay d _ :: ops' => d :: recorded_dates ops'
  | _ :: ops' => recorded_dates ops'
  end.

(** A trade whose two exit fields are set. *)
Definition closed_trade (t : Trade) : Prop :=
  exit_date t <> None /\ exit_price t <> None.

(** A snapshot whose total is its cash plus the value of its position. *)
Definition balanced (s : EquitySnapshot) : Prop :=
  portfolio_value s = snap_cash s + position_value s.

(** ** Further readings of a list of trades *)

(** A trade that neither list comprehension of [calculate_trade_statistics]
    keeps: its [return_pct] is [None] or 0. *)
Definition uncounted (t : Trade) : bool :=
  match return_pct t with
  | Ok r => negb (truthy_opt r)
  | Err _ => false
  end.

(** A gain, a loss and a trade closed at its entry price. *)
Definition sample_trades : list Trade :=
  [mkTrade 0 100 10 (Some 5%Z) (Some 110);
   mkTrade 6 110 10 (Some 9%Z) (Some 99);
   breakeven_trade].

(** ** portfolio.py: the summary of a portfolio *)

(** [Portfolio.get_winning_trades] and [Portfolio.get_losing_trades]: the
    comprehensions of [calculate_trade_statistics], over the closed
    trades. *)
Definition get_winning_trades (p : Portfolio) : result (list Trade) :=
  select_trades (fun r => Qgtb r 0) (get_closed_trades p).

Definition get_losing_trades (p : Portfolio) : result (list Trade) :=
  select_trades (fun r => Qle_bool r 0) (get_closed_trades p).

Record Summary : Type := mkSummary {
  s_starting_capital : Q;
  s_final_value      : Q;
  s_total_return_pct : Q;
  s_total_trades     : nat;
  s_winning_trades   : nat;
  s_losing_trades    : nat;
  s_win_rate         : Q;
  s_avg_win_pct      : Q;
  s_avg_loss_pct     : Q
}.

(** [Portfolio.get_summary], on Python floats as the signatures of the
    class declare them: the division by a starting capital of 0 raises. *)
Definition get_summary (p : Portfolio) : result Summary :=
  let closed_trades := get_closed_trades p in
  do winning <- get_winning_trades p;
  do losing <- get_losing_trades p;
  let final_value :=
    match rev (equity_curve p) with
    | s :: _ => portfolio_value s
    | [] => starting_capital p
    end in
  do ratio <- pydiv (final_value - starting_capital p) (starting_capital p);
  let win_rate :=
    if is_nil closed_trades then 0
    else Qlen winning / Qlen closed_trades * 100 in
  do avg_win <- mean_over return_pct winning;
  do avg_loss <- mean_over return_pct losing;
  Ok (mkSummary (starting_capital p) final_value (ratio * 100)
                (length closed_trades) (length winning) (length losing)
                win_rate avg_win avg_loss).

(** ** Further readings of a run *)

(** The trades follow each other in time, from a date on: each is entered
    no earlier than the one before was left, and left no earlier than it was
    entered. *)
Fixpoint in_sequence (from : Z) (ts : list Trade) : Prop :=
  match ts with
  | [] => True
  | t :: ts' =>
      (from <= entry_date t)%Z /\
      exists xd, exit_date t = Some xd /\ (entry_date t <= xd)%Z /\
                 in_sequence xd ts'
  end.

(** The date on which the last trade of the list was left. *)
Fixpoint last_exit (from : Z) (ts : list Trade) : Z :=
  match ts with
  | [] => from
  | t :: ts' =>
      last_exit (match exit_date t with Some xd => xd | None => from end) ts'
  end.

(** The dates never go back. *)
Fixpoint dates_in_order (from : Z) (ds : list Z) : Prop :=
  match ds with
  | [] => True
  | d :: ds' => (from <= d)%Z /\ dates_in_order d ds'
  end.

(** The trades of the portfolio are in sequence since [from], and nothing
    has happened after [now]. *)
Definition in_time (from now : Z) (p : Portfolio) : Prop :=
  in_sequence from (trades p) /\
  (last_exit from (trades p) <= now)%Z /\
  match current_trade p with
  | Some t => (last_exit from (trades p) <= entry_date t <= now)%Z
  | None => True
  end.

(** [BacktestEngine.get_results_df] and [BacktestEngine.get_metrics]. *)
Definition get_results_df (e : BacktestEngine) : result DataFrame :=
  match results_df e with
  | None => Err (ValueError "Must run backtest first")
  | Some df => Ok df
  end.

Definition get_metrics (e : BacktestEngine) : result Metrics :=
  match metrics e with
  | None => Err (ValueError "Must run backtest first")
  | Some m => Ok m
  end.

(** One row of the frame that [get_trades_df] builds, a dict in the
    source. *)
Record TradeRow : Type := mkTradeRow {
  r_entry_date     : Z;
  r_exit_date      : option Z;
  r_entry_price    : Q;
  r_exit_price     : option Q;
  r_shares         : Q;
  r_return_pct     : option Q;
  r_return_dollars : option Q;
  r_holding_days   : option Z
}.

(** The rows of the trades, in order; [return_pct] may raise. *)
Fixpoint trade_rows (ts : list Trade) : result (list TradeRow) :=
  match ts with
  | [] => Ok []
  | t :: ts' =>
      do r <- return_pct t;
      do rows <- trade_rows ts';
      Ok (mkTradeRow (entry_date t) (exit_date t) (entry_price t)
                     (exit_price t) (shares t) r (return_dollars t)
                     (holding_days t) :: rows)
  end.

(** [BacktestEngine.get_trades_df], the frame as the list of its rows. *)
Definition get_trades_df (e : BacktestEngine) : result (list TradeRow) :=
  match portfolio e with
  | None => Err (ValueError "Must run backtest first")
  | Some p => trade_rows (get_closed_trades p)
  end.

(** A row whose signal is not a buy, at a price that is a number. *)
Definition no_buy_row (r : Row) : Prop :=
  fst (snd r) <> "BUY"%string /\ exists pr, snd (snd r) = Fin pr.

(** ** Further readings of a frame of signals *)

Definition column_length (c : column) : nat :=
  match c with
  | Float64 v => length v
  | Object v => length v
  | Boolean v => length v
  end.

(** Every column has one entry per date of the index, as pandas keeps a
    frame. *)
Definition aligned (df : DataFrame) : Prop :=
  Forall (fun kc => column_length (snd kc) = length (index df)) (columns df).

(** [s in {'BUY', 'SELL', 'HOLD'}]. *)
Definition valid_signal (s : string) : bool :=
  String.eqb s "BUY" || String.eqb s "SELL" || String.eqb s "HOLD".

(** [SignalValidator.validate_signals], the value it returns; the lines it
    prints are left out.  A cell that is not a string is not a valid signal,
    and [isna().all()] holds of a column with no cell. *)
Definition validate_signals (df : DataFrame) : bool :=
  match get_col df "signal" with
  | None => false
  | Some (Object v) => forallb valid_signal v && negb (is_nil v)
  | Some (Float64 _) => false
  | Some (Boolean _) => false
  end.

Record SignalSummary : Type := mkSignalSummary {
  n_buy   : nat;
  n_sell  : nat;
  n_hold  : nat;
  n_total : nat
}.

(** [(df['signal'] == s).sum()]. *)
Definition count_signal (s : string) (cells : list string) : nat :=
  length (filter (String.eqb s) cells).

(** [SignalValidator.get_signal_summary]. *)
Definition get_signal_summary (df : DataFrame) : result SignalSummary :=
  do cells <- signal_cells df;
  Ok (mkSignalSummary (count_signal "BUY" cells) (count_signal "SELL" cells)
                      (count_signal "HOLD" cells) (length (index df))).

(** ** Sound data for a run *)


(** Every trade of the portfolio, closed or open, was entered at a price
    that is not zero. *)
Definition entered_at_a_price (p : Portfolio) : Prop :=
  Forall (fun t => ~ entry_price t == 0) (trades p) /\
  match current_trade p with
  | Some t => ~ entry_price t == 0
  | None => True
  end.

(** An account that is worth something: a commission rate below 1, no debt
    in cash or in shares, and cash or shares in hand. *)
Definition solvent (p : Portfolio) : Prop :=
  commission_pct p < 1 /\ 0 <= cash p /\ 0 <= shares_held p /\
  (0 < cash p \/ 0 < shares_held p).

(** The close of the row is a positive number. *)
Definition positive_row (r : Row) : Prop :=
  exists q, snd (snd r) = Fin q /\ 0 < q.


(** The signal of one day as the two thresholds of [BreakoutStrategy] give
    it, from the distance of the close to the average in percent. *)
Definition breakout_signal (threshold : Q) (x : npfloat) : string :=
  if np_lt x (Fin (- threshold)) then "SELL"
  else if np_gt x (Fin threshold) then "BUY"
  else "HOLD".

(** The signal of one day as the two crossings of [SMACrossover] give it,
    from whether the short average was above the long one the day before
    and whether it is now. *)
Definition crossover_signal (before now : bool) : string :=
  if before && negb now then "SELL"
  else if negb before && now then "BUY"
  else "HOLD".



(** A frame with the two averages of [SMACrossover 5 20]: the short one
    crosses above the long one on day 2 and back below on day 3. *)
Definition sample_crossover : DataFrame :=
  mkFrame [0; 1; 2; 3]%Z
          [("close_price"%string, Float64 [Fin 100; Fin 101; Fin 102; Fin 103]);
           ("sma_5"%string, Float64 [NaN; Fin 99; Fin 103; Fin 100]);
           ("sma_20"%string, Float64 [NaN; Fin 100; Fin 101; Fin 102])].

(** A frame with the average of [BreakoutStrategy 60 2]: the close is 10
    percent above it on day 1 and 10 percent below on day 2. *)
Definition sample_breakout : DataFrame :=
  mkFrame [0; 1; 2]%Z
          [("close_price"%string, Float64 [Fin 100; Fin 110; Fin 90]);
           ("sma_60"%string, Float64 [NaN; Fin 100; Fin 100])].

(** * Properties *)

(** ** Comparisons *)

Lemma Qgtb_true_iff (x y : Q) : Qgtb x y = true <-> y < x.
Proof.
  unfold Qgtb. rewrite negb_true_iff. split; intro H.
  - apply Qnot_le_lt. intro Hle. apply Qle_bool_iff in Hle. congruence.
  - destruct (Qle_bool x y) eqn:E; [|reflexivity].
    apply Qle_bool_iff in E. lra.
Qed.

Lemma Qgtb_false_iff (x y : Q) : Qgtb x y = false <-> x <= y.
Proof.
  unfold Qgtb. rewrite negb_false_iff. apply Qle_bool_iff.
Qed.

Lemma Qeq_bool_false_iff (x y : Q) : Qeq_bool x y = false <-> ~ x == y.
Proof.
  split.
  - apply Qeq_bool_neq.
  - intro H. destruct (Qeq_bool x y) eqn:E; [|reflexivity].
    apply Qeq_bool_iff in E. contradiction.
Qed.

Lemma pydiv_nonzero (x y : Q) : ~ y == 0 -> pydiv x y = Ok (x / y).
Proof.
  intro H. unfold pydiv. now rewrite (proj2 (Qeq_bool_false_iff y 0) H).
Qed.

Lemma npdiv_nonzero (a b : Q) : ~ b == 0 -> npdiv a b = Fin (a / b).
Proof.
  intro H. unfold npdiv. now rewrite (proj2 (Qeq_bool_false_iff b 0) H).
Qed.

Lemma Qdiv_pos (x y : Q) : 0 < x -> 0 < y -> 0 < x / y.
Proof.
  intros Hx Hy. apply Qlt_shift_div_l; [assumption|]. lra.
Qed.

(** ** Refused orders *)

Lemma buy_refused_long (p : Portfolio) (d : Z) (pr : Q) (s : option Q) :
  has_position p = true -> buy p d pr s = (Ok false, p).
Proof. intro H. unfold buy. now rewrite H. Qed.

Lemma sell_refused_flat (p : Portfolio) (d : Z) (pr : Q) :
  has_position p = false -> sell p d pr = (Ok false, p).
Proof. intro H. unfold sell. now rewrite H. Qed.

Lemma buy_refused_cost (p : Portfolio) (d : Z) (pr : Q) (s : option Q) (n : Q) :
  buy_size p pr s = Ok n -> cash p < buy_total_cost p pr n ->
  buy p d pr s = (Ok false, p).
Proof.
  intros Hs Hc. unfold buy. destruct (has_position p); [reflexivity|].
  rewrite Hs. cbv zeta.
  now rewrite (proj2 (Qgtb_true_iff _ _) Hc).
Qed.

(** C4. [buy] returns [False] and changes nothing when a position is held
    or when the total cost [shares * price * (1 + commission_pct)] of the
    order exceeds the cash; [sell] returns [False] and changes nothing when
    no position is held.  The whole portfolio (cash, shares, entry price,
    open trade, trade history, equity curve) is the one given. *)
Theorem refused_orders_change_nothing (p : Portfolio) (d : Z) (pr : Q) :
  (forall s, has_position p = true -> buy p d pr s = (Ok false, p)) /\
  (forall s n, buy_size p pr s = Ok n ->
               cash p < n * pr * (1 + commission_pct p) ->
               buy p d pr s = (Ok false, p)) /\
  (has_position p = false -> sell p d pr = (Ok false, p)).
Proof.
  split; [|split].
  - intros s H. now apply buy_refused_long.
  - intros s n Hs Hc. apply (buy_refused_cost p d pr s n Hs).
    unfold buy_total_cost. lra.
  - apply sell_refused_flat.
Qed.

Lemma refused_orders_witness :
  let flat := Portfolio_init 10000 (1 # 1000) in
  let long := snd (buy flat 0 100 None) in
  buy long 1 105 None = (Ok false, long) /\
  buy flat 0 100 (Some 100) = (Ok false, flat) /\
  sell flat 0 100 = (Ok false, flat).
Proof.
  intros flat long.
  split; [|split].
  - apply (proj1 (refused_orders_change_nothing long 1 105)). reflexivity.
  - apply (proj1 (proj2 (refused_orders_change_nothing flat 0 100))
             (Some 100) 100); [reflexivity | vm_compute; reflexivity].
  - apply (proj2 (proj2 (refused_orders_change_nothing flat 0 100))).
    reflexivity.
Defined.

(** ** All-in sizing *)

(** On exact numbers the all-in order always fits.  A buy with no size
    given, on a flat portfolio with [cash >= 0], at a price [> 0] and a
    commission rate [0 <= c < 1], executes; its size is
    [cash * (1 - c) / price]; the amount deducted is
    [cash * (1 - c) * (1 + c)], at most [cash], and the cash left is not
    negative. *)
Lemma buy_all_in_within_cash (p : Portfolio) (d : Z) (pr : Q) :
  has_position p = false ->
  0 <= cash p -> 0 < pr ->
  0 <= commission_pct p -> commission_pct p < 1 ->
  exists p',
    buy p d pr None = (Ok true, p') /\
    shares_held p' = cash p * (1 - commission_pct p) / pr /\
    buy_total_cost p pr (shares_held p') ==
      cash p * (1 - commission_pct p) * (1 + commission_pct p) /\
    cash p' == cash p - cash p * (1 - commission_pct p) * (1 + commission_pct p) /\
    cash p * (1 - commission_pct p) * (1 + commission_pct p) <= cash p /\
    0 <= cash p'.
Proof.
  intros Hflat Hcash Hpr Hc0 Hc1.
  set (c := commission_pct p) in *.
  set (s := cash p * (1 - c) / pr).
  assert (Hne : ~ pr == 0) by lra.
  assert (Hcost : buy_total_cost p pr s == cash p * (1 - c) * (1 + c)).
  { unfold buy_total_cost, s. fold c. field. exact Hne. }
  assert (Hle : cash p * (1 - c) * (1 + c) <= cash p) by nra.
  assert (Hexec : Qgtb (buy_total_cost p pr s) (cash p) = false).
  { apply Qgtb_false_iff. rewrite Hcost. exact Hle. }
  eexists. split.
  - unfold buy. rewrite Hflat. unfold buy_size. fold c.
    rewrite (pydiv_nonzero _ _ Hne). fold s. cbv zeta. rewrite Hexec.
    reflexivity.
  - cbn [shares_held cash]. fold s. repeat split.
    + exact Hcost.
    + rewrite Hcost. reflexivity.
    + exact Hle.
    + rewrite Hcost. lra.
Qed.

Lemma buy_all_in_witness :
  exists p',
    buy (Portfolio_init 10000 (1 # 1000)) 0 100 None = (Ok true, p') /\
    shares_held p' = 10000 * (1 - (1 # 1000)) / 100 /\
    0 <= cash p'.
Proof.
  destruct (buy_all_in_within_cash (Portfolio_init 10000 (1 # 1000)) 0 100)
    as [p' (Hb & Hs & _ & _ & _ & Hc)].
  - reflexivity.
  - vm_compute; discriminate.
  - reflexivity.
  - vm_compute; discriminate.
  - reflexivity.
  - exists p'. repeat split; assumption.
Defined.

(** C6, at cash 10000, price 145 and commission rate 0, on the floats of the
    machine.  The size [10000 / 145] is rounded up, the cost [size * 145]
    comes out above 10000, and [buy] refuses the order: it returns [False]
    and the portfolio stays flat with all its cash.  On exact numbers the
    same order is executed. *)
Theorem all_in_buy_refused_by_rounding :
  (10000 <? 10000 * (1 - 0) / 145 * 145)%float = true /\
  buy64 (Portfolio64_init 10000 0) 0 145 None
    = (Ok false, Portfolio64_init 10000 0) /\
  fst (buy (Portfolio_init 10000 0) 0 145 None) = Ok true.
Proof. repeat split. Qed.

(** With the default commission rate, [0.001], which the machine holds as
    [0x1.0624dd2f1a9fcp-10], the same order goes through on binary64 too. *)
Lemma all_in_buy_with_commission_executes :
  fst (buy64 (Portfolio64_init 10000 0x1.0624dd2f1a9fcp-10) 0 145 None) = Ok true.
Proof. reflexivity. Qed.

(** ** The position invariant *)

Lemma filter_all_false {A} (f : A -> bool) (l : list A) :
  (forall x, In x l -> f x = false) -> filter f l = [].
Proof.
  induction l as [|a l IH]; intro H; [reflexivity|].
  cbn. rewrite (H a (or_introl eq_refl)). apply IH.
  intros x Hx. apply H. now right.
Qed.

Lemma open_trades_closed_history (p : Portfolio) :
  (forall t, In t (trades p) -> is_open t = false) ->
  open_trades p =
  match current_trade p with
  | Some t => if is_open t then [t] else []
  | None => []
  end.
Proof.
  intro H. unfold open_trades. rewrite filter_app, (filter_all_false _ _ H).
  destruct (current_trade p); reflexivity.
Qed.

Lemma funded_init (capital commission : Q) :
  0 < capital -> commission < 1 -> funded (Portfolio_init capital commission).
Proof.
  intros Hk Hc. constructor; cbn; try assumption.
  - intros t [].
  - split; [lra | assumption].
  - lra.
Qed.

Lemma funded_invariant (p : Portfolio) : funded p -> position_invariant p.
Proof.
  intros [Hh Hp Hk Hc]. unfold position_invariant.
  rewrite (open_trades_closed_history p Hh).
  destruct (current_trade p) as [t|].
  - destruct Hp as (Ho & He & Hs). rewrite Ho. cbn. split; split; intro.
    + reflexivity.
    + exact Hs.
    + exists t. auto.
    + reflexivity.
  - destruct Hp as (Hs & _). cbn. split; split; intro H.
    + contradiction.
    + discriminate.
    + discriminate.
    + destruct H as (t & Ht & _). discriminate.
Qed.

Lemma funded_buy (p : Portfolio) (d : Z) (pr : Q) (s : option Q) :
  funded p -> op_positive (Buy d pr s) -> funded (snd (buy p d pr s)).
Proof.
  intros F Hop. pose proof F as [Hh Hp Hk Hc]. unfold buy.
  destruct (has_position p) eqn:Hpos; [exact F|].
  apply Qgtb_false_iff in Hpos.
  destruct (current_trade p) as [t|] eqn:Hct; [lra|].
  destruct Hp as (_ & Hcash).
  assert (Hsize : exists n, buy_size p pr s = Ok n /\ 0 < n).
  { destruct s as [n|]; cbn in Hop |- *.
    - exists n. tauto.
    - rewrite pydiv_nonzero by lra. eexists. split; [reflexivity|].
      apply Qdiv_pos; [nra | exact Hop]. }
  destruct Hsize as (n & -> & Hn). cbv zeta.
  destruct (Qgtb (buy_total_cost p pr n) (cash p)) eqn:Hcost; [exact F|].
  apply Qgtb_false_iff in Hcost.
  constructor; cbn; try assumption.
  - auto.
  - lra.
Qed.

Lemma funded_sell (p : Portfolio) (d : Z) (pr : Q) :
  funded p -> 0 < pr -> funded (snd (sell p d pr)).
Proof.
  intros F Hpr. pose proof F as [Hh Hp Hk Hc]. unfold sell.
  destruct (has_position p) eqn:Hpos; [|exact F].
  apply Qgtb_true_iff in Hpos. cbn.
  assert (Hgain : 0 < shares_held p * pr - shares_held p * pr * commission_pct p).
  { assert (H1 : 0 < shares_held p * pr) by now apply Qmult_lt_0_compat.
    assert (H2 : 0 < shares_held p * pr * (1 - commission_pct p))
      by (apply Qmult_lt_0_compat; lra).
    lra. }
  constructor; cbn; try assumption.
  - destruct (current_trade p) as [t|]; [|exact Hh].
    intros t' Hin. apply in_app_or in Hin as [Hin | [<- | []]]; auto.
  - split; lra.
  - lra.
Qed.

Lemma funded_record_day (p : Portfolio) (d : Z) (pr : Q) :
  funded p -> funded (record_day p d pr).
Proof. intros [Hh Hp Hk Hc]. constructor; assumption. Qed.

Lemma funded_exec (p : Portfolio) (o : op) :
  funded p -> op_positive o -> funded (exec p o).
Proof.
  intros F Hop. destruct o as [d pr s | d pr | d pr]; cbn [exec].
  - now apply funded_buy.
  - now apply funded_sell.
  - now apply funded_record_day.
Qed.

Lemma funded_exec_all (ops : list op) (p : Portfolio) :
  funded p -> Forall op_positive ops -> funded (exec_all p ops).
Proof.
  revert p. induction ops as [|o ops IH]; intros p F Hops; [exact F|].
  inversion Hops; subst. cbn. apply IH; [|assumption].
  now apply funded_exec.
Qed.

(** C1, as the code has it.  Start from a portfolio constructed with a
    positive capital and a commission rate below 1, and apply any sequence
    of buy, sell and record_day calls in which every sell and every all-in
    buy is at a positive price and every buy with a size is for a positive
    number of shares.  After every call of the sequence:
    [shares_held > 0] iff exactly one open trade exists, iff
    [current_trade] is set and [position_entry_price] is its entry price. *)
Theorem position_invariant_after_every_operation
  (capital commission : Q) (ops : list op) (n : nat) :
  0 < capital -> commission < 1 -> Forall op_positive ops ->
  position_invariant
    (exec_all (Portfolio_init capital commission) (firstn n ops)).
Proof.
  intros Hk Hc Hops. apply funded_invariant, funded_exec_all.
  - now apply funded_init.
  - rewrite Forall_forall in *. intros o Ho. apply Hops.
    rewrite <- (firstn_skipn n ops). apply in_or_app. now left.
Qed.

Lemma position_invariant_witness :
  position_invariant
    (exec_all (Portfolio_init 10000 (1 # 1000)) (firstn 7 sample_ops)).
Proof.
  apply position_invariant_after_every_operation.
  - reflexivity.
  - reflexivity.
  - repeat constructor.
Defined.

(** C1, as stated, fails: a buy of zero shares on a default portfolio is
    executed, so a trade is open while no share is held. *)
Lemma position_invariant_broken_by_empty_buy :
  let p := exec_all (Portfolio_init 10000 (1 # 1000)) [Buy 0 100 (Some 0)] in
  fst (buy (Portfolio_init 10000 (1 # 1000)) 0 100 (Some 0)) = Ok true /\
  ~ position_invariant p.
Proof.
  split; [reflexivity|].
  intros [[_ H] _]. specialize (H eq_refl). vm_compute in H. discriminate.
Qed.

(** ** Empty input *)

(** C8. On an empty frame [run] raises its error, a [ValueError] that says
    no data was found for the ticker, at once: the engine is left as it was
    (no portfolio, no result frame, no metrics are stored) and so is the
    output, whatever the strategy would have printed or raised on that
    frame; [generate_signals] is not reached. *)
Theorem run_rejects_empty_input
  (sqrt : Q -> Q) (pow : Q -> Q -> npfloat)
  (e : BacktestEngine) (ticker : string) (df : DataFrame) (out : list string) :
  empty df = true ->
  run sqrt pow e ticker df out =
  (Err (ValueError ("No data found for " ++ ticker)%string), e, out).
Proof. intro H. unfold run. now rewrite H. Qed.

Lemma run_rejects_empty_input_witness :
  let e := BacktestEngine_init (SMACrossover 5 20) 10000 (1 # 1000) in
  run floor_sqrt int_pow e "AAPL" (mkFrame [] [("close_price"%string, Float64 [])]) [] =
  (Err (ValueError "No data found for AAPL"), e, []) /\
  portfolio e = None /\ results_df e = None /\ metrics e = None.
Proof.
  intro e. split.
  - apply (run_rejects_empty_input floor_sqrt int_pow e "AAPL"). reflexivity.
  - repeat split.
Defined.

(** ** Missing columns *)

Lemma prefix_app (a b : string) : prefix a (a ++ b) = true.
Proof.
  induction a as [|c a IH]; cbn.
  - now destruct b.
  - destruct (ascii_dec c c); [exact IH | contradiction].
Qed.

Lemma contains_prefix (sub s : string) :
  prefix sub s = true -> contains sub s = true.
Proof. intro H. destruct s; cbn [contains]; now rewrite H. Qed.

Lemma contains_here (a b : string) : contains a (a ++ b) = true.
Proof. apply contains_prefix, prefix_app. Qed.

Lemma contains_app_r (sub a b : string) :
  contains sub b = true -> contains sub (a ++ b) = true.
Proof.
  intro H. induction a as [|c a IH]; cbn [append].
  - exact H.
  - cbn [contains]. rewrite IH. apply orb_true_r.
Qed.

Lemma append_assoc (a b c : string) : ((a ++ b) ++ c = a ++ (b ++ c))%string.
Proof. induction a as [|x a IH]; cbn; [reflexivity | now rewrite IH]. Qed.

Lemma join_repr_names (l : list string) (f : string) :
  In f l -> contains f (join_repr l) = true.
Proof.
  induction l as [|x l IH]; [intros []|]. intros [<- | Hin].
  - destruct l; cbn [join_repr].
    + apply (contains_app_r _ "'"), contains_here.
    + apply (contains_app_r _ "'"). apply contains_here.
  - destruct l as [|y l]; [destruct Hin|].
    change (join_repr (x :: y :: l))
      with ("'" ++ x ++ "', " ++ join_repr (y :: l))%string.
    apply (contains_app_r _ "'"). rewrite <- append_assoc.
    apply contains_app_r. now apply IH.
Qed.

Lemma prefix_app_l (sub a b : string) :
  prefix sub a = true -> prefix sub (a ++ b) = true.
Proof.
  revert a. induction sub as [|c sub IH]; intros a H.
  - now destruct (a ++ b)%string.
  - destruct a as [|x a]; [discriminate|]. cbn in *.
    destruct (ascii_dec c x); [now apply IH | discriminate].
Qed.

Lemma contains_app_l (sub a b : string) :
  contains sub a = true -> contains sub (a ++ b) = true.
Proof.
  induction a as [|c a IH]; intro H.
  - cbn in H. rewrite orb_false_r in H.
    destruct sub; [|discriminate]. now destruct b.
  - cbn [append contains] in *. apply orb_true_iff in H as [H | H].
    + change (contains sub (String c a ++ b) = true).
      apply contains_prefix. exact (prefix_app_l _ (String c a) b H).
    + rewrite (IH H). apply orb_true_r.
Qed.

Lemma missing_line_names (l : list string) :
  names_all ("  ✗ Missing required columns: " ++ repr_list l) l = true.
Proof.
  unfold names_all. apply forallb_forall. intros f Hf.
  apply contains_app_r. unfold repr_list.
  apply (contains_app_r _ "["), contains_app_l.
  now apply join_repr_names.
Qed.

Lemma missing_columns_nonempty (s : Strategy) (df : DataFrame) (col : string) :
  In col (get_required_columns s) -> has_column df col = false ->
  is_nil (missing_columns s df) = false.
Proof.
  intros Hin Hno.
  assert (H : In col (missing_columns s df)).
  { unfold missing_columns. apply filter_In. split; [exact Hin|].
    now rewrite Hno. }
  destruct (missing_columns s df); [destruct H | reflexivity].
Qed.

(** C9, as the code has it.  For every strategy variant and every frame that
    lacks one of its required columns, [generate_signals] raises
    [ValueError("DataFrame missing required columns for <strategy name>")]
    and returns no frame, so no signal column exists.  The missing columns
    are not in the error: [validate_data] prints them, all of them, on one
    line before the error is raised. *)
Theorem generate_signals_rejects_missing_columns
  (s : Strategy) (df : DataFrame) (out : list string) (col : string) :
  In col (get_required_columns s) -> has_column df col = false ->
  let line :=
    ("  ✗ Missing required columns: " ++ repr_list (missing_columns s df))%string in
  generate_signals s df out =
    (Err (ValueError ("DataFrame missing required columns for " ++ name s)%string),
     out ++ [line]) /\
  In col (missing_columns s df) /\
  names_all line (missing_columns s df) = true.
Proof.
  intros Hin Hno line. split; [|split].
  - unfold generate_signals, validate_data.
    now rewrite (missing_columns_nonempty s df col Hin Hno).
  - unfold missing_columns. apply filter_In. split; [exact Hin|].
    now rewrite Hno.
  - apply missing_line_names.
Qed.

Lemma generate_signals_rejects_witness :
  generate_signals (SMACrossover 5 20) frame_without_close [] =
    (Err (ValueError "DataFrame missing required columns for SMA Crossover (5/20)"),
     ["  ✗ Missing required columns: ['close_price', 'sma_5', 'sma_20']"%string]) /\
  In "sma_5"%string (missing_columns (SMACrossover 5 20) frame_without_close).
Proof.
  destruct (generate_signals_rejects_missing_columns
              (SMACrossover 5 20) frame_without_close [] "sma_5")
    as (H1 & H2 & _).
  - cbn. auto.
  - reflexivity.
  - split; [exact H1 | exact H2].
Defined.

(** C9, as stated, fails: the error raised for a frame without
    [close_price] names the strategy, not the missing column. *)
Lemma error_does_not_name_missing_columns :
  generate_signals BuyAndHold frame_without_close [] =
    (Err (ValueError "DataFrame missing required columns for Buy and Hold"),
     ["  ✗ Missing required columns: ['close_price']"%string]) /\
  missing_columns BuyAndHold frame_without_close = ["close_price"%string] /\
  ~ raises_naming_missing BuyAndHold frame_without_close.
Proof.
  split; [reflexivity|]. split; [reflexivity|].
  intro H. destruct (H []) as (msg & Hmsg & Hnames).
  vm_compute in Hmsg. injection Hmsg as <-.
  vm_compute in Hnames. discriminate.
Qed.

(** ** Trade statistics *)

(** Which trades a list comprehension of [calculate_trade_statistics]
    keeps: those whose [return_pct] is a number other than 0 that passes the
    comparison. *)
Lemma select_trades_keeps (cond : Q -> bool) (ts l : list Trade) :
  select_trades cond ts = Ok l ->
  l = filter (fun t => match return_pct t with
                       | Ok (Some v) => truthy v && cond v
                       | _ => false
                       end) ts.
Proof.
  revert l. induction ts as [|t ts IH]; intros l H; cbn in H.
  - now inversion H.
  - destruct (return_pct t) as [r|x] eqn:Hr; [|discriminate].
    destruct (select_trades cond ts) as [l'|x]; [|discriminate].
    inversion H; subst. cbn. rewrite Hr, <- (IH l' eq_refl).
    now destruct r.
Qed.

(** The test of the losing trades, [r and r <= 0], is [r < 0]. *)
Lemma losing_test_is_strict (r : Q) : truthy r && Qle_bool r 0 = Qltb r 0.
Proof.
  change (Qltb r 0) with (Qgtb 0 r). apply eq_true_iff_eq.
  rewrite andb_true_iff, Qgtb_true_iff. unfold truthy.
  rewrite negb_true_iff, Qeq_bool_false_iff, Qle_bool_iff.
  split.
  - intros [Hne Hle]. destruct (Qle_lt_or_eq _ _ Hle); [assumption | contradiction].
  - intro H. split; lra.
Qed.

(** C5, at a trade whose return is exactly 0: the trade is closed and its
    [return_pct] is 0, yet [calculate_trade_statistics] counts it neither as
    winning nor as losing, so the two counts do not add up to the total. *)
Theorem breakeven_trade_is_not_counted :
  exists r stats,
    return_pct breakeven_trade = Ok (Some r) /\ r == 0 /\
    calculate_trade_statistics [breakeven_trade] = Ok stats /\
    total_trades stats = 1%nat /\
    winning_trades stats = 0%nat /\
    losing_trades stats = 0%nat.
Proof.
  do 2 eexists. repeat split; try (vm_compute; reflexivity).
Qed.

(** ** Sharpe ratio *)

(** With no daily return at all the ratio is 0. *)
Lemma sharpe_ratio_without_returns (sqrt : Q -> Q) (equity : list Q) (rf : Q) :
  (length equity <= 1)%nat -> calculate_sharpe_ratio sqrt equity rf = Fin 0.
Proof.
  intro H. destruct equity as [|x [|y l]]; try reflexivity. cbn in H. lia.
Qed.

Lemma fold_Qplus_zeros (l : list Q) (a : Q) :
  Forall (fun x => x == 0) l -> fold_left Qplus l a == a.
Proof.
  revert a. induction l as [|x l IH]; intros a H; cbn; [reflexivity|].
  inversion H as [|? ? Hx Hl]; subst. rewrite (IH _ Hl), Hx. ring.
Qed.

Lemma constant_curve_returns (v : Q) (n : nat) :
  ~ v == 0 ->
  dropna (pct_change (repeat v (S n))) = repeat (v / v - 1) n.
Proof.
  intro Hv. cbn [repeat pct_change dropna].
  induction n as [|n IH]; cbn; [reflexivity|].
  now rewrite (npdiv_nonzero v v Hv), IH.
Qed.

(** On a constant curve of at least three points the ratio is 0, for a
    square root that maps 0 to 0. *)
Lemma sharpe_ratio_of_constant_curve
  (sqrt : Q -> Q) (v : Q) (n : nat) (rf : Q) :
  (forall x, x == 0 -> sqrt x == 0) -> ~ v == 0 -> (2 <= n)%nat ->
  calculate_sharpe_ratio sqrt (repeat v (S n)) rf = Fin 0.
Proof.
  intros Hsqrt Hv Hn. unfold calculate_sharpe_ratio.
  rewrite (constant_curve_returns v n Hv).
  set (r := v / v - 1).
  assert (Hr : r == 0) by (unfold r; field; exact Hv).
  destruct n as [|[|n]]; try lia.
  set (l := repeat r (S (S n))).
  assert (Hl : Forall (fun x => x == 0) l) by (apply Forall_forall; intros x Hx;
    apply repeat_spec in Hx; now subst).
  assert (Hstd : series_std sqrt l
                 = Fin (sqrt (sq_dev (Qsum l / Qlen l) l / (Qlen l - 1))))
    by reflexivity.
  rewrite Hstd. cbn [np_eqb is_nil l repeat orb].
  assert (Hm : Qsum l / Qlen l == 0).
  { unfold Qsum. rewrite (fold_Qplus_zeros l 0 Hl). unfold Qdiv. ring. }
  assert (Hdev : sq_dev (Qsum l / Qlen l) l == 0).
  { unfold sq_dev, Qsum. apply fold_Qplus_zeros. apply Forall_forall.
    intros y Hy. apply in_map_iff in Hy as (x & <- & Hx).
    rewrite Forall_forall in Hl. rewrite (Hl x Hx), Hm. ring. }
  assert (Hvar : sqrt (sq_dev (Qsum l / Qlen l) l / (Qlen l - 1)) == 0).
  { apply Hsqrt. rewrite Hdev. unfold Qdiv. ring. }
  change (r :: r :: repeat r n) with l. now rewrite (Qeq_eq_bool _ _ Hvar).
Qed.

(** C2, at a curve of two points: there is one daily return, its sample
    standard deviation is NaN, the test [std() == 0] is false on it, and the
    ratio returned is NaN, not 0.  The same happens when the two points are
    equal. *)
Theorem sharpe_ratio_of_two_points_is_nan (sqrt : Q -> Q) (risk_free_rate : Q) :
  dropna (pct_change [100; 110]) = [110 / 100 - 1] /\
  series_std sqrt (dropna (pct_change [100; 110])) = NaN /\
  calculate_sharpe_ratio sqrt [100; 110] risk_free_rate = NaN /\
  calculate_sharpe_ratio sqrt [100; 100] risk_free_rate = NaN.
Proof. repeat split. Qed.

(** ** Maximum drawdown *)

Lemma dropna_fin (l : list Q) : dropna (map Fin l) = l.
Proof. induction l as [|x l IH]; cbn; [reflexivity | now rewrite IH]. Qed.

Lemma Qmax_pos_r (m x : Q) : 0 < x -> 0 < Qmax m x.
Proof. intro H. pose proof (Q.le_max_r m x). lra. Qed.

(** The vectorised computation of the source, on positive values. *)
Lemma drawdown_series_from (m : Q) (s : list Q) :
  Forall (fun x => 0 < x) s ->
  zip_with (fun x r => np_mul (npdiv (x - r) r) (Fin 100)) s (expanding_max_from m s)
  = map Fin (drawdowns_from m s).
Proof.
  revert m. induction s as [|x s IH]; intros m Hpos; [reflexivity|].
  inversion Hpos as [|? ? Hx Hs]; subst. cbn.
  rewrite npdiv_nonzero by (pose proof (Qmax_pos_r m x Hx); lra).
  cbn. now rewrite IH.
Qed.

(** The same drawdowns, read off the specification's formula. *)
Lemma drawdowns_from_spec (s : list Q) (p0 : Q) (ptl : list Q) :
  drawdowns_from (fold_left Qmax ptl p0) s =
  map (drawdown_at ((p0 :: ptl) ++ s)) (seq (length (p0 :: ptl)) (length s)).
Proof.
  revert ptl. induction s as [|x s IH]; intro ptl; [reflexivity|].
  set (pre := p0 :: ptl).
  assert (Hmax : running_max_up_to (pre ++ x :: s) (length pre)
                 = Qmax (fold_left Qmax ptl p0) x).
  { unfold running_max_up_to.
    replace (S (length pre)) with (length pre + 1)%nat by lia.
    rewrite firstn_app_2. unfold pre. cbn [firstn app].
    now rewrite fold_left_app. }
  assert (Hnth : nth (length pre) (pre ++ x :: s) 0 = x) by apply nth_middle.
  cbn [drawdowns_from length seq map].
  unfold drawdown_at at 1. rewrite Hmax, Hnth. f_equal.
  specialize (IH (ptl ++ [x])).
  rewrite fold_left_app in IH. cbn [fold_left] in IH. rewrite IH.
  unfold pre. cbn [length app]. rewrite length_app. cbn [length].
  replace (S (length ptl + 1)) with (S (S (length ptl))) by lia.
  now rewrite <- app_assoc.
Qed.

Lemma drawdown_series_spec (equity : list Q) :
  Forall (fun x => 0 < x) equity ->
  zip_with (fun x r => np_mul (npdiv (x - r) r) (Fin 100))
           equity (expanding_max equity)
  = map Fin (map (drawdown_at equity) (seq 0 (length equity))).
Proof.
  destruct equity as [|x s]; intro Hpos; [reflexivity|].
  inversion Hpos as [|? ? Hx Hs]; subst.
  cbn [expanding_max zip_with length seq map].
  rewrite npdiv_nonzero by lra. cbn [np_mul np_lift2].
  rewrite (drawdown_series_from x s Hs).
  f_equal. f_equal. exact (drawdowns_from_spec s x []).
Qed.

Lemma fold_Qmin_le_init (l : list Q) (x : Q) : fold_left Qmin l x <= x.
Proof.
  revert x. induction l as [|a l IH]; intro x; cbn; [lra|].
  pose proof (IH (Qmin x a)). pose proof (Q.le_min_l x a). lra.
Qed.

Lemma fold_Qmin_zero (l : list Q) (x : Q) :
  x == 0 -> Forall (fun y => y == 0) l -> fold_left Qmin l x == 0.
Proof.
  revert x. induction l as [|a l IH]; intros x Hx Hl; cbn; [exact Hx|].
  inversion Hl; subst. apply IH; [|assumption].
  destruct (Q.min_spec x a) as [[_ ->] | [_ ->]]; assumption.
Qed.

Lemma drawdown_at_peak (x : Q) : 0 < x -> (x - x) / x * 100 == 0.
Proof. intro H. field. lra. Qed.

Lemma drawdowns_from_nondecreasing (s : list Q) (m : Q) :
  0 < m -> nondecreasing_from m s ->
  Forall (fun y => y == 0) (drawdowns_from m s).
Proof.
  revert m. induction s as [|x s IH]; intros m Hm Hs; [constructor|].
  destruct Hs as [Hmx Hs]. cbn.
  assert (E : Qmax m x == x) by now apply Q.max_r.
  constructor.
  - rewrite E. apply drawdown_at_peak. lra.
  - apply IH; [rewrite E; lra|].
    destruct s as [|y s]; [exact I|]. cbn in *. split; [|tauto].
    rewrite E. tauto.
Qed.

(** C7. On a non-empty curve of positive values [calculate_max_drawdown]
    returns the minimum over [t] of
    [(equity[t] - running_max_up_to_t) / running_max_up_to_t * 100]; this
    value is at most 0, and it is 0 when the curve never goes down. *)
Theorem max_drawdown_is_min_over_peaks (equity : list Q) :
  equity <> [] -> Forall (fun x => 0 < x) equity ->
  calculate_max_drawdown equity = Fin (spec_max_drawdown equity) /\
  spec_max_drawdown equity <= 0 /\
  (nondecreasing equity -> spec_max_drawdown equity == 0).
Proof.
  intros Hne Hpos. destruct equity as [|x s]; [contradiction|].
  inversion Hpos as [|? ? Hx Hs]; subst.
  split; [|split].
  - unfold calculate_max_drawdown. rewrite (drawdown_series_spec _ Hpos).
    unfold series_min. rewrite dropna_fin. reflexivity.
  - unfold spec_max_drawdown. cbn [length seq map Qmin_list].
    eapply Qle_trans; [apply fold_Qmin_le_init|].
    unfold drawdown_at, running_max_up_to. cbn.
    rewrite (drawdown_at_peak x Hx). lra.
  - intro Hmono. unfold spec_max_drawdown.
    cbn [length seq map Qmin_list].
    pose proof (drawdowns_from_spec s x []) as E.
    cbn [fold_left length app] in E. rewrite <- E.
    apply fold_Qmin_zero.
    + unfold drawdown_at, running_max_up_to. cbn. now apply drawdown_at_peak.
    + cbn [fold_left]. now apply drawdowns_from_nondecreasing.
Qed.

Lemma max_drawdown_witness :
  calculate_max_drawdown [100; 120; 90; 130] =
    Fin (spec_max_drawdown [100; 120; 90; 130]) /\
  spec_max_drawdown [100; 120; 90; 130] == -25 /\
  spec_max_drawdown [100; 120; 90; 130] <= 0.
Proof.
  destruct (max_drawdown_is_min_over_peaks [100; 120; 90; 130]) as (H1 & H2 & _).
  - discriminate.
  - repeat constructor.
  - split; [exact H1|]. split; [vm_compute; reflexivity | exact H2].
Defined.

(** ** Frames *)

Lemma lookup_assign_same (k : string) (c : column) (cs : list (string * column)) :
  lookup k (assign k c cs) = Some c.
Proof.
  induction cs as [|[k' c'] cs IH]; cbn.
  - now rewrite String.eqb_refl.
  - destruct (String.eqb k k') eqn:E; cbn; rewrite E; [reflexivity | exact IH].
Qed.

Lemma lookup_assign_other (k k' : string) (c : column) (cs : list (string * column)) :
  String.eqb k k' = false -> lookup k (assign k' c cs) = lookup k cs.
Proof.
  intro Hne. induction cs as [|[k0 c0] cs IH]; cbn.
  - now rewrite Hne.
  - destruct (String.eqb k' k0) eqn:E; cbn.
    + apply String.eqb_eq in E. subst k0. now rewrite Hne.
    + now rewrite IH.
Qed.

Lemma lookup_has_column (df : DataFrame) (k : string) (c : column) :
  get_col df k = Some c -> has_column df k = true.
Proof.
  unfold get_col, has_column, column_names.
  induction (columns df) as [|[k' c'] cs IH]; cbn; [discriminate|].
  destruct (String.eqb k k'); [reflexivity | exact IH].
Qed.

Lemma iterrows_set_other (df : DataFrame) (k : string) (c : column) :
  String.eqb "signal" k = false -> String.eqb "close_price" k = false ->
  iterrows (set_col df k c) = iterrows df.
Proof.
  intros H1 H2. unfold iterrows, signal_cells, float_col, get_col, set_col.
  cbn [columns index]. now rewrite !lookup_assign_other.
Qed.

(** ** The loop of the engine *)

Lemma buy_keeps_curve (p : Portfolio) (d : Z) (pr : Q) (sz : option Q) :
  equity_curve (snd (buy p d pr sz)) = equity_curve p.
Proof.
  unfold buy. destruct (has_position p); [reflexivity|].
  destruct (buy_size p pr sz); [|reflexivity].
  cbv zeta. now destruct (Qgtb _ _).
Qed.

Lemma sell_keeps_curve (p : Portfolio) (d : Z) (pr : Q) :
  equity_curve (snd (sell p d pr)) = equity_curve p.
Proof. unfold sell. now destruct (has_position p). Qed.

Lemma day_order_keeps_curve (p : Portfolio) (d : Z) (s : string) (pr : Q) :
  equity_curve (snd (day_order p d s pr)) = equity_curve p.
Proof.
  unfold day_order.
  destruct ((s =? "BUY")%string && negb (has_position p));
    [apply buy_keeps_curve|].
  destruct ((s =? "SELL")%string && has_position p);
    [apply sell_keeps_curve | reflexivity].
Qed.

Lemma trade_day_records (p p' : Portfolio) (d : Z) (s : string) (pr : Q) (u : unit) :
  trade_day p d s pr = (Ok u, p') ->
  p' = record_day (snd (day_order p d s pr)) d pr.
Proof.
  unfold trade_day.
  destruct (day_order p d s pr) as [[b|x] q]; intro H; now inversion H.
Qed.

Lemma simulate_app (a b : list Row) (p : Portfolio) :
  simulate p (a ++ b) =
  match simulate p a with
  | (Ok _, p1) => simulate p1 b
  | (Err x, p1) => (Err x, p1)
  end.
Proof.
  revert p. induction a as [|[d [s [pr|]]] a IH]; intro p; cbn; try reflexivity.
  destruct (trade_day p d s pr) as [[u|x] p1]; [apply IH | reflexivity].
Qed.

Lemma simulate_length (rows : list Row) (p p' : Portfolio) (u : unit) :
  simulate p rows = (Ok u, p') ->
  length (equity_curve p') = (length (equity_curve p) + length rows)%nat.
Proof.
  revert p. induction rows as [|[d [s [pr|]]] rows IH]; intros p H; cbn in H.
  - inversion H. cbn. lia.
  - destruct (trade_day p d s pr) as [[v|x] p1] eqn:E; [|discriminate].
    rewrite (IH _ H), (trade_day_records _ _ _ _ _ _ E).
    cbn. rewrite length_app, day_order_keeps_curve. cbn. lia.
  - discriminate.
Qed.

(** After a loop over at least one row, the last snapshot of the curve is
    the state in which the loop leaves the portfolio, valued at the close of
    the last row. *)
Lemma simulate_last_snapshot
  (rows : list Row) (p p' : Portfolio) (u : unit)
  (d : Z) (s : string) (c : npfloat) (rest : list Row) :
  simulate p rows = (Ok u, p') -> rev rows = (d, (s, c)) :: rest ->
  exists pr earlier,
    c = Fin pr /\
    rev (equity_curve p') =
      mkSnapshot d (get_total_value p' pr) (cash p')
                 (get_position_value p' pr) (shares_held p') :: earlier.
Proof.
  intros Hsim Hrev.
  assert (Hrows : rows = rev rest ++ [(d, (s, c))]).
  { rewrite <- (rev_involutive rows), Hrev. reflexivity. }
  subst rows. rewrite simulate_app in Hsim.
  destruct (simulate p (rev rest)) as [[v|x] p1]; [|discriminate].
  cbn in Hsim. destruct c as [pr|]; [|discriminate].
  destruct (trade_day p1 d s pr) as [[w|x] p2] eqn:E; [|discriminate].
  inversion Hsim; subst. rewrite (trade_day_records _ _ _ _ _ _ E).
  exists pr, (rev (equity_curve (snd (day_order p1 d s pr)))).
  split; [reflexivity|]. cbn. now rewrite rev_app_distr.
Qed.

Lemma close_position_keeps_curve (p p' : Portfolio) (rows : list Row) (r : result unit) :
  close_position p rows = (r, p') -> equity_curve p' = equity_curve p.
Proof.
  unfold close_position. destruct (has_position p); [|now inversion 1].
  destruct (rev rows) as [|[d [s [pr|]]] rest]; inversion 1; subst;
    try reflexivity.
  apply sell_keeps_curve.
Qed.

Lemma calculate_all_final_value
  (sqrt : Q -> Q) (pow : Q -> Q -> npfloat)
  (equity : list Q) (capital : Q) (ts : list Trade) (rf : Q) (m : Metrics) :
  calculate_all sqrt pow equity capital ts rf = Ok m ->
  exists rest, rev equity = m_final_value m :: rest.
Proof.
  unfold calculate_all. destruct (rev equity) as [|final rest]; [discriminate|].
  destruct (calculate_total_return equity capital); [|discriminate].
  destruct (calculate_trade_statistics ts); [|discriminate].
  intro H. inversion H. cbn. now exists rest.
Qed.

(** What a run that returns has gone through. *)
Lemma run_returns
  (sqrt : Q -> Q) (pow : Q -> Q -> npfloat)
  (e e' : BacktestEngine) (ticker : string) (df : DataFrame)
  (out out' : list string) (u : unit) :
  run sqrt pow e ticker df out = (Ok u, e', out') ->
  exists df' rows p1 p2 m v w,
    generate_signals (strategy e) df out = (Ok df', out') /\
    iterrows df' = Ok rows /\
    simulate (Portfolio_init (engine_capital e) (engine_commission e)) rows
      = (Ok v, p1) /\
    close_position p1 rows = (Ok w, p2) /\
    calculate_all sqrt pow (map portfolio_value (equity_curve p2))
                  (engine_capital e) (get_closed_trades p2) (2 # 100) = Ok m /\
    portfolio e' = Some p2 /\ metrics e' = Some m /\
    results_df e' =
      Some (set_col df' "portfolio_value"
                    (Float64 (map Fin (map portfolio_value (equity_curve p2))))).
Proof.
  unfold run. destruct (empty df); [discriminate|].
  destruct (generate_signals (strategy e) df out) as [[df'|x] o] eqn:Hgen;
    [|discriminate].
  destruct (iterrows df') as [rows|x] eqn:Hrows; [|discriminate].
  destruct (simulate _ rows) as [[v|x] p1] eqn:Hsim; [|discriminate].
  destruct (close_position p1 rows) as [[w|x] p2] eqn:Hclose; [|discriminate].
  cbn [engine_capital with_results with_portfolio].
  destruct (calculate_all _ _ _ _ _ _) as [m|x] eqn:Hall; [|discriminate].
  intro H. inversion H; subst.
  exists df', rows, p1, p2, m, v, w. cbn. repeat split; assumption.
Qed.

(** ** The forced close *)

(** C10. Take any run that returns.  The result frame has a last row, and
    the equity curve has one snapshot per row, the last one dated as that
    row.  The final value reported by the metrics is the value of that
    snapshot, [cash + shares_held * close] at the last close.  When the
    snapshot still shows a position, the position is sold after it: the
    portfolio ends flat, and the reported final value exceeds the cash it
    ends with by exactly [shares_held * close * commission_pct]. *)
Theorem forced_close_follows_last_snapshot
  (sqrt : Q -> Q) (pow : Q -> Q -> npfloat)
  (e e' : BacktestEngine) (ticker : string) (df : DataFrame)
  (out out' : list string) :
  run sqrt pow e ticker df out = (Ok tt, e', out') ->
  exists p m frame rows last_date signal last_close before snap earlier,
    portfolio e' = Some p /\ metrics e' = Some m /\
    results_df e' = Some frame /\ iterrows frame = Ok rows /\
    rev rows = (last_date, (signal, Fin last_close)) :: before /\
    rev (equity_curve p) = snap :: earlier /\
    length (equity_curve p) = length rows /\
    snap_date snap = last_date /\
    m_final_value m = portfolio_value snap /\
    portfolio_value snap = snap_cash snap + snap_shares_held snap * last_close /\
    (0 < snap_shares_held snap ->
     shares_held p = 0 /\ current_trade p = None /\
     m_final_value m - cash p
       == snap_shares_held snap * last_close * commission_pct p).
Proof.
  intro Hrun.
  destruct (run_returns _ _ _ _ _ _ _ _ _ Hrun)
    as (df' & rows & p1 & p2 & m & v & w & _ & Hrows & Hsim & Hclose & Hall
        & Hp & Hm & Hf).
  pose proof (close_position_keeps_curve _ _ _ _ Hclose) as Hcurve.
  pose proof (simulate_length _ _ _ _ Hsim) as Hlen. cbn in Hlen.
  destruct (calculate_all_final_value _ _ _ _ _ _ _ Hall) as [vrest Hfinal].
  rewrite <- map_rev, Hcurve in Hfinal.
  destruct (rev rows) as [|[d [s c]] before] eqn:Hrev.
  { apply (f_equal (@length Row)) in Hrev. rewrite length_rev in Hrev.
    cbn in Hrev. rewrite Hrev in Hlen.
    destruct (equity_curve p1); [discriminate Hfinal | discriminate Hlen]. }
  destruct (simulate_last_snapshot _ _ _ _ _ _ _ _ Hsim Hrev)
    as (pr & earlier & -> & Hsnap).
  rewrite Hsnap in Hfinal. cbn in Hfinal. injection Hfinal as Hfv _.
  eexists p2, m, _, rows, d, s, pr, before, _, earlier.
  split; [exact Hp|]. split; [exact Hm|]. split; [exact Hf|].
  split; [rewrite iterrows_set_other by reflexivity; exact Hrows|].
  split; [exact Hrev|].
  split; [rewrite Hcurve; exact Hsnap|].
  split; [now rewrite Hcurve|].
  split; [reflexivity|].
  split; [symmetry; exact Hfv|].
  split; [reflexivity|].
  cbn [snap_shares_held snap_cash]. intro Hheld.
  unfold close_position in Hclose.
  rewrite (proj2 (Qgtb_true_iff _ _) Hheld : has_position p1 = true) in Hclose.
  rewrite Hrev in Hclose. inversion Hclose; subst p2. clear Hclose.
  unfold sell.
  rewrite (proj2 (Qgtb_true_iff _ _) Hheld : has_position p1 = true).
  cbn. split; [reflexivity|]. split; [reflexivity|].
  rewrite <- Hfv. unfold get_total_value, get_position_value. ring.
Qed.

Lemma forced_close_witness :
  exists p m snap earlier,
    fst (fst sample_run) = Ok tt /\
    portfolio (snd (fst sample_run)) = Some p /\
    metrics (snd (fst sample_run)) = Some m /\
    rev (equity_curve p) = snap :: earlier /\
    0 < snap_shares_held snap /\
    shares_held p = 0 /\
    m_final_value m - cash p == snap_shares_held snap * 120 * commission_pct p.
Proof.
  destruct (forced_close_follows_last_snapshot
              floor_sqrt int_pow sample_engine (snd (fst sample_run))
              "AAPL" sample_frame [] (snd sample_run))
    as (p & m & frame & rows & d & s & c & before & snap & earlier
        & Hp & Hm & Hf & Hrows & Hrev & Hsnap & _ & _ & _ & _ & Hsold).
  - vm_compute. reflexivity.
  - assert (Hc : c = 120).
    { vm_compute in Hf. injection Hf as <-. vm_compute in Hrows.
      injection Hrows as <-. vm_compute in Hrev. now injection Hrev. }
    assert (Hheld : 0 < snap_shares_held snap).
    { vm_compute in Hp. injection Hp as <-. vm_compute in Hsnap.
      injection Hsnap as <- _. reflexivity. }
    subst c. destruct (Hsold Hheld) as (H0 & _ & Hgap).
    exists p, m, snap, earlier. repeat split; try assumption.
Defined.

(** ** Buy and hold *)

Lemma same_account_refl (p : Portfolio) : same_account p p.
Proof. repeat split. Qed.

Lemma simulate_hold_rows (rows : list Row) (p : Portfolio) :
  Forall hold_row rows ->
  exists q, simulate p rows = (Ok tt, q) /\ same_account p q.
Proof.
  revert p. induction rows as [|[d [s c]] rows IH]; intros p Hrows.
  - exists p. split; [reflexivity | apply same_account_refl].
  - inversion Hrows as [|? ? [Hs [pr Hc]] Hrest]; subst. cbn in Hs, Hc. subst.
    destruct (IH (record_day p d pr) Hrest) as (q & Hq & Hsame).
    exists q. split; [exact Hq | exact Hsame].
Qed.

Lemma hold_rows_combine (ds : list Z) (cs : list Q) (n : nat) :
  Forall hold_row (combine ds (combine (repeat "HOLD"%string n) (map Fin cs))).
Proof.
  revert cs n. induction ds as [|d ds IH]; intros cs n; [constructor|].
  destruct n as [|n]; [constructor|]. destruct cs as [|c cs]; [constructor|].
  cbn. constructor; [|apply IH]. split; [reflexivity | now exists c].
Qed.

Lemma rev_last {A} (l : list A) (d : A) :
  l <> [] -> exists before, rev l = last l d :: before.
Proof.
  intro H. destruct (exists_last H) as (l' & a & ->).
  rewrite rev_app_distr, last_last. cbn. now eexists.
Qed.

Lemma last_rows (ds : list Z) (sg : list string) (cs : list Q)
      (d0 : Z) (s0 : string) (c0 : Q) (dflt : Row) :
  length sg = length ds -> length cs = length ds ->
  exists s,
    last (A := Row)
         (combine (d0 :: ds) (combine (s0 :: sg) (map Fin (c0 :: cs)))) dflt
    = (last (d0 :: ds) 0%Z, (s, Fin (last (c0 :: cs) 0))).
Proof.
  revert sg cs d0 s0 c0. induction ds as [|d ds IH]; intros sg cs d0 s0 c0 Hs Hc.
  - destruct sg; [|discriminate]. destruct cs; [|discriminate].
    now exists s0.
  - destruct sg as [|s sg]; [discriminate|]. destruct cs as [|c cs]; [discriminate|].
    injection Hs as Hs. injection Hc as Hc.
    destruct (IH sg cs d s c Hs Hc) as [s' IH'].
    exists s'.
    change (last (d0 :: d :: ds) 0%Z) with (last (d :: ds) 0%Z).
    change (last (c0 :: c :: cs) 0) with (last (c :: cs) 0).
    rewrite <- IH'. reflexivity.
Qed.

(** The statistics of one closed trade entered at a price that is not zero
    are computed without error. *)
Lemma trade_statistics_of_one (t : Trade) (xd : Z) :
  ~ entry_price t == 0 -> exit_date t = Some xd ->
  exists stats, calculate_trade_statistics [t] = Ok stats.
Proof.
  intros Hep Hxd.
  assert (Hne : Qeq_bool (entry_price t) 0 = false)
    by now apply Qeq_bool_false_iff.
  assert (Hdays : holding_days t = Some (xd - entry_date t)%Z)
    by (unfold holding_days; now rewrite Hxd).
  unfold calculate_trade_statistics, mean_over.
  cbn [is_nil select_trades].
  unfold return_pct, is_open. rewrite Hxd. cbn [negb andb].
  destruct (exit_price t) as [xp|] eqn:Hxp.
  - destruct (truthy xp) eqn:Htr.
    + unfold pydiv. rewrite Hne. cbn [truthy_opt].
      set (r := (xp - entry_price t) / entry_price t * 100).
      destruct (truthy r); cbn [andb];
        [destruct (Qgtb r 0); destruct (Qle_bool r 0)|];
        cbn [is_nil sum_over];
        unfold return_pct, return_dollars, is_open, pydiv;
        rewrite ?Hxd, ?Hxp; cbn [negb andb]; rewrite ?Htr, ?Hne, ?Hdays;
        cbn [option_map sum_over]; eexists; reflexivity.
    + cbn [truthy_opt andb is_nil sum_over]. rewrite Hdays.
      cbn [option_map sum_over]. eexists; reflexivity.
  - cbn [truthy_opt andb is_nil sum_over]. rewrite Hdays.
    cbn [option_map sum_over]. eexists; reflexivity.
Qed.

(** An all-in buy on a flat portfolio with cash is always executed. *)
Lemma buy_all_in_executes (p : Portfolio) (d : Z) (pr : Q) :
  has_position p = false -> 0 <= cash p -> 0 < pr ->
  let s := cash p * (1 - commission_pct p) / pr in
  buy p d pr None =
  (Ok true,
   mkPortfolio (starting_capital p) (cash p - buy_total_cost p pr s)
               (commission_pct p) s pr (trades p)
               (Some (mkTrade d pr s None None)) (equity_curve p)).
Proof.
  intros Hflat Hcash Hpr s.
  assert (Hne : ~ pr == 0) by lra.
  assert (Hcost : buy_total_cost p pr s
                  == cash p * (1 - commission_pct p) * (1 + commission_pct p)).
  { unfold buy_total_cost, s. field. exact Hne. }
  assert (Hexec : Qgtb (buy_total_cost p pr s) (cash p) = false).
  { apply Qgtb_false_iff. rewrite Hcost. nra. }
  unfold buy. rewrite Hflat. unfold buy_size.
  rewrite (pydiv_nonzero _ _ Hne). fold s. cbv zeta. now rewrite Hexec.
Qed.

Lemma calculate_all_returns
  (sqrt : Q -> Q) (pow : Q -> Q -> npfloat)
  (equity : list Q) (capital : Q) (ts : list Trade) (rf : Q) (stats : TradeStats) :
  equity <> [] -> calculate_trade_statistics ts = Ok stats ->
  exists m, calculate_all sqrt pow equity capital ts rf = Ok m.
Proof.
  intros Hne Hstats. unfold calculate_all, calculate_total_return.
  destruct (rev equity) as [|final rest] eqn:Hrev.
  - apply (f_equal (@rev Q)) in Hrev. rewrite rev_involutive in Hrev.
    contradiction.
  - cbn. rewrite Hstats. now eexists.
Qed.

(** An all-in buy that leaves a position was executed, at a price that is
    not zero and for the size the source computes. *)
Lemma buy_opens_position (p : Portfolio) (d : Z) (pr : Q) :
  has_position p = false ->
  has_position (snd (buy p d pr None)) = true ->
  let s := cash p * (1 - commission_pct p) / pr in
  ~ pr == 0 /\
  buy p d pr None =
  (Ok true,
   mkPortfolio (starting_capital p) (cash p - buy_total_cost p pr s)
               (commission_pct p) s pr (trades p)
               (Some (mkTrade d pr s None None)) (equity_curve p)).
Proof.
  intros Hflat Hpos s. unfold buy in *. rewrite Hflat in *.
  unfold buy_size, pydiv in *.
  destruct (Qeq_bool pr 0) eqn:Hpr; [cbn in Hpos; congruence|].
  apply Qeq_bool_false_iff in Hpr. split; [exact Hpr|].
  fold s in Hpos |- *. cbv zeta in *.
  destruct (Qgtb (buy_total_cost p pr s) (cash p));
    [cbn in Hpos; congruence | reflexivity].
Qed.

(** On exact numbers a funded portfolio opens a position with its first
    all-in buy at a positive price. *)
Lemma funded_buy_opens_position (capital commission : Q) (d : Z) (pr : Q) :
  0 < capital -> commission < 1 -> 0 < pr ->
  has_position (snd (buy (Portfolio_init capital commission) d pr None)) = true.
Proof.
  intros Hk Hc Hpr.
  pose proof (buy_all_in_executes (Portfolio_init capital commission) d pr eq_refl)
    as Hexec.
  cbn [cash commission_pct Portfolio_init] in Hexec.
  rewrite (Hexec (Qlt_le_weak _ _ Hk) Hpr). cbn.
  apply Qgtb_true_iff, Qdiv_pos; [nra | exact Hpr].
Qed.

(** The portfolio side of a buy-and-hold run: a BUY row, then HOLD rows. *)
Lemma buy_and_hold_portfolio
  (capital commission : Q) (d0 : Z) (ds : list Z) (c0 : Q) (cs : list Q) :
  has_position (snd (buy (Portfolio_init capital commission) d0 c0 None)) = true ->
  length cs = length ds ->
  let rows :=
    combine (d0 :: ds)
            (combine ("BUY"%string :: repeat "HOLD"%string (length ds))
                     (map Fin (c0 :: cs))) in
  exists p1 p2 size,
    ~ c0 == 0 /\
    simulate (Portfolio_init capital commission) rows = (Ok tt, p1) /\
    close_position p1 rows = (Ok tt, p2) /\
    trades p2 = [mkTrade d0 c0 size (Some (last (d0 :: ds) 0%Z))
                         (Some (last (c0 :: cs) 0))] /\
    equity_curve p2 <> [].
Proof.
  intros Hopen Hlen rows.
  set (p0 := Portfolio_init capital commission) in *.
  set (size := capital * (1 - commission) / c0).
  assert (Hbuy : day_order p0 d0 "BUY" c0 = buy p0 d0 c0 None) by reflexivity.
  destruct (buy_opens_position p0 d0 c0 eq_refl Hopen) as [Hc0 Hexec].
  cbn [cash commission_pct p0 Portfolio_init] in Hexec. fold p0 size in Hexec.
  rewrite Hexec in Hopen. cbn [snd] in Hopen.
  rewrite <- Hbuy in Hexec.
  destruct (simulate_hold_rows
              (combine ds (combine (repeat "HOLD"%string (length ds)) (map Fin cs)))
              (record_day (snd (day_order p0 d0 "BUY" c0)) d0 c0)
              (hold_rows_combine _ _ _))
    as (p1 & Hsim & Hsame).
  assert (Hsim' : simulate p0 rows = (Ok tt, p1)).
  { unfold rows. cbn [combine map simulate]. unfold trade_day.
    rewrite Hexec in *. exact Hsim. }
  rewrite Hexec in Hsame. cbn [snd] in Hsame.
  destruct Hsame as (_ & _ & _ & Hheld & _ & Htrades & Hcurrent).
  cbn in Hheld, Htrades, Hcurrent.
  assert (Hpos : has_position p1 = true).
  { unfold has_position in *. now rewrite Hheld. }
  assert (Hrows : rows <> []) by discriminate.
  destruct (rev_last (A := Row) rows (d0, ("BUY"%string, Fin c0)) Hrows)
    as [before Hrev].
  destruct (last_rows ds (repeat "HOLD"%string (length ds)) cs d0 "BUY" c0
                      (d0, ("BUY"%string, Fin c0)) (repeat_length _ _) Hlen)
    as [s Hlast].
  fold rows in Hlast. rewrite Hlast in Hrev.
  exists p1, (snd (sell p1 (last (d0 :: ds) 0%Z) (last (c0 :: cs) 0))), size.
  split; [exact Hc0|]. split; [exact Hsim'|]. split; [|split].
  - unfold close_position. now rewrite Hpos, Hrev.
  - unfold sell. rewrite Hpos. cbn. now rewrite Hcurrent, Htrades.
  - rewrite sell_keeps_curve. intro Hnil.
    pose proof (simulate_length _ _ _ _ Hsim') as Hl.
    rewrite Hnil in Hl. discriminate Hl.
Qed.

Lemma generate_buy_and_hold (df : DataFrame) (out : list string) (d0 : Z) (ds : list Z) :
  index df = d0 :: ds -> has_column df "close_price" = true ->
  generate_signals BuyAndHold df out =
  (Ok (set_col (set_col df "signal" (Object (hold df))) "signal"
               (Object ("BUY"%string :: repeat "HOLD"%string (length ds)))),
   out).
Proof.
  intros Hidx Hcol. unfold generate_signals, validate_data, missing_columns.
  cbn [get_required_columns filter]. rewrite Hcol. cbn.
  unfold buy_and_hold_signals, hold. cbn [set_col index]. rewrite Hidx.
  reflexivity.
Qed.

(** C3, as the code has it.  Run the engine with BuyAndHold on a frame of at
    least one date, and let the buy of the first day, all-in at the first
    close on the fresh portfolio, leave a position.  Then the run returns,
    and its portfolio has closed exactly one trade: entered on the first
    date at the first close, left on the last date at the last close. *)
Theorem buy_and_hold_round_trip
  (sqrt : Q -> Q) (pow : Q -> Q -> npfloat)
  (e : BacktestEngine) (ticker : string) (df : DataFrame) (out : list string)
  (dates : list Z) (closes : list Q) :
  strategy e = BuyAndHold ->
  index df = dates ->
  get_col df "close_price" = Some (Float64 (map Fin closes)) ->
  dates <> [] -> length closes = length dates ->
  has_position
    (snd (buy (Portfolio_init (engine_capital e) (engine_commission e))
              (hd 0%Z dates) (hd 0 closes) None)) = true ->
  exists e' p,
    run sqrt pow e ticker df out = (Ok tt, e', out) /\
    portfolio e' = Some p /\
    round_trip p dates closes.
Proof.
  intros Hs Hidx Hclose Hne Hlen Hopen.
  destruct dates as [|d0 ds]; [contradiction|].
  destruct closes as [|c0 cs]; [discriminate|].
  injection Hlen as Hlen. cbn [hd] in Hopen.
  pose proof (lookup_has_column _ _ _ Hclose) as Hcol.
  assert (Hempty : empty df = false).
  { unfold empty. rewrite Hidx. cbn.
    unfold get_col in Hclose. now destruct (columns df). }
  set (df' := set_col (set_col df "signal" (Object (hold df))) "signal"
                      (Object ("BUY"%string :: repeat "HOLD"%string (length ds)))).
  assert (Hrows : iterrows df' =
                  Ok (combine (d0 :: ds)
                        (combine ("BUY"%string :: repeat "HOLD"%string (length ds))
                                 (map Fin (c0 :: cs))))).
  { unfold iterrows, signal_cells, float_col, get_col, df', set_col.
    cbn [columns index]. rewrite lookup_assign_same.
    rewrite !lookup_assign_other by reflexivity.
    unfold get_col in Hclose. now rewrite Hclose, Hidx. }
  destruct (buy_and_hold_portfolio _ _ d0 ds c0 cs Hopen Hlen)
    as (p1 & p2 & size & Hc0 & Hsim & Hclosep & Htrades & Hcurve).
  cbv zeta in Hsim, Hclosep.
  set (t := mkTrade d0 c0 size (Some (last (d0 :: ds) 0%Z))
                    (Some (last (c0 :: cs) 0))) in *.
  destruct (trade_statistics_of_one t (last (d0 :: ds) 0%Z) Hc0 eq_refl)
    as [stats Hstats].
  assert (Hclosed : get_closed_trades p2 = [t]).
  { unfold get_closed_trades. now rewrite Htrades. }
  destruct (calculate_all_returns sqrt pow
              (map portfolio_value (equity_curve p2)) (engine_capital e)
              (get_closed_trades p2) (2 # 100) stats)
    as [m Hm].
  { intro Hnil. apply map_eq_nil in Hnil. contradiction. }
  { now rewrite Hclosed. }
  eexists. exists p2. split; [|split].
  - unfold run. rewrite Hempty, Hs.
    rewrite (generate_buy_and_hold df out d0 ds Hidx Hcol). fold df'.
    cbv zeta. rewrite Hrows, Hsim, Hclosep.
    cbn [engine_capital with_results with_portfolio]. rewrite Hm.
    reflexivity.
  - reflexivity.
  - exists t. repeat split. exact Hclosed.
Qed.

Lemma buy_and_hold_round_trip_witness :
  exists e' p,
    sample_run = (Ok tt, e', []) /\
    portfolio e' = Some p /\
    round_trip p [0; 1; 2]%Z [100; 110; 120].
Proof.
  apply (buy_and_hold_round_trip floor_sqrt int_pow sample_engine "AAPL"
                                 sample_frame [] [0; 1; 2]%Z [100; 110; 120]);
    try reflexivity.
  discriminate.
Defined.

(** C3, as stated, fails: with no capital the buy of the first day is
    executed for zero shares, the portfolio never counts as holding a
    position, and the run ends with no closed trade. *)
Lemma unfunded_buy_and_hold_closes_no_trade :
  exists e' p,
    unfunded_run = (Ok tt, e', []) /\
    portfolio e' = Some p /\
    get_closed_trades p = [] /\
    ~ round_trip p [0; 1; 2]%Z [100; 110; 120].
Proof.
  eexists. eexists.
  split; [vm_compute; reflexivity|].
  split; [reflexivity|].
  split; [reflexivity|].
  intros (t & H & _). discriminate H.
Qed.

(** * Further properties of the portfolio *)

Lemma exec_keeps_rate (p : Portfolio) (o : op) :
  commission_pct (exec p o) = commission_pct p.
Proof.
  destruct o as [d pr s | d pr | d pr]; cbn [exec]; [| |reflexivity].
  - unfold buy. destruct (has_position p); [reflexivity|].
    destruct (buy_size p pr s); [|reflexivity].
    cbv zeta. now destruct (Qgtb _ _).
  - unfold sell. now destruct (has_position p).
Qed.

Lemma exec_keeps_cash_up (p : Portfolio) (o : op) :
  0 <= cash p -> commission_pct p <= 1 ->
  match o with Sell _ pr => 0 <= pr | _ => True end ->
  0 <= cash (exec p o).
Proof.
  intros Hk Hc Ho. destruct o as [d pr s | d pr | d pr]; cbn [exec];
    [| |exact Hk].
  - unfold buy. destruct (has_position p); [exact Hk|].
    destruct (buy_size p pr s) as [n|]; [|exact Hk].
    cbv zeta. destruct (Qgtb _ _) eqn:Hcost; [exact Hk|].
    apply Qgtb_false_iff in Hcost. cbn. lra.
  - unfold sell. destruct (has_position p) eqn:Hpos; [|exact Hk].
    apply Qgtb_true_iff in Hpos. cbn.
    assert (H1 : 0 <= shares_held p * pr) by (apply Qmult_le_0_compat; lra).
    assert (H2 : 0 <= shares_held p * pr * (1 - commission_pct p))
      by (apply Qmult_le_0_compat; lra).
    lra.
Qed.

(** X1. The cash of a portfolio never becomes negative.  Start with a
    capital that is not negative and a commission rate of at most 1, and
    apply any calls whose sells are at prices that are not negative; the
    buys may be of any size at any price, [buy] charges no more than the
    cash it finds.  After every call the cash is at least 0. *)
Theorem cash_is_never_negative
  (capital commission : Q) (ops : list op) (n : nat) :
  0 <= capital -> commission <= 1 -> sells_not_negative ops ->
  0 <= cash (exec_all (Portfolio_init capital commission) (firstn n ops)).
Proof.
  intros Hk Hc Hops.
  assert (Hpre : sells_not_negative (firstn n ops)).
  { unfold sells_not_negative in *. rewrite Forall_forall in *.
    intros o Ho. apply Hops. rewrite <- (firstn_skipn n ops).
    apply in_or_app. now left. }
  clear Hops. revert Hpre. generalize (firstn n ops). clear ops n. intro ops.
  assert (Hgen : forall p, 0 <= cash p -> commission_pct p <= 1 ->
                 sells_not_negative ops -> 0 <= cash (exec_all p ops)).
  { induction ops as [|o ops IH]; intros p Hp Hr Hs; [exact Hp|].
    inversion Hs; subst. cbn. apply IH; [| |assumption].
    - now apply exec_keeps_cash_up.
    - now rewrite exec_keeps_rate. }
  intro Hs. now apply Hgen.
Qed.

Lemma cash_is_never_negative_witness :
  0 <= cash (exec_all (Portfolio_init 10000 (1 # 1000))
                      (firstn 4 [Buy 0 100 None; Sell 1 0; Buy 2 50 (Some (-3));
                                 Sell 3 70])).
Proof.
  apply cash_is_never_negative.
  - vm_compute; discriminate.
  - vm_compute; discriminate.
  - repeat constructor; vm_compute; discriminate.
Defined.

Lemma exec_keeps_history_closed (p : Portfolio) (o : op) :
  Forall closed_trade (trades p) -> Forall closed_trade (trades (exec p o)).
Proof.
  intro H. destruct o as [d pr s | d pr | d pr]; cbn [exec]; [| |exact H].
  - unfold buy. destruct (has_position p); [exact H|].
    destruct (buy_size p pr s); [|exact H].
    cbv zeta. now destruct (Qgtb _ _).
  - unfold sell. destruct (has_position p); [|exact H]. cbn.
    destruct (current_trade p) as [t|]; [|exact H].
    apply Forall_app. split; [exact H|].
    constructor; [|constructor]. split; discriminate.
Qed.

Lemma closed_history_is_kept_whole (l : list Trade) :
  Forall closed_trade l -> filter (fun t => negb (is_open t)) l = l.
Proof.
  induction 1 as [|t l [Hd _] _ IH]; [reflexivity|].
  cbn. unfold is_open at 1. destruct (exit_date t); [|contradiction].
  cbn. now rewrite IH.
Qed.

(** X2. Whatever calls are made on a fresh portfolio, with whatever
    arguments, its trade history holds closed trades only: each has its exit
    date and its exit price, and [get_closed_trades] returns the whole
    history. *)
Theorem history_holds_closed_trades
  (capital commission : Q) (ops : list op) :
  let p := exec_all (Portfolio_init capital commission) ops in
  Forall closed_trade (trades p) /\ get_closed_trades p = trades p.
Proof.
  assert (Hgen : forall p, Forall closed_trade (trades p) ->
                 Forall closed_trade (trades (exec_all p ops))).
  { induction ops as [|o ops IH]; intros p Hp; [exact Hp|].
    cbn. apply IH. now apply exec_keeps_history_closed. }
  intro p. assert (H : Forall closed_trade (trades p))
    by (apply Hgen; constructor).
  split; [exact H|]. now apply closed_history_is_kept_whole.
Qed.

Lemma exec_curve (p : Portfolio) (o : op) :
  equity_curve (exec p o) =
  equity_curve p ++
  match o with
  | RecordDay d pr =>
      [mkSnapshot d (get_total_value p pr) (cash p)
                  (get_position_value p pr) (shares_held p)]
  | _ => []
  end.
Proof.
  destruct o as [d pr s | d pr | d pr]; cbn [exec].
  - now rewrite buy_keeps_curve, app_nil_r.
  - now rewrite sell_keeps_curve, app_nil_r.
  - reflexivity.
Qed.

(** X3. The equity curve is written by [record_day] alone.  After any calls
    on a fresh portfolio the curve has one snapshot per [record_day] call,
    in the order and with the dates of those calls, and in every snapshot
    the portfolio value is the cash plus the position value. *)
Theorem curve_follows_record_day
  (capital commission : Q) (ops : list op) :
  let p := exec_all (Portfolio_init capital commission) ops in
  map snap_date (equity_curve p) = recorded_dates ops /\
  Forall balanced (equity_curve p).
Proof.
  assert (Hgen : forall p,
             map snap_date (equity_curve (exec_all p ops))
             = map snap_date (equity_curve p) ++ recorded_dates ops /\
             (Forall balanced (equity_curve p) ->
              Forall balanced (equity_curve (exec_all p ops)))).
  { induction ops as [|o ops IH]; intro p.
    - cbn. now rewrite app_nil_r.
    - change (exec_all p (o :: ops)) with (exec_all (exec p o) ops).
      destruct (IH (exec p o)) as [Hd Hb].
      rewrite (exec_curve p o) in Hd, Hb. split.
      + rewrite Hd, map_app, <- app_assoc. f_equal.
        destruct o; reflexivity.
      + intro H. apply Hb, Forall_app. split; [exact H|].
        destruct o; repeat constructor. }
  intro p. destruct (Hgen (Portfolio_init capital commission)) as [Hd Hb].
  split; [exact Hd | apply Hb; constructor].
Qed.



(** * Further properties of the metrics *)

Lemma select_trades_evaluates_all (cond : Q -> bool) (ts l : list Trade) :
  select_trades cond ts = Ok l ->
  Forall (fun t => exists r, return_pct t = Ok r) ts.
Proof.
  revert l. induction ts as [|t ts IH]; intros l H; [constructor|].
  cbn in H. destruct (return_pct t) as [r|x] eqn:Hr; [|discriminate].
  destruct (select_trades cond ts) as [l'|x]; [|discriminate].
  constructor; [now exists r | now apply (IH l')].
Qed.

(** What a call of [calculate_trade_statistics] that returns has computed,
    on a list that is not empty. *)
Lemma trade_statistics_returned (ts : list Trade) (st : TradeStats) :
  ts <> [] -> calculate_trade_statistics ts = Ok st ->
  exists winning losing total_wins total_losses,
    select_trades (fun r => Qgtb r 0) ts = Ok winning /\
    select_trades (fun r => Qle_bool r 0) ts = Ok losing /\
    (losing = [] -> total_losses = 0) /\
    total_trades st = length ts /\
    winning_trades st = length winning /\
    losing_trades st = length losing /\
    win_rate_pct st = Qlen winning / Qlen ts * 100 /\
    profit_factor st =
      (if Qgtb total_losses 0 then total_wins / total_losses else 0).
Proof.
  intros Hne H. unfold calculate_trade_statistics in H.
  destruct ts as [|t0 ts0]; [contradiction|]. cbn [is_nil] in H.
  set (ts := t0 :: ts0) in *.
  destruct (select_trades (fun r => Qgtb r 0) ts) as [winning|x]; [|discriminate].
  destruct (select_trades (fun r => Qle_bool r 0) ts) as [losing|x]; [|discriminate].
  destruct (mean_over return_pct winning) as [avg_win|x]; [|discriminate].
  destruct (mean_over return_pct losing) as [avg_loss|x]; [|discriminate].
  destruct (if is_nil winning then Ok 0
            else sum_over (fun t => Ok (return_dollars t)) 0 winning)
    as [total_wins|x]; [|discriminate].
  destruct (if is_nil losing then Ok 0
            else do s <- sum_over (fun t => Ok (return_dollars t)) 0 losing;
                 Ok (Qabs s)) as [total_losses|x] eqn:Hl; [|discriminate].
  destruct (sum_over _ 0 ts) as [days|x]; [|discriminate].
  inversion H; subst. cbn.
  exists winning, losing, total_wins, total_losses.
  repeat split. intros ->. cbn in Hl. now inversion Hl.
Qed.

Lemma comprehensions_partition (ts : list Trade) :
  Forall (fun t => exists r, return_pct t = Ok r) ts ->
  (length (filter (fun t => match return_pct t with
                            | Ok (Some v) => truthy v && Qgtb v 0
                            | _ => false
                            end) ts)
   + length (filter (fun t => match return_pct t with
                              | Ok (Some v) => truthy v && Qle_bool v 0
                              | _ => false
                              end) ts)
   + length (filter uncounted ts))%nat = length ts.
Proof.
  induction 1 as [|t ts [r Hr] _ IH]; [reflexivity|].
  cbn [filter]. unfold uncounted at 1. rewrite Hr.
  destruct r as [v|]; cbn [truthy_opt].
  - unfold Qgtb in *.
    destruct (truthy v), (Qle_bool v 0); cbn [negb andb length]; lia.
  - cbn [negb length]. lia.
Qed.

Lemma Qlen_nonneg {A} (l : list A) : 0 <= Qlen l.
Proof.
  unfold Qlen. change 0 with (inject_Z 0). rewrite <- Zle_Qle. lia.
Qed.

Lemma Qlen_le {A B} (l : list A) (l' : list B) :
  (length l <= length l')%nat -> Qlen l <= Qlen l'.
Proof. intro H. unfold Qlen. rewrite <- Zle_Qle. lia. Qed.

Lemma Qlen_pos {A} (l : list A) : l <> [] -> 0 < Qlen l.
Proof.
  intro H. unfold Qlen. change 0 with (inject_Z 0). rewrite <- Zlt_Qlt.
  destruct l; [contradiction | cbn; lia].
Qed.

(** X5. The counts of [calculate_trade_statistics], whenever it returns.
    The total is the length of the list; a trade is counted as winning, as
    losing, or not at all when its [return_pct] is 0 or undefined, and never
    twice; the win rate is the share of the winning trades, between 0 and
    100. *)
Theorem trade_statistics_counts (ts : list Trade) (st : TradeStats) :
  calculate_trade_statistics ts = Ok st ->
  total_trades st = length ts /\
  (winning_trades st + losing_trades st + length (filter uncounted ts))%nat
    = total_trades st /\
  0 <= win_rate_pct st /\ win_rate_pct st <= 100.
Proof.
  intro H. destruct ts as [|t0 ts0].
  - cbn in H. inversion H; subst. cbn. repeat split; lra.
  - set (ts := t0 :: ts0) in *.
    assert (Hne : ts <> []) by discriminate.
    destruct (trade_statistics_returned ts st Hne H)
      as (winning & losing & tw & tl & Hw & Hl & _ & Ht & Hnw & Hnl & Hrate & _).
    pose proof (select_trades_evaluates_all _ _ _ Hw) as Hall.
    pose proof (comprehensions_partition ts Hall) as Hpart.
    rewrite <- (select_trades_keeps _ _ _ Hw) in Hpart.
    rewrite <- (select_trades_keeps _ _ _ Hl) in Hpart.
    rewrite Ht, Hnw, Hnl, Hrate.
    split; [reflexivity|]. split; [exact Hpart|].
    pose proof (Qlen_pos ts Hne) as Hpos.
    pose proof (Qlen_nonneg winning) as H0.
    assert (Hle : Qlen winning <= Qlen ts) by (apply Qlen_le; lia).
    assert (Hq : 0 <= Qlen winning / Qlen ts /\ Qlen winning / Qlen ts <= 1).
    { split.
      - apply Qle_shift_div_l; [exact Hpos | lra].
      - apply Qle_shift_div_r; [exact Hpos | lra]. }
    split; lra.
Qed.

Lemma trade_statistics_counts_witness :
  let st := match calculate_trade_statistics sample_trades with
            | Ok st => st
            | Err _ => mkTradeStats 0 0 0 0 0 0 0 0
            end in
  total_trades st = length sample_trades /\
  (winning_trades st + losing_trades st
   + length (filter uncounted sample_trades))%nat = total_trades st /\
  0 <= win_rate_pct st /\ win_rate_pct st <= 100.
Proof.
  intro st. apply (trade_statistics_counts sample_trades st).
  vm_compute. reflexivity.
Defined.

(** X6. When no trade is counted as losing the profit factor is 0, however
    large the gains: the quotient is taken only over a positive loss. *)
Theorem profit_factor_without_losers (ts : list Trade) (st : TradeStats) :
  calculate_trade_statistics ts = Ok st ->
  losing_trades st = 0%nat -> profit_factor st = 0.
Proof.
  intros H Hnone. destruct ts as [|t0 ts0].
  - cbn in H. now inversion H.
  - assert (Hne : t0 :: ts0 <> []) by discriminate.
    destruct (trade_statistics_returned _ st Hne H)
      as (winning & losing & tw & tl & _ & _ & Hzero & _ & _ & Hnl & _ & Hpf).
    rewrite Hnl in Hnone. apply length_zero_iff_nil in Hnone.
    rewrite Hpf, (Hzero Hnone). reflexivity.
Qed.

Lemma profit_factor_without_losers_witness :
  let ts := [mkTrade 0 100 10 (Some 5%Z) (Some 110); breakeven_trade] in
  let st := match calculate_trade_statistics ts with
            | Ok st => st
            | Err _ => mkTradeStats 0 0 0 0 0 0 0 0
            end in
  winning_trades st = 1%nat /\ profit_factor st = 0.
Proof.
  intros ts st. split; [reflexivity|].
  apply (profit_factor_without_losers ts st); vm_compute; reflexivity.
Defined.

Lemma sum_over_adds_numbers (f : Trade -> result (option Q)) (l : list Trade) :
  forall acc s, sum_over f acc l = Ok s ->
  Forall (fun t => exists v, f t = Ok (Some v)) l.
Proof.
  induction l as [|t l IH]; intros acc s H; [constructor|].
  cbn in H. destruct (f t) as [[v|]|x] eqn:Hf; try discriminate.
  constructor; [now exists v | now apply (IH _ _ H)].
Qed.

Lemma sum_over_returns (f : Trade -> result (option Q)) (l : list Trade) :
  Forall (fun t => exists v, f t = Ok (Some v)) l ->
  forall acc, exists s, sum_over f acc l = Ok s.
Proof.
  induction 1 as [|t l [v Hv] _ IH]; intro acc; cbn.
  - now exists acc.
  - rewrite Hv. apply IH.
Qed.

Lemma select_trades_returns (cond : Q -> bool) (ts : list Trade) :
  Forall (fun t => exists r, return_pct t = Ok r) ts ->
  exists l, select_trades cond ts = Ok l.
Proof.
  induction 1 as [|t ts [r Hr] _ [l IH]]; cbn.
  - now exists [].
  - rewrite Hr, IH. eexists; reflexivity.
Qed.

Lemma return_pct_evaluates (t : Trade) :
  ~ entry_price t == 0 -> exists r, return_pct t = Ok r.
Proof.
  intro Hne. unfold return_pct.
  destruct (exit_price t) as [xp|]; [|now exists None].
  destruct (negb (is_open t) && truthy xp); [|now exists None].
  rewrite (pydiv_nonzero _ _ Hne). eexists; reflexivity.
Qed.

(** A trade with a percentage return has a dollar return too. *)
Lemma return_dollars_of_return_pct (t : Trade) (v : Q) :
  return_pct t = Ok (Some v) -> exists d, return_dollars t = Some d.
Proof.
  unfold return_pct, return_dollars.
  destruct (exit_price t) as [xp|]; [|discriminate].
  destruct (negb (is_open t) && truthy xp); [|discriminate].
  intros _. eexists; reflexivity.
Qed.

Lemma selected_trades_have_returns (cond : Q -> bool) (ts l : list Trade) :
  select_trades cond ts = Ok l ->
  Forall (fun t => exists v, return_pct t = Ok (Some v)) l /\
  Forall (fun t => exists d, Ok (A := option Q) (return_dollars t) = Ok (Some d)) l.
Proof.
  intro H. rewrite (select_trades_keeps _ _ _ H).
  assert (Hsel : forall t,
    In t (filter (fun t => match return_pct t with
                           | Ok (Some v) => truthy v && cond v
                           | _ => false
                           end) ts) ->
    exists v, return_pct t = Ok (Some v)).
  { intros t Hin. apply filter_In in Hin. destruct Hin as [_ Hc].
    destruct (return_pct t) as [[v|]|x]; try discriminate. now exists v. }
  split; apply Forall_forall; intros t Hin; destruct (Hsel t Hin) as [v Hv].
  - now exists v.
  - destruct (return_dollars_of_return_pct t v Hv) as [d Hd].
    exists d. now rewrite Hd.
Qed.

Lemma holding_days_of_closed (t : Trade) :
  is_open t = false -> exists d, holding_days t = Some d.
Proof.
  unfold is_open, holding_days.
  destruct (exit_date t); [eexists; reflexivity | discriminate].
Qed.

Lemma holding_days_of_open (t : Trade) :
  is_open t = true -> holding_days t = None.
Proof.
  unfold is_open, holding_days. destruct (exit_date t); [discriminate | reflexivity].
Qed.

Lemma trade_statistics_return_on_closed (ts : list Trade) :
  Forall (fun t => ~ entry_price t == 0) ts ->
  Forall (fun t => is_open t = false) ts ->
  exists st, calculate_trade_statistics ts = Ok st.
Proof.
  intros Hprices Hclosed.
  destruct ts as [|t0 ts0]; [eexists; reflexivity|].
  set (ts := t0 :: ts0) in *.
  assert (Heval : Forall (fun t => exists r, return_pct t = Ok r) ts).
  { eapply Forall_impl; [|exact Hprices]. apply return_pct_evaluates. }
  destruct (select_trades_returns (fun r => Qgtb r 0) ts Heval) as [winning Hw].
  destruct (select_trades_returns (fun r => Qle_bool r 0) ts Heval) as [losing Hl].
  destruct (selected_trades_have_returns _ _ _ Hw) as [Hwp Hwd].
  destruct (selected_trades_have_returns _ _ _ Hl) as [Hlp Hld].
  assert (Hmean : forall l,
    Forall (fun t => exists v, return_pct t = Ok (Some v)) l ->
    exists m, mean_over return_pct l = Ok m).
  { intros l Hall. unfold mean_over. destruct (is_nil l); [now exists 0|].
    destruct (sum_over_returns _ _ Hall 0) as [s Hs]. rewrite Hs.
    eexists; reflexivity. }
  destruct (Hmean _ Hwp) as [avg_win Haw].
  destruct (Hmean _ Hlp) as [avg_loss Hal].
  destruct (sum_over_returns _ _ Hwd 0) as [sw Hsw].
  destruct (sum_over_returns _ _ Hld 0) as [sl Hsl].
  assert (Hdays : exists days,
    sum_over (fun t => Ok (option_map inject_Z (holding_days t))) 0 ts = Ok days).
  { apply sum_over_returns. eapply Forall_impl; [|exact Hclosed]. cbv beta.
    intros t Ht. destruct (holding_days_of_closed t Ht) as [d Hd].
    rewrite Hd. eexists; reflexivity. }
  destruct Hdays as [days Hdays].
  unfold calculate_trade_statistics. cbn [is_nil ts]. fold ts.
  rewrite Hw, Hl, Haw, Hal, Hsw, Hsl, Hdays.
  destruct (is_nil winning), (is_nil losing); eexists; reflexivity.
Qed.

(** X7. On trades entered at prices that are not zero,
    [calculate_trade_statistics] returns exactly when no trade of the list
    is open: the open trade has no holding days, and the sum of the holding
    days raises. *)
Theorem trade_statistics_need_closed_trades (ts : list Trade) :
  Forall (fun t => ~ entry_price t == 0) ts ->
  ((exists st, calculate_trade_statistics ts = Ok st) <->
   Forall (fun t => is_open t = false) ts).
Proof.
  intro Hprices. split.
  - intros [st H]. destruct ts as [|t0 ts0]; [constructor|].
    set (ts := t0 :: ts0) in *.
    unfold calculate_trade_statistics in H. cbn [is_nil ts] in H. fold ts in H.
    destruct (select_trades (fun r => Qgtb r 0) ts) as [winning|x]; [|discriminate].
    destruct (select_trades (fun r => Qle_bool r 0) ts) as [losing|x]; [|discriminate].
    destruct (mean_over return_pct winning) as [avg_win|x]; [|discriminate].
    destruct (mean_over return_pct losing) as [avg_loss|x]; [|discriminate].
    destruct (if is_nil winning then Ok 0
              else sum_over (fun t => Ok (return_dollars t)) 0 winning)
      as [total_wins|x]; [|discriminate].
    destruct (if is_nil losing then Ok 0
              else do s <- sum_over (fun t => Ok (return_dollars t)) 0 losing;
                   Ok (Qabs s)) as [total_losses|x]; [|discriminate].
    destruct (sum_over _ 0 ts) as [days|x] eqn:Hdays; [|discriminate].
    apply sum_over_adds_numbers in Hdays.
    eapply Forall_impl; [|exact Hdays]. cbv beta.
    intros t [v Hv]. destruct (is_open t) eqn:Hopen; [|reflexivity].
    rewrite (holding_days_of_open t Hopen) in Hv. discriminate.
  - intro Hclosed. now apply trade_statistics_return_on_closed.
Qed.

Lemma trade_statistics_need_closed_trades_witness :
  (exists st, calculate_trade_statistics sample_trades = Ok st) <->
  Forall (fun t => is_open t = false) sample_trades.
Proof.
  apply (trade_statistics_need_closed_trades sample_trades).
  repeat constructor; intro H; discriminate H.
Defined.

(** X8. A curve of two points whose first value is not zero has one daily
    return and no sample deviation: both [calculate_sharpe_ratio] and
    [calculate_volatility] return NaN on it, whatever the two values are. *)
Theorem two_point_curve_has_no_deviation
  (sqrt : Q -> Q) (x y risk_free_rate : Q) :
  ~ x == 0 ->
  dropna (pct_change [x; y]) = [y / x - 1] /\
  calculate_sharpe_ratio sqrt [x; y] risk_free_rate = NaN /\
  calculate_volatility sqrt [x; y] = NaN.
Proof.
  intro Hx.
  assert (H : dropna (pct_change [x; y]) = [y / x - 1]).
  { cbn [pct_change pct_changes]. now rewrite (npdiv_nonzero y x Hx). }
  unfold calculate_sharpe_ratio, calculate_volatility. rewrite H.
  repeat split.
Qed.

Lemma two_point_curve_witness :
  dropna (pct_change [100; 90]) = [90 / 100 - 1] /\
  calculate_sharpe_ratio floor_sqrt [100; 90] (2 # 100) = NaN /\
  calculate_volatility floor_sqrt [100; 90] = NaN.
Proof.
  apply (two_point_curve_has_no_deviation floor_sqrt 100 90 (2 # 100)).
  intro H. discriminate H.
Defined.

(** X9. The two risk figures are computed from the same deviation: when
    the volatility is a number other than 0, the Sharpe ratio times the
    volatility is 100 times the annualised mean daily return in excess of
    the risk-free rate. *)
Theorem sharpe_ratio_times_volatility
  (sqrt : Q -> Q) (equity : list Q) (risk_free_rate s v : Q) :
  calculate_sharpe_ratio sqrt equity risk_free_rate = Fin s ->
  calculate_volatility sqrt equity = Fin v ->
  ~ v == 0 ->
  exists m,
    series_mean (dropna (pct_change equity)) = Fin m /\
    s * v == (m * 252 - risk_free_rate) * 100.
Proof.
  unfold calculate_sharpe_ratio, calculate_volatility.
  set (r := dropna (pct_change equity)).
  intros Hs Hv Hne.
  destruct r as [|r0 r1] eqn:Hr.
  - cbn in Hv. inversion Hv; subst. now destruct Hne.
  - cbn [is_nil orb] in Hs, Hv. rewrite <- Hr in *.
    destruct (series_std sqrt r) as [sd|] eqn:Hsd; [|discriminate].
    cbn in Hv. inversion Hv; subst v; clear Hv.
    assert (Hsd0 : ~ sd == 0) by (intro E; apply Hne; rewrite E; ring).
    assert (Hden : ~ sd * sqrt 252 == 0) by (intro E; apply Hne; rewrite E; ring).
    cbn [np_eqb] in Hs.
    apply Qeq_bool_false_iff in Hsd0. rewrite Hsd0 in Hs.
    assert (Hm : series_mean r = Fin (Qsum r / Qlen r)) by (now rewrite Hr).
    rewrite Hm in Hs. cbn in Hs. unfold npdiv in Hs.
    pose proof Hden as Hden'. apply Qeq_bool_false_iff in Hden'.
    rewrite Hden' in Hs. inversion Hs; subst s; clear Hs.
    exists (Qsum r / Qlen r). split; [exact Hm|].
    generalize (Qsum r / Qlen r). intro m.
    field. split; intro E; apply Hden; rewrite E; ring.
Qed.

Lemma sharpe_ratio_times_volatility_witness :
  exists m,
    series_mean (dropna (pct_change [1; 3; 1])) = Fin m /\
    (1008 # 90) * 1500 == (m * 252 - 0) * 100.
Proof.
  apply (sharpe_ratio_times_volatility floor_sqrt [1; 3; 1] 0).
  - vm_compute. reflexivity.
  - vm_compute. reflexivity.
  - intro H. discriminate H.
Defined.

Lemma drawdowns_from_above (s : list Q) (m : Q) :
  Forall (fun x => 0 < x) s ->
  Forall (fun d => -100 < d) (drawdowns_from m s).
Proof.
  revert m. induction s as [|x s IH]; intros m Hpos; [constructor|].
  inversion Hpos as [|? ? Hx Hs]; subst. cbn. constructor; [|now apply IH].
  pose proof (Qmax_pos_r m x Hx) as HM.
  assert (E : (x - Qmax m x) / Qmax m x * 100 == x / Qmax m x * 100 - 100)
    by (field; lra).
  pose proof (Qdiv_pos x (Qmax m x) Hx HM). lra.
Qed.

Lemma fold_Qmin_above (b : Q) (l : list Q) (x : Q) :
  b < x -> Forall (fun y => b < y) l -> b < fold_left Qmin l x.
Proof.
  revert x. induction l as [|a l IH]; intros x Hx Hl; cbn; [exact Hx|].
  inversion Hl; subst. apply IH; [|assumption].
  destruct (Q.min_spec x a) as [[_ ->] | [_ ->]]; assumption.
Qed.

Lemma max_drawdown_in_range (equity : list Q) :
  equity <> [] -> Forall (fun x => 0 < x) equity ->
  exists m, calculate_max_drawdown equity = Fin m /\ -100 < m /\ m <= 0.
Proof.
  intros Hne Hpos. destruct equity as [|x s]; [contradiction|].
  inversion Hpos as [|? ? Hx Hs]; subst.
  unfold calculate_max_drawdown.
  cbn [expanding_max zip_with].
  rewrite npdiv_nonzero by lra. cbn [np_mul np_lift2].
  rewrite (drawdown_series_from x s Hs).
  unfold series_min. cbn [dropna]. rewrite dropna_fin. cbn [isnan].
  eexists. split; [reflexivity|]. split.
  - apply fold_Qmin_above.
    + rewrite (drawdown_at_peak x Hx). lra.
    + now apply drawdowns_from_above.
  - eapply Qle_trans; [apply fold_Qmin_le_init|].
    rewrite (drawdown_at_peak x Hx). lra.
Qed.

(** X10. On a non-empty curve of positive values the maximum drawdown is a
    number above -100: a curve that stays positive never loses all of its
    peak. *)
Theorem max_drawdown_above_total_loss (equity : list Q) :
  equity <> [] -> Forall (fun x => 0 < x) equity ->
  exists m, calculate_max_drawdown equity = Fin m /\ -100 < m.
Proof.
  intros Hne Hpos.
  destruct (max_drawdown_in_range equity Hne Hpos) as (m & Hm & Hlow & _).
  now exists m.
Qed.

Lemma max_drawdown_above_total_loss_witness :
  exists m, calculate_max_drawdown [100; 120; 1; 130] = Fin m /\ -100 < m.
Proof.
  apply (max_drawdown_above_total_loss [100; 120; 1; 130]).
  - discriminate.
  - repeat constructor.
Defined.

(** X11. The total return and the final value determine each other: for a
    starting capital that is not zero, [calculate_total_return] returns a
    number [r] with [final = capital * (1 + r / 100)], where [final] is
    the last value of the curve. *)
Theorem total_return_gives_back_final_value (equity : list Q) (capital : Q) :
  equity <> [] -> ~ capital == 0 ->
  exists r,
    calculate_total_return equity capital = Ok (Fin r) /\
    last equity 0 == capital * (1 + r / 100).
Proof.
  intros Hne Hcap. unfold calculate_total_return.
  destruct (exists_last Hne) as (l & final & ->).
  rewrite rev_app_distr, last_last. cbn [rev app].
  rewrite (npdiv_nonzero _ _ Hcap). cbn [np_mul np_lift2].
  eexists. split; [reflexivity|]. field. exact Hcap.
Qed.

Lemma total_return_witness :
  exists r,
    calculate_total_return [10000; 10500; 11000] 10000 = Ok (Fin r) /\
    last [10000; 10500; 11000] 0 == 10000 * (1 + r / 100).
Proof.
  apply (total_return_gives_back_final_value [10000; 10500; 11000] 10000).
  - discriminate.
  - intro H. discriminate H.
Defined.

(** * Further properties of the engine *)

(** What every call on a portfolio keeps, is kept by the loop of [run] and
    by the forced close: they change the portfolio through [buy], [sell] and
    [record_day] alone. *)
Lemma day_order_keeps (I : Portfolio -> Prop) :
  (forall p o, I p -> I (exec p o)) ->
  forall p d s pr, I p -> I (snd (day_order p d s pr)).
Proof.
  intros HI p d s pr Hp. unfold day_order.
  destruct ((s =? "BUY")%string && negb (has_position p));
    [exact (HI p (Buy d pr None) Hp)|].
  destruct ((s =? "SELL")%string && has_position p);
    [exact (HI p (Sell d pr) Hp) | exact Hp].
Qed.

Lemma simulate_keeps (I : Portfolio -> Prop) :
  (forall p o, I p -> I (exec p o)) ->
  forall rows p, I p -> I (snd (simulate p rows)).
Proof.
  intros HI rows. induction rows as [|[d [s [pr|]]] rows IH]; intros p Hp;
    cbn [simulate]; try exact Hp.
  pose proof (day_order_keeps I HI p d s pr Hp) as Hday.
  unfold trade_day. destruct (day_order p d s pr) as [[b|x] q]; cbn in Hday.
  - apply IH. exact (HI q (RecordDay d pr) Hday).
  - exact Hday.
Qed.

Lemma close_position_keeps (I : Portfolio -> Prop) :
  (forall p o, I p -> I (exec p o)) ->
  forall rows p, I p -> I (snd (close_position p rows)).
Proof.
  intros HI rows p Hp. unfold close_position.
  destruct (has_position p); [|exact Hp].
  destruct (rev rows) as [|[d [s [pr|]]] rest]; try exact Hp.
  exact (HI p (Sell d pr) Hp).
Qed.

Lemma exec_keeps_curve_balanced (p : Portfolio) (o : op) :
  Forall balanced (equity_curve p) -> Forall balanced (equity_curve (exec p o)).
Proof.
  intro H. rewrite exec_curve. apply Forall_app. split; [exact H|].
  destruct o; repeat constructor.
Qed.

Lemma close_position_ends_flat (p p' : Portfolio) (rows : list Row) (u : unit) :
  close_position p rows = (Ok u, p') -> has_position p' = false.
Proof.
  unfold close_position. destruct (has_position p) eqn:Hpos.
  - destruct (rev rows) as [|[d [s [pr|]]] rest]; try discriminate.
    intro H. inversion H. unfold sell. rewrite Hpos. reflexivity.
  - intro H. inversion H; subst. exact Hpos.
Qed.

Lemma simulate_dates (rows : list Row) (p p' : Portfolio) (u : unit) :
  simulate p rows = (Ok u, p') ->
  map snap_date (equity_curve p') =
  map snap_date (equity_curve p) ++ map fst rows.
Proof.
  revert p. induction rows as [|[d [s [pr|]]] rows IH]; intros p H; cbn in H.
  - inversion H. cbn. now rewrite app_nil_r.
  - destruct (trade_day p d s pr) as [[v|x] p1] eqn:E; [|discriminate].
    rewrite (IH _ H), (trade_day_records _ _ _ _ _ _ E).
    cbn. rewrite map_app, day_order_keeps_curve, <- app_assoc. reflexivity.
  - discriminate.
Qed.

(** What [calculate_all] has computed when it returns. *)
Lemma calculate_all_returned
  (sqrt : Q -> Q) (pow : Q -> Q -> npfloat)
  (equity : list Q) (capital : Q) (ts : list Trade) (rf : Q) (m : Metrics) :
  calculate_all sqrt pow equity capital ts rf = Ok m ->
  m_num_days m = length equity /\
  calculate_trade_statistics ts = Ok (m_trade_stats m) /\
  calculate_total_return equity capital = Ok (m_total_return_pct m) /\
  m_sharpe_ratio m = calculate_sharpe_ratio sqrt equity rf /\
  m_max_drawdown_pct m = calculate_max_drawdown equity /\
  m_volatility m = calculate_volatility sqrt equity.
Proof.
  unfold calculate_all. destruct (rev equity) as [|final rest]; [discriminate|].
  destruct (calculate_total_return equity capital); [|discriminate].
  destruct (calculate_trade_statistics ts); [|discriminate].
  intro H. inversion H. cbn. repeat split.
Qed.

Lemma trade_statistics_total (ts : list Trade) (st : TradeStats) :
  calculate_trade_statistics ts = Ok st -> total_trades st = length ts.
Proof.
  intro H. destruct ts as [|t0 ts0].
  - cbn in H. now inversion H.
  - assert (Hne : t0 :: ts0 <> []) by discriminate.
    destruct (trade_statistics_returned _ st Hne H)
      as (? & ? & ? & ? & _ & _ & _ & Ht & _). exact Ht.
Qed.

(** X12. The account that a run leaves.  After any run that returns, with
    any strategy on any frame, the portfolio holds no position, every trade
    of its history is closed, and so the statistics count the whole history;
    the equity curve has one snapshot per row of the result frame, dated as
    the rows are and each with [portfolio_value = cash + position_value];
    the new column of the result frame is this curve, and the number of days
    of the metrics is the number of rows. *)
Theorem run_leaves_a_settled_account
  (sqrt : Q -> Q) (pow : Q -> Q -> npfloat)
  (e e' : BacktestEngine) (ticker : string) (df : DataFrame)
  (out out' : list string) :
  run sqrt pow e ticker df out = (Ok tt, e', out') ->
  exists p m frame rows,
    portfolio e' = Some p /\ metrics e' = Some m /\
    results_df e' = Some frame /\ iterrows frame = Ok rows /\
    has_position p = false /\
    Forall closed_trade (trades p) /\
    total_trades (m_trade_stats m) = length (trades p) /\
    map snap_date (equity_curve p) = map fst rows /\
    Forall balanced (equity_curve p) /\
    get_col frame "portfolio_value"
      = Some (Float64 (map Fin (map portfolio_value (equity_curve p)))) /\
    m_num_days m = length rows.
Proof.
  intro Hrun.
  destruct (run_returns _ _ _ _ _ _ _ _ _ Hrun)
    as (df' & rows & p1 & p2 & m & v & w & _ & Hrows & Hsim & Hclose & Hall
        & Hp & Hm & Hf).
  pose proof (close_position_keeps_curve _ _ _ _ Hclose) as Hcurve.
  pose proof (simulate_dates _ _ _ _ Hsim) as Hdates. cbn in Hdates.
  set (p0 := Portfolio_init (engine_capital e) (engine_commission e)) in *.
  assert (Hp1 : p1 = snd (simulate p0 rows)) by now rewrite Hsim.
  assert (Hp2 : p2 = snd (close_position p1 rows)) by now rewrite Hclose.
  assert (Hclosed : Forall closed_trade (trades p2)).
  { rewrite Hp2.
    apply (close_position_keeps (fun p => Forall closed_trade (trades p))
                                exec_keeps_history_closed).
    rewrite Hp1.
    apply (simulate_keeps (fun p => Forall closed_trade (trades p))
                          exec_keeps_history_closed).
    constructor. }
  assert (Hbal : Forall balanced (equity_curve p2)).
  { rewrite Hcurve, Hp1.
    apply (simulate_keeps (fun p => Forall balanced (equity_curve p))
                          exec_keeps_curve_balanced).
    constructor. }
  destruct (calculate_all_returned _ _ _ _ _ _ _ Hall) as (Hdays & Hstats & _).
  eexists p2, m, _, rows.
  split; [exact Hp|]. split; [exact Hm|]. split; [exact Hf|].
  split; [rewrite iterrows_set_other by reflexivity; exact Hrows|].
  split; [exact (close_position_ends_flat _ _ _ _ Hclose)|].
  split; [exact Hclosed|].
  split.
  { rewrite (trade_statistics_total _ _ Hstats). unfold get_closed_trades.
    now rewrite (closed_history_is_kept_whole _ Hclosed). }
  split; [now rewrite Hcurve|].
  split; [exact Hbal|].
  split; [apply lookup_assign_same|].
  rewrite Hdays, length_map, Hcurve, <- (length_map snap_date), Hdates.
  apply length_map.
Qed.

Lemma run_leaves_a_settled_account_witness :
  exists p m frame rows,
    portfolio (snd (fst sample_run)) = Some p /\
    metrics (snd (fst sample_run)) = Some m /\
    results_df (snd (fst sample_run)) = Some frame /\
    iterrows frame = Ok rows /\
    has_position p = false /\
    Forall closed_trade (trades p) /\
    total_trades (m_trade_stats m) = length (trades p) /\
    map snap_date (equity_curve p) = map fst rows /\
    Forall balanced (equity_curve p) /\
    get_col frame "portfolio_value"
      = Some (Float64 (map Fin (map portfolio_value (equity_curve p)))) /\
    m_num_days m = length rows.
Proof.
  apply (run_leaves_a_settled_account
           floor_sqrt int_pow sample_engine (snd (fst sample_run))
           "AAPL" sample_frame [] (snd sample_run)).
  vm_compute. reflexivity.
Defined.

Lemma signals_keep_index (s : Strategy) (df df' : DataFrame) :
  signals s df = Ok df' -> index df' = index df.
Proof.
  destruct s; cbn [signals];
    [unfold buy_and_hold_signals | unfold sma_crossover_signals
     | unfold breakout_signals | unfold volatility_signals
     | unfold bollinger_signals | unfold volume_momentum_signals];
    cbv zeta;
    repeat match goal with
           | |- context [match float_col ?d ?c with _ => _ end] =>
               destruct (float_col d c); [|discriminate]
           end.
  - cbn [index set_col]. destruct (index df) eqn:E; [discriminate|].
    intro H. injection H as <-. exact E.
  - intro H. injection H as <-. reflexivity.
  - intro H. injection H as <-. reflexivity.
  - intro H. injection H as <-. reflexivity.
  - intro H. injection H as <-. reflexivity.
  - intro H. injection H as <-. reflexivity.
Qed.

Lemma generate_signals_keeps_index
  (s : Strategy) (df df' : DataFrame) (out out' : list string) :
  generate_signals s df out = (Ok df', out') -> index df' = index df.
Proof.
  unfold generate_signals. destruct (validate_data s df out) as [valid o].
  destruct (negb valid); [discriminate|].
  intro H. inversion H. now apply (signals_keep_index s).
Qed.

Lemma in_sequence_app (from : Z) (ts : list Trade) (t : Trade) (xd : Z) :
  in_sequence from ts -> (last_exit from ts <= entry_date t)%Z ->
  exit_date t = Some xd -> (entry_date t <= xd)%Z ->
  in_sequence from (ts ++ [t]) /\ last_exit from (ts ++ [t]) = xd.
Proof.
  revert from. induction ts as [|a ts IH]; intros from Hseq Hlast Hx Hle.
  - cbn in *. rewrite Hx. repeat split; [exact Hlast|]. now exists xd.
  - cbn in Hseq, Hlast. destruct Hseq as (Hfrom & ad & Ha & Hale & Hrest).
    rewrite Ha in Hlast. destruct (IH ad Hrest Hlast Hx Hle) as [Hs Hl].
    cbn. rewrite Ha. split; [|exact Hl].
    split; [exact Hfrom|]. now exists ad.
Qed.

Lemma in_time_later (from now later : Z) (p : Portfolio) :
  in_time from now p -> (now <= later)%Z -> in_time from later p.
Proof.
  intros (Hs & Hl & Hc) Hle. split; [exact Hs|]. split; [lia|].
  destruct (current_trade p); [lia | exact I].
Qed.

Lemma buy_in_time (from d : Z) (p : Portfolio) (pr : Q) (sz : option Q) :
  in_time from d p -> in_time from d (snd (buy p d pr sz)).
Proof.
  intro H. unfold buy. destruct (has_position p); [exact H|].
  destruct (buy_size p pr sz); [|exact H].
  cbv zeta. destruct (Qgtb _ _); [exact H|].
  destruct H as (Hs & Hl & _). split; [exact Hs|]. split; [exact Hl|].
  cbn. lia.
Qed.

Lemma sell_in_time (from d : Z) (p : Portfolio) (pr : Q) :
  in_time from d p -> in_time from d (snd (sell p d pr)).
Proof.
  intro H. unfold sell. destruct (has_position p); [|exact H].
  destruct H as (Hs & Hl & Hc). cbn [negb snd].
  unfold in_time. cbn [trades current_trade].
  destruct (current_trade p) as [t|].
  - destruct (in_sequence_app from (trades p)
                (mkTrade (entry_date t) (entry_price t) (shares t)
                         (Some d) (Some pr)) d Hs)
      as [Hs' Hl']; cbn; try lia; try reflexivity.
    split; [exact Hs'|]. split; [rewrite Hl'; lia | exact I].
  - split; [exact Hs|]. split; [exact Hl | exact I].
Qed.

Lemma day_order_in_time (from d : Z) (p : Portfolio) (s : string) (pr : Q) :
  in_time from d p -> in_time from d (snd (day_order p d s pr)).
Proof.
  intro H. unfold day_order.
  destruct ((s =? "BUY")%string && negb (has_position p));
    [now apply buy_in_time|].
  destruct ((s =? "SELL")%string && has_position p);
    [now apply sell_in_time | exact H].
Qed.

Lemma last_cons_default {A} (x : A) (l : list A) (a b : A) :
  last (x :: l) a = last (x :: l) b.
Proof.
  revert x. induction l as [|y l IH]; intro x; [reflexivity|].
  change (last (x :: y :: l) a) with (last (y :: l) a).
  change (last (x :: y :: l) b) with (last (y :: l) b). apply IH.
Qed.

Lemma last_in_order (d now : Z) (l : list Z) :
  dates_in_order d l ->
  (d <= last (d :: l) now)%Z /\ last (d :: l) now = last l d.
Proof.
  revert d. induction l as [|x l IH]; intros d Hl; [cbn; lia|].
  destruct Hl as [Hx Hl]. destruct (IH x Hl) as [Hle _].
  change (last (d :: x :: l) now) with (last (x :: l) now).
  split; [lia | apply last_cons_default].
Qed.

Lemma simulate_in_time (from : Z) (rows : list Row) :
  forall (now : Z) (p : Portfolio),
    in_time from now p -> dates_in_order now (map fst rows) ->
    in_time from (last (map fst rows) now) (snd (simulate p rows)).
Proof.
  induction rows as [|[d [s c]] rows IH]; intros now p Hp Hds; [exact Hp|].
  cbn [map fst dates_in_order] in Hds. destruct Hds as [Hd Hrest].
  destruct (last_in_order d now (map fst rows) Hrest) as [Hle Heq].
  change (map fst ((d, (s, c)) :: rows)) with (d :: map fst rows).
  pose proof (in_time_later from now d p Hp Hd) as Hp'.
  destruct c as [pr|].
  - cbn [simulate]. unfold trade_day.
    pose proof (day_order_in_time from d p s pr Hp') as Hq.
    destruct (day_order p d s pr) as [[b|x] q]; cbn [snd] in Hq.
    + rewrite Heq. apply IH; [exact Hq | exact Hrest].
    + cbn [snd]. exact (in_time_later _ _ _ _ Hq Hle).
  - cbn [simulate snd]. exact (in_time_later _ _ _ _ Hp' Hle).
Qed.

Lemma dates_in_order_combine {A} (ds : list Z) (xs : list A) (from : Z) :
  dates_in_order from ds -> dates_in_order from (map fst (combine ds xs)).
Proof.
  revert xs from. induction ds as [|d ds IH]; intros xs from H; [exact I|].
  destruct xs as [|x xs]; [exact I|]. destruct H as [Hd Hds].
  cbn. split; [exact Hd | now apply IH].
Qed.

Lemma in_sequence_holding_days (from : Z) (ts : list Trade) :
  in_sequence from ts ->
  Forall (fun t => exists n, holding_days t = Some n /\ (0 <= n)%Z) ts.
Proof.
  revert from. induction ts as [|t ts IH]; intros from H; [constructor|].
  destruct H as (_ & xd & Hx & Hle & Hrest).
  constructor; [|exact (IH xd Hrest)].
  exists (xd - entry_date t)%Z. unfold holding_days. rewrite Hx.
  split; [reflexivity | lia].
Qed.

Lemma close_position_in_time
  (from now : Z) (p : Portfolio) (rows : list Row) :
  in_time from (last (map fst rows) now) p ->
  in_time from (last (map fst rows) now) (snd (close_position p rows)).
Proof.
  intro H. unfold close_position. destruct (has_position p); [|exact H].
  destruct (rev rows) as [|[d [s [pr|]]] rest] eqn:Hrev; try exact H.
  assert (Hrows : rows = rev rest ++ [(d, (s, Fin pr))]).
  { rewrite <- (rev_involutive rows), Hrev. reflexivity. }
  assert (Hd : last (map fst rows) now = d).
  { rewrite Hrows, map_app. apply last_last. }
  rewrite Hd in *. now apply sell_in_time.
Qed.

(** X13. The trades of a run follow each other in time.  When the dates of
    the frame never go back, then after any run that returns every trade of
    the history was left on or after the day it was entered, so its holding
    days are not negative, and it was entered on or after the day the trade
    before it was left. *)
Theorem trades_of_a_run_follow_each_other
  (sqrt : Q -> Q) (pow : Q -> Q -> npfloat)
  (e e' : BacktestEngine) (ticker : string) (df : DataFrame)
  (out out' : list string) (from : Z) :
  run sqrt pow e ticker df out = (Ok tt, e', out') ->
  dates_in_order from (index df) ->
  exists p,
    portfolio e' = Some p /\
    in_sequence from (trades p) /\
    Forall (fun t => exists n, holding_days t = Some n /\ (0 <= n)%Z)
           (trades p).
Proof.
  intros Hrun Hdates.
  destruct (run_returns _ _ _ _ _ _ _ _ _ Hrun)
    as (df' & rows & p1 & p2 & m & v & w & Hgen & Hrows & Hsim & Hclose & _
        & Hp & _).
  assert (Hord : dates_in_order from (map fst rows)).
  { unfold iterrows in Hrows.
    destruct (signal_cells df'); [|discriminate].
    destruct (float_col df' "close_price"); [|discriminate].
    inversion Hrows; subst.
    rewrite (generate_signals_keeps_index _ _ _ _ _ Hgen).
    now apply dates_in_order_combine. }
  set (p0 := Portfolio_init (engine_capital e) (engine_commission e)) in *.
  assert (H0 : in_time from from p0) by (repeat split; cbn; lia).
  pose proof (simulate_in_time from rows from p0 H0 Hord) as H1.
  rewrite Hsim in H1. cbn [snd] in H1.
  pose proof (close_position_in_time from from p1 rows H1) as H2.
  rewrite Hclose in H2. cbn [snd] in H2.
  exists p2. split; [exact Hp|]. destruct H2 as (Hs & _).
  split; [exact Hs | exact (in_sequence_holding_days from _ Hs)].
Qed.

Lemma trades_of_a_run_witness :
  exists p,
    portfolio (snd (fst sample_run)) = Some p /\
    in_sequence 0 (trades p) /\
    Forall (fun t => exists n, holding_days t = Some n /\ (0 <= n)%Z)
           (trades p).
Proof.
  apply (trades_of_a_run_follow_each_other
           floor_sqrt int_pow sample_engine (snd (fst sample_run))
           "AAPL" sample_frame [] (snd sample_run) 0%Z).
  - vm_compute. reflexivity.
  - cbn. lia.
Defined.

Lemma simulate_without_buy (rows : list Row) :
  forall p, shares_held p = 0 -> Forall no_buy_row rows ->
  exists q added,
    simulate p rows = (Ok tt, q) /\ same_account p q /\
    equity_curve q = equity_curve p ++ added /\
    map snap_date added = map fst rows /\
    Forall (fun s => portfolio_value s == cash p /\ snap_shares_held s = 0)
           added.
Proof.
  induction rows as [|[d [s c]] rows IH]; intros p Hflat Hrows.
  - exists p, []. rewrite app_nil_r. repeat split. constructor.
  - inversion Hrows as [|? ? [Hs [pr Hc]] Hrest]; subst. cbn in Hs, Hc. subst c.
    assert (Hpos : has_position p = false)
      by (unfold has_position; rewrite Hflat; reflexivity).
    assert (Hday : trade_day p d s pr = (Ok tt, record_day p d pr)).
    { unfold trade_day, day_order. rewrite Hpos, andb_false_r.
      apply String.eqb_neq in Hs. rewrite Hs. reflexivity. }
    destruct (IH (record_day p d pr) Hflat Hrest)
      as (q & added & Hsim & Hsame & Hcurve & Hd & Hv).
    exists q, (mkSnapshot d (get_total_value p pr) (cash p)
                          (get_position_value p pr) (shares_held p) :: added).
    split; [cbn [simulate]; rewrite Hday; exact Hsim|].
    split; [exact Hsame|].
    split; [rewrite Hcurve; cbn; now rewrite <- app_assoc|].
    split; [cbn; now rewrite Hd|].
    constructor; [|exact Hv]. cbn.
    unfold get_total_value, get_position_value. rewrite Hflat.
    split; [ring | reflexivity].
Qed.

(** X14. Without a buy signal nothing is traded.  On rows none of which
    carries the signal BUY, whatever else they carry, the loop of [run]
    leaves a fresh portfolio as it was, a sell signal on a flat account
    being ignored: it adds one snapshot per row, each worth the starting
    capital, and closes no trade. *)
Theorem signals_without_buy_leave_the_account
  (capital commission : Q) (rows : list Row) :
  Forall no_buy_row rows ->
  exists q,
    simulate (Portfolio_init capital commission) rows = (Ok tt, q) /\
    same_account (Portfolio_init capital commission) q /\
    close_position q rows = (Ok tt, q) /\
    map snap_date (equity_curve q) = map fst rows /\
    Forall (fun s => portfolio_value s == capital /\ snap_shares_held s = 0)
           (equity_curve q).
Proof.
  intro Hrows.
  destruct (simulate_without_buy rows (Portfolio_init capital commission)
              eq_refl Hrows) as (q & added & Hsim & Hsame & Hcurve & Hd & Hv).
  exists q. split; [exact Hsim|]. split; [exact Hsame|].
  cbn in Hcurve. subst added. repeat split; try assumption.
  unfold close_position, has_position.
  destruct Hsame as (_ & _ & _ & -> & _). reflexivity.
Qed.

Lemma signals_without_buy_witness :
  exists q,
    simulate (Portfolio_init 10000 (1 # 1000))
             [(0%Z, ("SELL"%string, Fin 100)); (1%Z, ("HOLD"%string, Fin 90));
              (2%Z, ("buy"%string, Fin 95))] = (Ok tt, q) /\
    same_account (Portfolio_init 10000 (1 # 1000)) q /\
    close_position q
             [(0%Z, ("SELL"%string, Fin 100)); (1%Z, ("HOLD"%string, Fin 90));
              (2%Z, ("buy"%string, Fin 95))] = (Ok tt, q) /\
    map snap_date (equity_curve q) = [0; 1; 2]%Z /\
    Forall (fun s => portfolio_value s == 10000 /\ snap_shares_held s = 0)
           (equity_curve q).
Proof.
  apply (signals_without_buy_leave_the_account 10000 (1 # 1000)
           [(0%Z, ("SELL"%string, Fin 100)); (1%Z, ("HOLD"%string, Fin 90));
            (2%Z, ("buy"%string, Fin 95))]).
  repeat constructor; try discriminate; eexists; reflexivity.
Defined.

(** X15. The getters follow the run.  [get_metrics] returns what the last
    run that returned has computed: a run that returns sets the metrics and
    the result frame, so both getters return; a run that raises, at whatever
    step, leaves the metrics as they were, and on an engine that has not yet
    completed a run [get_metrics] keeps raising its [ValueError]. *)
Theorem getters_follow_the_run
  (sqrt : Q -> Q) (pow : Q -> Q -> npfloat)
  (e : BacktestEngine) (ticker : string) (df : DataFrame) (out : list string) :
  let e' := snd (fst (run sqrt pow e ticker df out)) in
  match fst (fst (run sqrt pow e ticker df out)) with
  | Ok _ =>
      exists m frame, get_metrics e' = Ok m /\ get_results_df e' = Ok frame
  | Err _ =>
      get_metrics e' = get_metrics e /\
      (metrics e = None ->
       get_metrics e' = Err (ValueError "Must run backtest first"))
  end.
Proof.
  assert (Hnone : forall e1, metrics e1 = metrics e ->
            get_metrics e1 = get_metrics e /\
            (metrics e = None ->
             get_metrics e1 = Err (ValueError "Must run backtest first"))).
  { intros e1 H1. unfold get_metrics. rewrite H1. split; [reflexivity|].
    now intros ->. }
  unfold run. destruct (empty df); [now apply Hnone|].
  destruct (generate_signals (strategy e) df out) as [[df'|x] o];
    [|now apply Hnone].
  destruct (iterrows df') as [rows|x]; [|now apply Hnone].
  destruct (simulate _ rows) as [[v|x] p1]; [|now apply Hnone].
  destruct (close_position p1 rows) as [[w|x] p2]; [|now apply Hnone].
  cbn [engine_capital with_results with_portfolio].
  destruct (calculate_all _ _ _ _ _ _) as [m|x]; [|now apply Hnone].
  cbn. now eexists _, _.
Qed.

Lemma getters_follow_the_run_witness :
  get_metrics (snd (fst (run floor_sqrt int_pow sample_engine "AAPL"
                             frame_without_close [])))
  = Err (ValueError "Must run backtest first").
Proof.
  pose proof (getters_follow_the_run floor_sqrt int_pow sample_engine "AAPL"
                frame_without_close []) as H.
  cbv zeta in H.
  change (fst (fst (run floor_sqrt int_pow sample_engine "AAPL"
                        frame_without_close [])))
    with (Err (A := unit)
              (ValueError "DataFrame missing required columns for Buy and Hold"))
    in H.
  destruct H as [_ H]. apply H. reflexivity.
Defined.

(** * Further properties of the strategies *)

Lemma zip_with_length {A B C} (f : A -> B -> C) (a : list A) (b : list B) :
  length (zip_with f a b) = Nat.min (length a) (length b).
Proof.
  revert b. induction a as [|x a IH]; intros [|y b]; cbn; try reflexivity.
  now rewrite IH.
Qed.

Lemma removelast_length {A} (l : list A) :
  length (removelast l) = Nat.pred (length l).
Proof.
  induction l as [|x [|y l] IH]; try reflexivity.
  change (removelast (x :: y :: l)) with (x :: removelast (y :: l)).
  cbn [length]. rewrite IH. reflexivity.
Qed.

Lemma shift1_length (v : list npfloat) : length (shift1 v) = length v.
Proof.
  destruct v as [|x v]; [reflexivity|]. unfold shift1.
  cbn [length]. now rewrite removelast_length.
Qed.

Lemma shift1_bool_length (v : list bool) : length (shift1_bool v) = length v.
Proof.
  destruct v as [|x v]; [reflexivity|]. unfold shift1_bool.
  cbn [length]. now rewrite removelast_length.
Qed.

Lemma diff_length (v : list npfloat) : length (diff v) = length v.
Proof.
  destruct v as [|x v]; [reflexivity|]. cbn. f_equal.
  revert x. induction v as [|y v IH]; intro x; cbn; [reflexivity|].
  now rewrite IH.
Qed.

Lemma assign_at_length (i : nat) (value : string) (signal : list string) :
  length (assign_at i value signal) = length signal.
Proof.
  revert i. induction signal as [|x s IH]; intros [|i]; cbn; try reflexivity.
  now rewrite IH.
Qed.

Lemma initial_position_length
  (df : DataFrame) (cols : list (list npfloat)) (test : nat -> bool)
  (value : string) (signal : list string) :
  length (initial_position df cols test value signal) = length signal.
Proof.
  unfold initial_position. destruct (first_valid_index _ _); [|reflexivity].
  destruct (test n); [apply assign_at_length | reflexivity].
Qed.

Lemma hold_length (df : DataFrame) : length (hold df) = length (index df).
Proof. apply repeat_length. Qed.

Lemma hold_valid (df : DataFrame) :
  Forall (fun s => valid_signal s = true) (hold df).
Proof.
  unfold hold. apply Forall_forall. intros s Hs.
  apply repeat_spec in Hs. now subst.
Qed.

Lemma assign_where_valid (mask : list bool) (value : string) (signal : list string) :
  valid_signal value = true ->
  Forall (fun s => valid_signal s = true) signal ->
  Forall (fun s => valid_signal s = true) (assign_where mask value signal).
Proof.
  intros Hv Hs. revert mask.
  induction Hs as [|x s Hx _ IH]; intros [|m mask]; cbn; try constructor.
  - now destruct m.
  - apply IH.
Qed.

Lemma assign_at_valid (i : nat) (value : string) (signal : list string) :
  valid_signal value = true ->
  Forall (fun s => valid_signal s = true) signal ->
  Forall (fun s => valid_signal s = true) (assign_at i value signal).
Proof.
  intros Hv Hs. revert i.
  induction Hs as [|x s Hx Hs IH]; intros [|i]; cbn; constructor;
    try assumption. apply IH.
Qed.

Lemma initial_position_valid
  (df : DataFrame) (cols : list (list npfloat)) (test : nat -> bool)
  (value : string) (signal : list string) :
  valid_signal value = true ->
  Forall (fun s => valid_signal s = true) signal ->
  Forall (fun s => valid_signal s = true)
         (initial_position df cols test value signal).
Proof.
  intros Hv Hs. unfold initial_position.
  destruct (first_valid_index _ _); [|exact Hs].
  destruct (test n); [now apply assign_at_valid | exact Hs].
Qed.

Lemma lookup_in (k : string) (c : column) (cs : list (string * column)) :
  lookup k cs = Some c -> exists k', In (k', c) cs.
Proof.
  induction cs as [|[k0 c0] cs IH]; cbn; [discriminate|].
  destruct (String.eqb k k0).
  - intro H. inversion H; subst. exists k0. now left.
  - intro H. destruct (IH H) as [k' Hin]. exists k'. now right.
Qed.

Lemma float_col_length (df : DataFrame) (col : string) (v : list npfloat) :
  aligned df -> float_col df col = Ok v -> length v = length (index df).
Proof.
  intros Hal. unfold float_col, get_col.
  destruct (lookup col (columns df)) as [c|] eqn:Hc; [|discriminate].
  destruct (lookup_in _ _ _ Hc) as [k' Hin].
  unfold aligned in Hal. rewrite Forall_forall in Hal.
  specialize (Hal _ Hin). cbn in Hal.
  destruct c; intro H; inversion H; subst; cbn in Hal;
    [exact Hal | now rewrite length_map].
Qed.

Lemma aligned_set_col (df : DataFrame) (k : string) (c : column) :
  aligned df -> column_length c = length (index df) ->
  aligned (set_col df k c).
Proof.
  unfold aligned, set_col. cbn [index columns]. intros Hal Hc.
  induction Hal as [|[k0 c0] cs H0 Hcs IH]; cbn.
  - repeat constructor. exact Hc.
  - destruct (String.eqb k k0); constructor; assumption.
Qed.

Lemma Ok_inj {A} (a b : A) : Ok a = Ok b -> a = b.
Proof. intro H. now inversion H. Qed.

(** The lengths of the Series that the strategies compute. *)
Ltac series_length :=
  cbn [column_length index set_col];
  unfold assign_where, band;
  repeat rewrite ?initial_position_length, ?assign_at_length, ?zip_with_length,
                 ?length_map, ?shift1_length, ?shift1_bool_length, ?diff_length,
                 ?hold_length;
  cbn [index set_col]; lia.

Ltac frame_aligned :=
  repeat (apply aligned_set_col; [|series_length]); assumption.

Ltac read_column H :=
  match type of H with
  | context [match float_col ?d ?c with _ => _ end] =>
      let v := fresh "v" in
      let E := fresh "E" in
      let L := fresh "L" in
      destruct (float_col d c) as [v|] eqn:E; [|discriminate H];
      assert (L : length v = length (index d))
        by (apply (float_col_length d c v); [frame_aligned | exact E]);
      cbn [index set_col] in L
  end.

Ltac signals_valid :=
  repeat first [ apply initial_position_valid; [reflexivity|]
               | apply assign_at_valid; [reflexivity|]
               | apply assign_where_valid; [reflexivity|]
               | apply hold_valid ].

Ltac close_kept :=
  unfold get_col, set_col; cbn [columns];
  repeat (rewrite lookup_assign_other by reflexivity); reflexivity.

(** What the body of [generate_signals] returns, for every strategy. *)
Lemma signals_returned (s : Strategy) (df df' : DataFrame) :
  aligned df -> signals s df = Ok df' ->
  aligned df' /\
  get_col df' "close_price" = get_col df "close_price" /\
  exists sig,
    get_col df' "signal" = Some (Object sig) /\
    length sig = length (index df) /\
    Forall (fun c => valid_signal c = true) sig.
Proof.
  intros Hal H.
  destruct s; cbn [signals] in H;
    [unfold buy_and_hold_signals in H | unfold sma_crossover_signals in H
     | unfold breakout_signals in H | unfold volatility_signals in H
     | unfold bollinger_signals in H | unfold volume_momentum_signals in H];
    cbv zeta in H; repeat read_column H.
  - cbn [index set_col] in H. destruct (index df) eqn:Hi; [discriminate|].
    apply Ok_inj in H. subst df'. rewrite <- Hi.
    split; [frame_aligned|].
    split; [close_kept|].
    eexists. split; [apply lookup_assign_same|].
    split; [series_length | signals_valid].
  - apply Ok_inj in H. subst df'.
    split; [frame_aligned|]. split; [close_kept|].
    eexists. split; [apply lookup_assign_same|].
    split; [series_length | signals_valid].
  - apply Ok_inj in H. subst df'.
    split; [frame_aligned|]. split; [close_kept|].
    eexists. split; [apply lookup_assign_same|].
    split; [series_length | signals_valid].
  - apply Ok_inj in H. subst df'.
    split; [frame_aligned|]. split; [close_kept|].
    eexists. split; [apply lookup_assign_same|].
    split; [series_length | signals_valid].
  - apply Ok_inj in H. subst df'.
    split; [frame_aligned|]. split; [close_kept|].
    eexists. split; [apply lookup_assign_same|].
    split; [series_length | signals_valid].
  - apply Ok_inj in H. subst df'.
    split; [frame_aligned|]. split; [close_kept|].
    eexists. split; [apply lookup_assign_same|].
    split; [series_length | signals_valid].
Qed.

Lemma valid_signal_cases (c : string) :
  valid_signal c = true ->
  c = "BUY"%string \/ c = "SELL"%string \/ c = "HOLD"%string.
Proof.
  unfold valid_signal. intro H.
  apply orb_true_iff in H as [H|H]; [apply orb_true_iff in H as [H|H]|];
    apply String.eqb_eq in H; auto.
Qed.

Lemma valid_signals_counted (cells : list string) :
  Forall (fun c => valid_signal c = true) cells ->
  (count_signal "BUY" cells + count_signal "SELL" cells
   + count_signal "HOLD" cells)%nat = length cells.
Proof.
  unfold count_signal. induction 1 as [|c cells Hc _ IH]; [reflexivity|].
  destruct (valid_signal_cases c Hc) as [-> | [-> | ->]];
    cbn [filter String.eqb Ascii.eqb Bool.eqb length] in *; lia.
Qed.

(** X16. The signals that the strategies generate.  Take a frame with one
    entry per date in every column.  Whenever [generate_signals] returns,
    for any of the six strategies with any parameters, the frame returned
    has the same dates and the same closing prices, one entry per date in
    every column, and a signal column of strings with one signal per date,
    each of them BUY, SELL or HOLD; on a frame with at least one date,
    [SignalValidator.validate_signals] accepts it. *)
Theorem generate_signals_gives_valid_signals
  (s : Strategy) (df df' : DataFrame) (out out' : list string) :
  aligned df -> generate_signals s df out = (Ok df', out') ->
  index df' = index df /\ aligned df' /\
  get_col df' "close_price" = get_col df "close_price" /\
  (exists sig,
     get_col df' "signal" = Some (Object sig) /\
     length sig = length (index df) /\
     Forall (fun c => valid_signal c = true) sig) /\
  (index df <> [] -> validate_signals df' = true).
Proof.
  intros Hal Hgen.
  pose proof (generate_signals_keeps_index _ _ _ _ _ Hgen) as Hindex.
  unfold generate_signals in Hgen.
  destruct (validate_data s df out) as [valid o].
  destruct (negb valid); [discriminate|].
  assert (Hsig : signals s df = Ok df') by (now inversion Hgen).
  destruct (signals_returned s df df' Hal Hsig)
    as (Hal' & Hclose & sig & Hcol & Hlen & Hvalid).
  split; [exact Hindex|]. split; [exact Hal'|]. split; [exact Hclose|].
  split; [now exists sig|].
  intro Hne. unfold validate_signals. rewrite Hcol.
  apply andb_true_iff. split.
  - apply forallb_forall. rewrite Forall_forall in Hvalid. exact Hvalid.
  - destruct sig; [|reflexivity]. destruct (index df); [contradiction|].
    discriminate.
Qed.

Lemma generate_signals_witness :
  let df' := match fst (generate_signals (SMACrossover 5 20) sample_crossover [])
             with Ok d => d | Err _ => sample_crossover end in
  get_col df' "signal"
    = Some (Object ["HOLD"; "HOLD"; "BUY"; "SELL"]%string) /\
  validate_signals df' = true.
Proof.
  intro df'. split; [vm_compute; reflexivity|].
  destruct (generate_signals_gives_valid_signals
              (SMACrossover 5 20) sample_crossover df' [] [])
    as (_ & _ & _ & _ & H).
  - repeat constructor.
  - vm_compute. reflexivity.
  - apply H. discriminate.
Defined.

(** X17. The signals that [validate_signals] accepts are all counted.  On a
    frame with one entry per date in every column that the validator
    accepts, [get_signal_summary] returns, the counts of BUY, SELL and HOLD
    add up to the total, and the total is not 0. *)
Theorem valid_signals_are_all_counted (df : DataFrame) :
  aligned df -> validate_signals df = true ->
  exists sm,
    get_signal_summary df = Ok sm /\
    (n_buy sm + n_sell sm + n_hold sm)%nat = n_total sm /\
    n_total sm = length (index df) /\ (0 < n_total sm)%nat.
Proof.
  intros Hal Hvalid. unfold validate_signals in Hvalid.
  unfold get_signal_summary, signal_cells.
  destruct (get_col df "signal") as [[v|v|v]|] eqn:Hcol; try discriminate.
  apply andb_true_iff in Hvalid as [Hall Hne].
  assert (Hlen : length v = length (index df)).
  { unfold get_col in Hcol. destruct (lookup_in _ _ _ Hcol) as [k Hin].
    unfold aligned in Hal. rewrite Forall_forall in Hal.
    exact (Hal _ Hin). }
  eexists. split; [reflexivity|]. cbn.
  rewrite valid_signals_counted
    by (apply Forall_forall; apply forallb_forall; exact Hall).
  split; [exact Hlen|]. split; [reflexivity|].
  rewrite <- Hlen. destruct v; [discriminate | cbn; lia].
Qed.

Lemma valid_signals_witness :
  exists sm,
    get_signal_summary
      (set_col sample_frame "signal" (Object ["BUY"; "HOLD"; "SELL"]%string))
      = Ok sm /\
    (n_buy sm + n_sell sm + n_hold sm)%nat = n_total sm /\
    n_total sm = 3%nat /\ (0 < n_total sm)%nat.
Proof.
  apply (valid_signals_are_all_counted
           (set_col sample_frame "signal"
                    (Object ["BUY"; "HOLD"; "SELL"]%string))).
  - repeat constructor.
  - reflexivity.
Defined.

(** * The summary of a portfolio and the metrics *)

Lemma pydiv_returned (x y r : Q) : pydiv x y = Ok r -> ~ y == 0 /\ r = x / y.
Proof.
  unfold pydiv. destruct (Qeq_bool y 0) eqn:E; [discriminate|].
  intro H. inversion H. split; [now apply Qeq_bool_false_iff | reflexivity].
Qed.

Lemma closed_trades_are_closed (p : Portfolio) :
  Forall (fun t => is_open t = false) (get_closed_trades p).
Proof.
  unfold get_closed_trades. apply Forall_forall. intros t Ht.
  apply filter_In in Ht as [_ Ht]. now destruct (is_open t).
Qed.

(** X18. The summary of the portfolio and the metrics of the engine agree.
    Whenever [get_summary] returns, [calculate_trade_statistics] returns on
    the closed trades of the same portfolio, with the same numbers of
    trades, of winning and of losing trades, the same win rate and the same
    average gain and loss; and on a curve that is not empty
    [calculate_total_return] returns the total return of the summary. *)
Theorem summary_agrees_with_metrics (p : Portfolio) (s : Summary) :
  get_summary p = Ok s ->
  (exists st,
     calculate_trade_statistics (get_closed_trades p) = Ok st /\
     s_total_trades s = total_trades st /\
     s_winning_trades s = winning_trades st /\
     s_losing_trades s = losing_trades st /\
     s_win_rate s = win_rate_pct st /\
     s_avg_win_pct s = avg_win_pct st /\
     s_avg_loss_pct s = avg_loss_pct st) /\
  (equity_curve p <> [] ->
   calculate_total_return (map portfolio_value (equity_curve p))
                          (starting_capital p)
   = Ok (Fin (s_total_return_pct s))).
Proof.
  unfold get_summary, get_winning_trades, get_losing_trades.
  pose proof (closed_trades_are_closed p) as Hclosed.
  set (ts := get_closed_trades p) in *.
  destruct (select_trades (fun r => Qgtb r 0) ts) as [winning|x] eqn:Hw;
    [|discriminate].
  destruct (select_trades (fun r => Qle_bool r 0) ts) as [losing|x] eqn:Hl;
    [|discriminate].
  destruct (pydiv _ (starting_capital p)) as [ratio|x] eqn:Hratio;
    [|discriminate].
  destruct (mean_over return_pct winning) as [avg_win|x] eqn:Haw;
    [|discriminate].
  destruct (mean_over return_pct losing) as [avg_loss|x] eqn:Hal;
    [|discriminate].
  intro H. apply Ok_inj in H. subst s. cbn.
  split.
  - destruct ts as [|t0 ts0] eqn:Hts.
    + cbn in Hw, Hl. apply Ok_inj in Hw, Hl. subst.
      cbn in Haw, Hal. apply Ok_inj in Haw, Hal. subst.
      eexists. split; [reflexivity|]. cbn. repeat split.
    + rewrite <- Hts in *.
      destruct (selected_trades_have_returns _ _ _ Hw) as [_ Hwd].
      destruct (selected_trades_have_returns _ _ _ Hl) as [_ Hld].
      destruct (sum_over_returns _ _ Hwd 0) as [sw Hsw].
      destruct (sum_over_returns _ _ Hld 0) as [sl Hsl].
      assert (Hdays : exists days,
        sum_over (fun t => Ok (option_map inject_Z (holding_days t))) 0 ts
        = Ok days).
      { apply sum_over_returns. eapply Forall_impl; [|exact Hclosed]. cbv beta.
        intros t Ht. destruct (holding_days_of_closed t Ht) as [d Hd].
        rewrite Hd. eexists; reflexivity. }
      destruct Hdays as [days Hdays].
      unfold calculate_trade_statistics.
      replace (is_nil ts) with false by (now rewrite Hts).
      rewrite Hw, Hl, Haw, Hal, Hsw, Hsl, Hdays.
      destruct (is_nil winning), (is_nil losing);
        (eexists; split; [reflexivity|]; cbn; repeat split).
  - intro Hne. destruct (pydiv_returned _ _ _ Hratio) as [Hcap ->].
    unfold calculate_total_return. rewrite <- map_rev.
    destruct (rev (equity_curve p)) as [|s0 rest] eqn:Hrev.
    + apply (f_equal (@rev EquitySnapshot)) in Hrev.
      rewrite rev_involutive in Hrev. contradiction.
    + cbn [map]. now rewrite (npdiv_nonzero _ _ Hcap).
Qed.

Lemma summary_agrees_with_metrics_witness :
  let p := exec_all (Portfolio_init 10000 (1 # 1000)) sample_ops in
  let s := match get_summary p with
           | Ok s => s
           | Err _ => mkSummary 0 0 0 0 0 0 0 0 0
           end in
  s_total_trades s = 1%nat /\
  calculate_total_return (map portfolio_value (equity_curve p))
                         (starting_capital p)
  = Ok (Fin (s_total_return_pct s)).
Proof.
  intros p s. split; [vm_compute; reflexivity|].
  destruct (summary_agrees_with_metrics p s) as [_ H].
  - vm_compute. reflexivity.
  - apply H. intro E. vm_compute in E. discriminate E.
Defined.

(** * The signs of the trade statistics *)

Lemma sum_over_sign (f : Trade -> result (option Q)) (l : list Trade) :
  (forall t v, In t l -> f t = Ok (Some v) -> 0 <= v) ->
  forall acc s, 0 <= acc -> sum_over f acc l = Ok s -> 0 <= s.
Proof.
  induction l as [|t l IH]; intros Hf acc s Hacc H; cbn in H.
  - inversion H; subst. exact Hacc.
  - destruct (f t) as [[v|]|x] eqn:Hv; try discriminate.
    apply (IH (fun t' v' Hin => Hf t' v' (or_intror Hin)) (acc + v) s);
      [|exact H].
    pose proof (Hf t v (or_introl eq_refl) Hv). lra.
Qed.

Lemma sum_over_opposite (f : Trade -> result (option Q)) (l : list Trade) :
  (forall t v, In t l -> f t = Ok (Some v) -> v <= 0) ->
  forall acc s, acc <= 0 -> sum_over f acc l = Ok s -> s <= 0.
Proof.
  induction l as [|t l IH]; intros Hf acc s Hacc H; cbn in H.
  - inversion H; subst. exact Hacc.
  - destruct (f t) as [[v|]|x] eqn:Hv; try discriminate.
    apply (IH (fun t' v' Hin => Hf t' v' (or_intror Hin)) (acc + v) s);
      [|exact H].
    pose proof (Hf t v (or_introl eq_refl) Hv). lra.
Qed.

Lemma selected_trades_satisfy (cond : Q -> bool) (ts l : list Trade) (t : Trade) (v : Q) :
  select_trades cond ts = Ok l -> In t l -> return_pct t = Ok (Some v) ->
  In t ts /\ cond v = true.
Proof.
  intros H Hin Hv. rewrite (select_trades_keeps _ _ _ H) in Hin.
  apply filter_In in Hin as [Hts Hc]. rewrite Hv in Hc.
  apply andb_true_iff in Hc as [_ Hc]. now split.
Qed.

Lemma mean_over_sign (l : list Trade) (m : Q) :
  (forall t v, In t l -> return_pct t = Ok (Some v) -> 0 <= v) ->
  mean_over return_pct l = Ok m -> 0 <= m.
Proof.
  intros Hf. unfold mean_over. destruct l as [|t0 l0] eqn:Hl.
  - cbn. intro H. inversion H. lra.
  - rewrite <- Hl in *. replace (is_nil l) with false by now rewrite Hl.
    destruct (sum_over return_pct 0 l) as [s|x] eqn:Hs; [|discriminate].
    intro H. inversion H.
    assert (0 <= s) by (apply (sum_over_sign _ _ Hf 0 s); [lra | exact Hs]).
    assert (0 < Qlen l) by (apply Qlen_pos; now rewrite Hl).
    apply Qle_shift_div_l; [assumption | lra].
Qed.

Lemma mean_over_opposite (l : list Trade) (m : Q) :
  (forall t v, In t l -> return_pct t = Ok (Some v) -> v <= 0) ->
  mean_over return_pct l = Ok m -> m <= 0.
Proof.
  intros Hf. unfold mean_over. destruct l as [|t0 l0] eqn:Hl.
  - cbn. intro H. inversion H. lra.
  - rewrite <- Hl in *. replace (is_nil l) with false by now rewrite Hl.
    destruct (sum_over return_pct 0 l) as [s|x] eqn:Hs; [|discriminate].
    intro H. inversion H.
    assert (s <= 0) by (apply (sum_over_opposite _ _ Hf 0 s); [lra | exact Hs]).
    assert (0 < Qlen l) by (apply Qlen_pos; now rewrite Hl).
    apply Qle_shift_div_r; [assumption | lra].
Qed.

(** A trade entered at a positive price with a gain in percent has a gain in
    dollars on any holding that is not negative. *)
Lemma return_dollars_of_gain (t : Trade) (v d : Q) :
  0 < entry_price t -> 0 <= shares t ->
  return_pct t = Ok (Some v) -> 0 < v -> return_dollars t = Some d -> 0 <= d.
Proof.
  intros Hep Hsh. unfold return_pct, return_dollars.
  destruct (exit_price t) as [xp|]; [|discriminate].
  destruct (negb (is_open t) && truthy xp); [|discriminate].
  rewrite pydiv_nonzero by lra. intros Hv Hpos Hd.
  inversion Hv; subst v. inversion Hd; subst d. clear Hv Hd.
  assert (Hq : 0 < (xp - entry_price t) / entry_price t) by lra.
  assert (Hx : 0 < xp - entry_price t).
  { assert (E : xp - entry_price t
                == (xp - entry_price t) / entry_price t * entry_price t)
      by (field; lra).
    rewrite E. apply Qmult_lt_0_compat; assumption. }
  apply Qmult_le_0_compat; lra.
Qed.

(** X19. The signs of the trade statistics.  Whenever
    [calculate_trade_statistics] returns, the average gain is not negative
    and the average loss is not positive; and when every trade was entered
    at a positive price for a number of shares that is not negative, the
    profit factor is not negative. *)
Theorem trade_statistics_signs (ts : list Trade) (st : TradeStats) :
  calculate_trade_statistics ts = Ok st ->
  0 <= avg_win_pct st /\ avg_loss_pct st <= 0 /\
  (Forall (fun t => 0 < entry_price t /\ 0 <= shares t) ts ->
   0 <= profit_factor st).
Proof.
  intro H. unfold calculate_trade_statistics in H.
  destruct ts as [|t0 ts0] eqn:Hts.
  { cbn in H. inversion H; subst. cbn. repeat split; try lra. }
  rewrite <- Hts in *. replace (is_nil ts) with false in H by now rewrite Hts.
  destruct (select_trades (fun r => Qgtb r 0) ts) as [winning|x] eqn:Hw;
    [|discriminate].
  destruct (select_trades (fun r => Qle_bool r 0) ts) as [losing|x] eqn:Hl;
    [|discriminate].
  destruct (mean_over return_pct winning) as [avg_win|x] eqn:Haw;
    [|discriminate].
  destruct (mean_over return_pct losing) as [avg_loss|x] eqn:Hal;
    [|discriminate].
  destruct (if is_nil winning then Ok 0
            else sum_over (fun t => Ok (return_dollars t)) 0 winning)
    as [total_wins|x] eqn:Htw; [|discriminate].
  destruct (if is_nil losing then Ok 0
            else do s <- sum_over (fun t => Ok (return_dollars t)) 0 losing;
                 Ok (Qabs s)) as [total_losses|x] eqn:Htl; [|discriminate].
  destruct (sum_over _ 0 ts) as [days|x]; [|discriminate].
  apply Ok_inj in H. subst st. cbn.
  split; [|split].
  - apply (mean_over_sign winning); [|exact Haw].
    intros t v Hin Hv.
    destruct (selected_trades_satisfy _ _ _ _ _ Hw Hin Hv) as [_ Hc].
    apply Qgtb_true_iff in Hc. lra.
  - apply (mean_over_opposite losing); [|exact Hal].
    intros t v Hin Hv.
    destruct (selected_trades_satisfy _ _ _ _ _ Hl Hin Hv) as [_ Hc].
    now apply Qle_bool_iff in Hc.
  - intro Hpos. destruct (Qgtb total_losses 0) eqn:Hloss; [|lra].
    apply Qgtb_true_iff in Hloss.
    assert (Hwins : 0 <= total_wins).
    { destruct (is_nil winning).
      - apply Ok_inj in Htw. subst. lra.
      - apply (sum_over_sign (fun t => Ok (return_dollars t)) winning)
          with (acc := 0); [|lra|exact Htw].
        intros t d Hin Hd. apply Ok_inj in Hd.
        rewrite Forall_forall in Hpos.
        pose proof (proj1 (selected_trades_have_returns _ _ _ Hw)) as Hret.
        rewrite Forall_forall in Hret. destruct (Hret t Hin) as [v Hv].
        destruct (selected_trades_satisfy _ _ _ _ _ Hw Hin Hv) as [Hts' Hc].
        apply Qgtb_true_iff in Hc. destruct (Hpos t Hts') as [Hep Hsh].
        exact (return_dollars_of_gain t v d Hep Hsh Hv Hc Hd). }
    apply Qle_shift_div_l; [exact Hloss | lra].
Qed.

Lemma trade_statistics_signs_witness :
  let st := match calculate_trade_statistics sample_trades with
            | Ok st => st
            | Err _ => mkTradeStats 0 0 0 0 0 0 0 0
            end in
  0 <= avg_win_pct st /\ avg_loss_pct st <= 0 /\ 0 <= profit_factor st.
Proof.
  intro st.
  destruct (trade_statistics_signs sample_trades st) as (H1 & H2 & H3).
  - vm_compute. reflexivity.
  - split; [exact H1|]. split; [exact H2|]. apply H3.
    repeat constructor; vm_compute; discriminate.
Defined.

(** * The initial position of a strategy *)

Lemma assign_where_hold (mask : list bool) (value : string) (n : nat) :
  length mask = n ->
  assign_where mask value (repeat "HOLD"%string n)
  = map (fun m : bool => if m then value else "HOLD"%string) mask.
Proof.
  revert n. induction mask as [|m mask IH]; intros n Hn; subst n;
    [reflexivity|].
  cbn. f_equal. now apply IH.
Qed.

Lemma assign_where_map {A} (f : A -> bool) (g : A -> string) (value : string)
      (l : list A) :
  assign_where (map f l) value (map g l)
  = map (fun x => if f x then value else g x) l.
Proof. induction l as [|x l IH]; cbn; [reflexivity | now rewrite <- IH]. Qed.

Lemma assign_at_same (i : nat) (value : string) (signal : list string) :
  (forall x, nth_error signal i = Some x -> x = value) ->
  assign_at i value signal = signal.
Proof.
  revert i. induction signal as [|y s IH]; intros [|i] H; cbn; try reflexivity.
  - now rewrite (H y eq_refl).
  - f_equal. apply IH. exact H.
Qed.

Lemma initial_position_same
  (df : DataFrame) (cols : list (list npfloat)) (test : nat -> bool)
  (value : string) (signal : list string) :
  (forall i x, test i = true -> nth_error signal i = Some x -> x = value) ->
  initial_position df cols test value signal = signal.
Proof.
  intro H. unfold initial_position.
  destruct (first_valid_index _ _) as [i|]; [|reflexivity].
  destruct (test i) eqn:Ht; [|reflexivity].
  apply assign_at_same. intros x Hx. exact (H i x Ht Hx).
Qed.

Lemma breakout_signal_above (threshold : Q) (x : npfloat) :
  0 <= threshold -> np_gt x (Fin threshold) = true ->
  breakout_signal threshold x = "BUY"%string.
Proof.
  intros Hthr Hgt. unfold breakout_signal. rewrite Hgt.
  destruct x as [a|]; [|discriminate]. cbn in *.
  apply Qgtb_true_iff in Hgt.
  assert (Hlt : Qltb a (- threshold) = false).
  { unfold Qltb. apply negb_false_iff, Qle_bool_iff. lra. }
  now rewrite Hlt.
Qed.

(** X20. The signals of [BreakoutStrategy] for a threshold that is not
    negative.  On a frame with one entry per date in every column, the
    signal of each day is read off the distance of the close to the average
    on that day alone: SELL below minus the threshold, BUY above the
    threshold, HOLD otherwise and where the distance is not a number.  The
    block that sets the initial position never changes a signal. *)
Theorem breakout_signals_follow_the_threshold
  (w : Z) (threshold : Q) (df df' : DataFrame) (out out' : list string) :
  0 <= threshold -> aligned df ->
  generate_signals (BreakoutStrategy w threshold) df out = (Ok df', out') ->
  exists pct,
    get_col df' "price_vs_sma_pct" = Some (Float64 pct) /\
    get_col df' "signal" = Some (Object (map (breakout_signal threshold) pct)).
Proof.
  intros Hthr Hal Hgen. unfold generate_signals in Hgen.
  destruct (validate_data _ df out) as [valid o].
  destruct (negb valid); [discriminate|].
  assert (H : breakout_signals w threshold df = Ok df') by (now inversion Hgen).
  clear Hgen. unfold breakout_signals in H. cbv zeta in H.
  repeat read_column H. apply Ok_inj in H. subst df'.
  set (pct := zip_with (fun c s => np_mul (np_div (np_sub c s) s) (Fin 100)) v v0)
    in *.
  exists pct. split; [unfold get_col, set_col; cbn [columns];
                      rewrite !lookup_assign_other by reflexivity;
                      apply lookup_assign_same|].
  unfold get_col. cbn [set_col columns]. rewrite lookup_assign_same.
  do 2 f_equal.
  assert (Hlen : length pct = length (index df)) by (unfold pct; series_length).
  unfold hold. cbn [index set_col].
  rewrite assign_where_hold by (rewrite length_map; exact Hlen).
  rewrite map_map, assign_where_map.
  rewrite initial_position_same.
  - apply map_ext. intro x. unfold breakout_signal.
    destruct (np_lt x (Fin (- threshold))); [reflexivity|].
    now destruct (np_gt x (Fin threshold)).
  - intros i x Htest Hx.
    rewrite nth_error_map in Hx.
    destruct (nth_error pct i) as [a|] eqn:Ha; [|discriminate].
    cbn in Hx. apply (f_equal (fun o => match o with Some y => y | None => x end)) in Hx.
    subst x. rewrite (nth_error_nth _ _ NaN Ha) in Htest.
    pose proof (breakout_signal_above threshold a Hthr Htest) as Hb.
    exact Hb.
Qed.

Lemma breakout_signals_witness :
  let r := generate_signals (BreakoutStrategy 60 2) sample_breakout [] in
  let df' := match fst r with Ok d => d | Err _ => sample_breakout end in
  get_col df' "signal" = Some (Object ["HOLD"; "BUY"; "SELL"]%string) /\
  exists pct,
    get_col df' "price_vs_sma_pct" = Some (Float64 pct) /\
    get_col df' "signal" = Some (Object (map (breakout_signal 2) pct)).
Proof.
  intros r df'. split; [vm_compute; reflexivity|].
  apply (breakout_signals_follow_the_threshold 60 2 sample_breakout df' [] []).
  - vm_compute. discriminate.
  - repeat constructor.
  - vm_compute. reflexivity.
Defined.

Lemma first_valid_from_before (rows : list (list npfloat)) :
  forall k i, first_valid_from k rows = Some i ->
  (k <= i < k + length rows)%nat /\
  forall j r, (j < i - k)%nat -> nth_error rows j = Some r ->
              existsb (fun x => negb (isnan x)) r = false.
Proof.
  induction rows as [|r0 rows IH]; intros k i H; cbn in H; [discriminate|].
  destruct (existsb (fun x => negb (isnan x)) r0) eqn:E.
  - inversion H; subst. split; [cbn; lia|]. intros j r Hj. lia.
  - destruct (IH _ _ H) as [Hk Hrows]. split; [cbn; lia|].
    intros [|j] r Hj Hr; cbn in Hr.
    + inversion Hr; subst. exact E.
    + apply (Hrows j r); [lia | exact Hr].
Qed.

Lemma transpose_nth (n : nat) :
  forall (cols : list (list npfloat)) (j : nat), (j < n)%nat ->
  nth_error (transpose n cols) j = Some (map (fun c => nth j c NaN) cols).
Proof.
  induction n as [|n IH]; intros cols j Hj; [lia|].
  destruct j as [|j]; cbn.
  - f_equal. apply map_ext. now intros [|x c].
  - rewrite IH by lia. f_equal. rewrite map_map. apply map_ext.
    now intros [|x c]; destruct j.
Qed.

Lemma first_valid_index_before
  (n : nat) (a b : list npfloat) (i j : nat) :
  first_valid_index n [a; b] = Some i -> (j < i)%nat ->
  nth j a NaN = NaN /\ nth j b NaN = NaN.
Proof.
  unfold first_valid_index. intros H Hj.
  destruct (first_valid_from_before _ _ _ H) as [Hi Hrows].
  assert (Hlen : length (transpose n [a; b]) = n).
  { clear. generalize [a; b]. induction n as [|n IH]; intro cols;
      [reflexivity | cbn; now rewrite IH]. }
  rewrite Hlen in Hi.
  specialize (Hrows j _ ltac:(lia) (transpose_nth n [a; b] j ltac:(lia))).
  cbn in Hrows. apply orb_false_iff in Hrows as [Ha Hb].
  apply orb_false_iff in Hb as [Hb _].
  destruct (nth j a NaN), (nth j b NaN); try discriminate. now split.
Qed.

Lemma nth_error_removelast {A} (l : list A) (i : nat) (x : A) :
  nth_error (removelast l) i = Some x -> nth_error l i = Some x.
Proof.
  revert i. induction l as [|y [|z l] IH]; intros i H.
  - exact H.
  - destruct i; discriminate.
  - change (removelast (y :: z :: l)) with (y :: removelast (z :: l)) in H.
    destruct i as [|i]; [exact H|]. cbn [nth_error] in *. now apply IH.
Qed.

Lemma nth_error_shift1 (v : list npfloat) (i : nat) (x : npfloat) :
  nth_error (shift1 v) i = Some x ->
  match i with
  | O => x = NaN
  | S i' => nth i' v NaN = x
  end.
Proof.
  destruct v as [|y v]; [destruct i; discriminate|]. unfold shift1.
  destruct i as [|i]; cbn [nth_error].
  - intro H. now inversion H.
  - intro H. apply nth_error_removelast in H. now apply nth_error_nth.
Qed.

Lemma nth_error_zip_with {A B C} (f : A -> B -> C) (a : list A) (b : list B)
      (i : nat) (z : C) :
  nth_error (zip_with f a b) i = Some z ->
  exists x y, nth_error a i = Some x /\ nth_error b i = Some y /\ z = f x y.
Proof.
  revert b i. induction a as [|x a IH]; intros [|y b] i H;
    try (destruct i; discriminate).
  destruct i as [|i]; cbn in *.
  - inversion H. now exists x, y.
  - now apply IH.
Qed.

Lemma crossings_combine (before now : list bool) (n : nat) :
  length before = n -> length now = n ->
  assign_where (band andb before (map negb now)) "SELL"
    (assign_where (band andb (map negb before) now) "BUY"
                  (repeat "HOLD"%string n))
  = zip_with crossover_signal before now.
Proof.
  revert now n. induction before as [|b before IH]; intros [|c now] n Hb Hn;
    subst n; try discriminate; [reflexivity|].
  injection Hn as Hn.
  change (repeat "HOLD"%string (length (b :: before)))
    with ("HOLD"%string :: repeat "HOLD"%string (length before)).
  change (assign_where (band andb (b :: before) (map negb (c :: now))) "SELL"
            (assign_where (band andb (map negb (b :: before)) (c :: now)) "BUY"
               ("HOLD"%string :: repeat "HOLD"%string (length before))))
    with ((if b && negb c then "SELL"%string
           else if negb b && c then "BUY"%string else "HOLD"%string)
          :: assign_where (band andb before (map negb now)) "SELL"
               (assign_where (band andb (map negb before) now) "BUY"
                  (repeat "HOLD"%string (length before)))).
  rewrite (IH now (length before) eq_refl Hn). reflexivity.
Qed.

(** X21. The signals of [SMACrossover].  On a frame with one entry per date
    in every column, the signal of each day is read off two comparisons,
    whether the short average was above the long one the day before and
    whether it is on the day: SELL when it was and is no more, BUY when it
    was not and is, HOLD otherwise, a comparison with a missing average
    counting as false.  The block that sets the initial position never
    changes a signal: where it would write BUY, the golden cross has
    written it. *)
Theorem sma_crossover_signals_are_the_crossings
  (sw lw : Z) (df df' : DataFrame) (out out' : list string) :
  aligned df ->
  generate_signals (SMACrossover sw lw) df out = (Ok df', out') ->
  exists short long,
    float_col df ("sma_" ++ str_of_int sw) = Ok short /\
    float_col df ("sma_" ++ str_of_int lw) = Ok long /\
    get_col df' "signal"
    = Some (Object (zip_with crossover_signal
                             (zip_with np_gt (shift1 short) (shift1 long))
                             (zip_with np_gt short long))).
Proof.
  intros Hal Hgen. unfold generate_signals in Hgen.
  destruct (validate_data _ df out) as [valid o].
  destruct (negb valid); [discriminate|].
  assert (H : sma_crossover_signals sw lw df = Ok df') by (now inversion Hgen).
  clear Hgen. unfold sma_crossover_signals in H. cbv zeta in H.
  assert (Hcol : forall c, String.eqb c "signal" = false ->
            float_col (set_col df "signal" (Object (hold df))) c
            = float_col df c).
  { intros c Hc. unfold float_col, get_col, set_col. cbn [columns].
    now rewrite lookup_assign_other. }
  repeat read_column H. apply Ok_inj in H. subst df'.
  rewrite Hcol in E, E0 by reflexivity.
  exists v, v0. split; [exact E|]. split; [exact E0|].
  unfold get_col. cbn [set_col columns]. rewrite lookup_assign_same.
  do 2 f_equal. unfold hold. cbn [index set_col].
  set (before := zip_with np_gt (shift1 v) (shift1 v0)).
  set (now := zip_with np_gt v v0).
  assert (Hb : length before = length (index df))
    by (unfold before; series_length).
  assert (Hn : length now = length (index df)) by (unfold now; series_length).
  rewrite (crossings_combine before now _ Hb Hn).
  unfold initial_position.
  destruct (first_valid_index _ _) as [i|] eqn:Hi; [|reflexivity].
  destruct (np_gt (nth i v NaN) (nth i v0 NaN)) eqn:Htest; [|reflexivity].
  apply assign_at_same. intros x Hx.
  destruct (nth_error_zip_with _ _ _ _ _ Hx) as (b & c & Hbi & Hci & ->).
  destruct (nth_error_zip_with _ _ _ _ _ Hci) as (s & l & Hs & Hl & ->).
  rewrite (nth_error_nth _ _ NaN Hs), (nth_error_nth _ _ NaN Hl) in Htest.
  rewrite Htest.
  destruct (nth_error_zip_with _ _ _ _ _ Hbi) as (ps & pl & Hps & Hpl & ->).
  apply nth_error_shift1 in Hps. apply nth_error_shift1 in Hpl.
  assert (Hprev : ps = NaN).
  { destruct i as [|i']; [exact Hps|].
    destruct (first_valid_index_before _ _ _ _ i' Hi ltac:(lia)) as [Ha _].
    now rewrite <- Hps. }
  subst ps. reflexivity.
Qed.

Lemma sma_crossover_signals_witness :
  let r := generate_signals (SMACrossover 5 20) sample_crossover [] in
  let df' := match fst r with Ok d => d | Err _ => sample_crossover end in
  exists short long,
    float_col sample_crossover ("sma_" ++ str_of_int 5) = Ok short /\
    float_col sample_crossover ("sma_" ++ str_of_int 20) = Ok long /\
    get_col df' "signal"
    = Some (Object (zip_with crossover_signal
                             (zip_with np_gt (shift1 short) (shift1 long))
                             (zip_with np_gt short long))).
Proof.
  intros r df'.
  apply (sma_crossover_signals_are_the_crossings 5 20 sample_crossover df' [] []).
  - repeat constructor.
  - vm_compute. reflexivity.
Defined.

(** * A run on sound data *)

Lemma float_col_of (df : DataFrame) (c : string) (v : list npfloat) :
  get_col df c = Some (Float64 v) -> float_col df c = Ok v.
Proof. unfold float_col. now intros ->. Qed.








Lemma buy_at_a_price (p : Portfolio) (d : Z) (pr : Q) :
  entered_at_a_price p -> entered_at_a_price (snd (buy p d pr None)).
Proof.
  intro H. unfold buy. destruct (has_position p); [exact H|].
  unfold buy_size, pydiv. destruct (Qeq_bool pr 0) eqn:E; [exact H|].
  cbv zeta. destruct (Qgtb _ _); [exact H|].
  destruct H as [Ht _]. split; [exact Ht|]. cbn.
  now apply Qeq_bool_false_iff.
Qed.

Lemma sell_at_a_price (p : Portfolio) (d : Z) (pr : Q) :
  entered_at_a_price p -> entered_at_a_price (snd (sell p d pr)).
Proof.
  intro H. unfold sell. destruct (has_position p); [|exact H].
  destruct H as [Ht Hc]. cbn [negb snd]. unfold entered_at_a_price.
  cbn [trades current_trade]. split; [|exact I].
  destruct (current_trade p) as [t|]; [|exact Ht].
  apply Forall_app. split; [exact Ht|]. now repeat constructor.
Qed.

Lemma simulate_at_a_price (rows : list Row) :
  forall p, entered_at_a_price p -> entered_at_a_price (snd (simulate p rows)).
Proof.
  induction rows as [|[d [s [pr|]]] rows IH]; intros p Hp; cbn [simulate];
    try exact Hp.
  assert (Hday : entered_at_a_price (snd (day_order p d s pr))).
  { unfold day_order.
    destruct ((s =? "BUY")%string && negb (has_position p));
      [now apply buy_at_a_price|].
    destruct ((s =? "SELL")%string && has_position p);
      [now apply sell_at_a_price | exact Hp]. }
  unfold trade_day. destruct (day_order p d s pr) as [[b|x] q]; cbn in Hday.
  - apply IH. exact Hday.
  - exact Hday.
Qed.

Lemma close_position_at_a_price (p : Portfolio) (rows : list Row) :
  entered_at_a_price p -> entered_at_a_price (snd (close_position p rows)).
Proof.
  intro Hp. unfold close_position. destruct (has_position p); [|exact Hp].
  destruct (rev rows) as [|[d [s [pr|]]] rest]; try exact Hp.
  now apply sell_at_a_price.
Qed.




(** * The frame of the trades *)

Lemma trade_rows_return (ts : list Trade) :
  Forall (fun t => ~ entry_price t == 0) ts ->
  exists rows,
    trade_rows ts = Ok rows /\
    map r_entry_date rows = map entry_date ts /\
    map r_exit_date rows = map exit_date ts /\
    map r_exit_price rows = map exit_price ts /\
    map r_holding_days rows = map holding_days ts.
Proof.
  induction 1 as [|t ts Ht _ (rows & Hrows & H1 & H2 & H3 & H4)].
  - exists []. repeat split.
  - destruct (return_pct_evaluates t Ht) as [r Hr].
    eexists. cbn [trade_rows]. rewrite Hr, Hrows.
    split; [reflexivity|]. cbn. now rewrite H1, H2, H3, H4.
Qed.

(** X23. The frame of the trades after a run.  After any run that returns,
    [get_trades_df] raises nothing, no trade of a run having been entered at
    a price of zero: it has one row per trade of the history, in order, as
    many as the metrics count, and every row has its exit date, its exit
    price and its holding days. *)
Theorem trades_frame_after_a_run
  (sqrt : Q -> Q) (pow : Q -> Q -> npfloat)
  (e e' : BacktestEngine) (ticker : string) (df : DataFrame)
  (out out' : list string) :
  run sqrt pow e ticker df out = (Ok tt, e', out') ->
  exists p m rows,
    portfolio e' = Some p /\ metrics e' = Some m /\
    get_trades_df e' = Ok rows /\
    length rows = total_trades (m_trade_stats m) /\
    map r_entry_date rows = map entry_date (trades p) /\
    Forall (fun r => r_exit_date r <> None /\ r_exit_price r <> None /\
                     r_holding_days r <> None) rows.
Proof.
  intro Hrun.
  destruct (run_returns _ _ _ _ _ _ _ _ _ Hrun)
    as (df' & rows & p1 & p2 & m & v & w & _ & _ & Hsim & Hclose & Hall
        & Hp & Hm & _).
  set (p0 := Portfolio_init (engine_capital e) (engine_commission e)) in *.
  assert (Hp1 : p1 = snd (simulate p0 rows)) by now rewrite Hsim.
  assert (Hp2 : p2 = snd (close_position p1 rows)) by now rewrite Hclose.
  assert (Hentered : entered_at_a_price p2).
  { rewrite Hp2. apply close_position_at_a_price.
    rewrite Hp1. apply simulate_at_a_price. split; [constructor | exact I]. }
  assert (Hclosed : Forall closed_trade (trades p2)).
  { rewrite Hp2.
    apply (close_position_keeps (fun p => Forall closed_trade (trades p))
                                exec_keeps_history_closed).
    rewrite Hp1.
    apply (simulate_keeps (fun p => Forall closed_trade (trades p))
                          exec_keeps_history_closed).
    constructor. }
  assert (Hall_trades : get_closed_trades p2 = trades p2)
    by (now apply closed_history_is_kept_whole).
  destruct Hentered as [Hprices _].
  destruct (trade_rows_return _ Hprices) as (trows & Htr & H1 & H2 & H3 & H4).
  destruct (calculate_all_returned _ _ _ _ _ _ _ Hall) as (_ & Hstats & _).
  exists p2, m, trows.
  split; [exact Hp|]. split; [exact Hm|].
  split; [unfold get_trades_df; now rewrite Hp, Hall_trades|].
  split.
  { rewrite (trade_statistics_total _ _ Hstats), Hall_trades.
    rewrite <- (length_map r_entry_date), H1. apply length_map. }
  split; [exact H1|].
  apply Forall_forall. intros r Hr.
  destruct (In_nth_error _ _ Hr) as [i Hi].
  assert (Ht : exists t, nth_error (trades p2) i = Some t /\
                         r_exit_date r = exit_date t /\
                         r_exit_price r = exit_price t /\
                         r_holding_days r = holding_days t).
  { pose proof (f_equal (fun l => nth_error l i) H2) as E2.
    pose proof (f_equal (fun l => nth_error l i) H3) as E3.
    pose proof (f_equal (fun l => nth_error l i) H4) as E4.
    cbv beta in E2, E3, E4. rewrite !nth_error_map, Hi in E2, E3, E4.
    destruct (nth_error (trades p2) i) as [t|]; [|discriminate].
    exists t. cbn in *. split; [reflexivity|].
    now inversion E2; inversion E3; inversion E4. }
  destruct Ht as (t & Hti & -> & -> & ->).
  rewrite Forall_forall in Hclosed.
  destruct (Hclosed t (nth_error_In _ _ Hti)) as [Hd Hx].
  split; [exact Hd|]. split; [exact Hx|].
  unfold holding_days. now destruct (exit_date t).
Qed.

Lemma trades_frame_witness :
  exists p m rows,
    portfolio (snd (fst sample_run)) = Some p /\
    metrics (snd (fst sample_run)) = Some m /\
    get_trades_df (snd (fst sample_run)) = Ok rows /\
    length rows = total_trades (m_trade_stats m) /\
    map r_entry_date rows = map entry_date (trades p) /\
    Forall (fun r => r_exit_date r <> None /\ r_exit_price r <> None /\
                     r_holding_days r <> None) rows.
Proof.
  apply (trades_frame_after_a_run
           floor_sqrt int_pow sample_engine (snd (fst sample_run))
           "AAPL" sample_frame [] (snd sample_run)).
  vm_compute. reflexivity.
Defined.

(** * The confirmation of [VolumeMomentum] *)







(** * The value of a funded account *)

Lemma buy_keeps_solvent (p : Portfolio) (d : Z) (pr : Q) :
  0 < pr -> solvent p -> solvent (snd (buy p d pr None)).
Proof.
  intros Hpr Hp. pose proof Hp as (Hc & Hcash & Hsh & Hany). unfold buy.
  destruct (has_position p) eqn:Hpos; [exact Hp|].
  apply Qgtb_false_iff in Hpos.
  assert (Hk : 0 < cash p) by (destruct Hany; lra).
  unfold buy_size. rewrite pydiv_nonzero by lra. cbv zeta.
  destruct (Qgtb _ _) eqn:Hcost; [exact Hp|].
  apply Qgtb_false_iff in Hcost.
  assert (Hs : 0 < cash p * (1 - commission_pct p) / pr).
  { apply Qdiv_pos; [|exact Hpr]. apply Qmult_lt_0_compat; lra. }
  unfold solvent. cbn [snd cash commission_pct shares_held].
  split; [exact Hc|]. split; [lra|]. split; [lra | now right].
Qed.

Lemma sell_keeps_solvent (p : Portfolio) (d : Z) (pr : Q) :
  0 < pr -> solvent p -> solvent (snd (sell p d pr)).
Proof.
  intros Hpr Hp. pose proof Hp as (Hc & Hcash & Hsh & Hany). unfold sell.
  destruct (has_position p) eqn:Hpos; [|exact Hp].
  apply Qgtb_true_iff in Hpos.
  assert (H1 : 0 < shares_held p * pr) by (apply Qmult_lt_0_compat; lra).
  assert (H2 : 0 < shares_held p * pr * (1 - commission_pct p))
    by (apply Qmult_lt_0_compat; lra).
  unfold solvent. cbn [negb snd cash commission_pct shares_held].
  split; [exact Hc|]. split; [lra|]. split; [lra | left; lra].
Qed.

Lemma day_order_keeps_solvent (p : Portfolio) (d : Z) (s : string) (pr : Q) :
  0 < pr -> solvent p -> solvent (snd (day_order p d s pr)).
Proof.
  intros Hpr Hp. unfold day_order.
  destruct ((s =? "BUY")%string && negb (has_position p));
    [now apply buy_keeps_solvent|].
  destruct ((s =? "SELL")%string && has_position p);
    [now apply sell_keeps_solvent | exact Hp].
Qed.

Lemma solvent_value (p : Portfolio) (pr : Q) :
  0 < pr -> solvent p -> 0 < get_total_value p pr.
Proof.
  intros Hpr (_ & Hcash & Hsh & Hany).
  unfold get_total_value, get_position_value.
  assert (0 <= shares_held p * pr) by (apply Qmult_le_0_compat; lra).
  destruct Hany as [Hk | Hs]; [lra|].
  assert (0 < shares_held p * pr) by (apply Qmult_lt_0_compat; lra). lra.
Qed.

Lemma simulate_keeps_value (rows : list Row) :
  Forall positive_row rows ->
  forall p p' u,
    solvent p -> Forall (fun s => 0 < portfolio_value s) (equity_curve p) ->
    simulate p rows = (Ok u, p') ->
    Forall (fun s => 0 < portfolio_value s) (equity_curve p').
Proof.
  induction 1 as [|[d [s c]] rows (q & Hq & Hpos) _ IH];
    intros p p' u Hp Hcurve Hsim.
  - cbn in Hsim. now inversion Hsim; subst.
  - cbn in Hq. subst c. cbn [simulate] in Hsim.
    destruct (trade_day p d s q) as [[v|x] p1] eqn:Hday; [|discriminate].
    pose proof (trade_day_records _ _ _ _ _ _ Hday) as Hp1.
    pose proof (day_order_keeps_solvent p d s q Hpos Hp) as Hsolv.
    apply (IH p1 p' u); [| |exact Hsim]; subst p1.
    + exact Hsolv.
    + cbn [record_day equity_curve]. apply Forall_app. split.
      * now rewrite day_order_keeps_curve.
      * constructor; [|constructor]. cbn. now apply solvent_value.
Qed.

Lemma rows_combine_prices (P : npfloat -> Prop)
      (ds : list Z) (sg : list string) (cs : list npfloat) :
  Forall P cs ->
  Forall (fun r : Row => P (snd (snd r))) (combine ds (combine sg cs)).
Proof.
  intro H. revert ds sg.
  induction H as [|c cs Hc _ IH]; intros [|d ds] [|s sg]; cbn;
    try constructor; [exact Hc | apply IH].
Qed.

(** X25. A funded run on positive prices stays worth something.  Start
    with a positive capital and a commission rate below 1, on a frame with
    one entry per date in every column whose closes are positive numbers.
    After any run that returns, every value of the equity curve is positive,
    and so are the final value of the metrics; the total return is a number
    above -100 and the maximum drawdown a number above -100 and at most
    0. *)
Theorem funded_run_keeps_its_value
  (sqrt : Q -> Q) (pow : Q -> Q -> npfloat)
  (e e' : BacktestEngine) (ticker : string) (df : DataFrame)
  (out out' : list string) :
  0 < engine_capital e -> engine_commission e < 1 -> aligned df ->
  (exists close,
     get_col df "close_price" = Some (Float64 close) /\
     Forall (fun x => exists q, x = Fin q /\ 0 < q) close) ->
  run sqrt pow e ticker df out = (Ok tt, e', out') ->
  exists p m,
    portfolio e' = Some p /\ metrics e' = Some m /\
    Forall (fun s => 0 < portfolio_value s) (equity_curve p) /\
    0 < m_final_value m /\
    (exists r, m_total_return_pct m = Fin r /\ -100 < r) /\
    (exists d, m_max_drawdown_pct m = Fin d /\ -100 < d /\ d <= 0).
Proof.
  intros Hcap Hrate Hal (close & Hcol & Hclose) Hrun.
  destruct (run_returns _ _ _ _ _ _ _ _ _ Hrun)
    as (df' & rows & p1 & p2 & m & v & w & Hgen & Hrows & Hsim & Hcp & Hall
        & Hp & Hm & _).
  assert (Hsig : signals (strategy e) df = Ok df').
  { unfold generate_signals in Hgen.
    destruct (validate_data _ df out) as [valid o].
    destruct (negb valid); [discriminate | now inversion Hgen]. }
  destruct (signals_returned _ _ _ Hal Hsig) as (_ & Hsame & sig & Hsigcol & _).
  assert (Hpos : Forall positive_row rows).
  { unfold iterrows, signal_cells in Hrows. rewrite Hsigcol in Hrows.
    rewrite (float_col_of df' "close_price" close) in Hrows
      by (now rewrite Hsame).
    apply Ok_inj in Hrows. subst rows.
    now apply (rows_combine_prices (fun x => exists q, x = Fin q /\ 0 < q)). }
  set (p0 := Portfolio_init (engine_capital e) (engine_commission e)) in *.
  assert (H0 : solvent p0).
  { unfold solvent, p0. cbn [Portfolio_init cash commission_pct shares_held].
    split; [exact Hrate|]. split; [lra|]. split; [lra | now left]. }
  pose proof (simulate_keeps_value rows Hpos p0 p1 v H0 (Forall_nil _) Hsim)
    as Hcurve.
  rewrite <- (close_position_keeps_curve _ _ _ _ Hcp) in Hcurve.
  set (values := map portfolio_value (equity_curve p2)) in *.
  assert (Hvalues : Forall (fun x => 0 < x) values).
  { unfold values. apply Forall_forall. intros x Hx.
    apply in_map_iff in Hx as (s & <- & Hs).
    rewrite Forall_forall in Hcurve. now apply Hcurve. }
  destruct (calculate_all_final_value _ _ _ _ _ _ _ Hall) as [rest Hfinal].
  assert (Hne : values <> []).
  { intro E. rewrite E in Hfinal. discriminate. }
  assert (Hfv : 0 < m_final_value m).
  { rewrite Forall_forall in Hvalues. apply Hvalues.
    apply in_rev. rewrite Hfinal. now left. }
  destruct (calculate_all_returned _ _ _ _ _ _ _ Hall)
    as (_ & _ & Hret & _ & Hdd & _).
  exists p2, m.
  split; [exact Hp|]. split; [exact Hm|]. split; [exact Hcurve|].
  split; [exact Hfv|]. split.
  - unfold calculate_total_return in Hret. rewrite Hfinal in Hret.
    rewrite npdiv_nonzero in Hret by lra. cbn in Hret.
    apply Ok_inj in Hret. eexists. split; [symmetry; exact Hret|].
    assert (E : (m_final_value m - engine_capital e) / engine_capital e * 100
                == m_final_value m / engine_capital e * 100 - 100)
      by (field; lra).
    rewrite E.
    pose proof (Qdiv_pos _ _ Hfv Hcap). lra.
  - rewrite Hdd. exact (max_drawdown_in_range values Hne Hvalues).
Qed.

Lemma funded_run_witness :
  exists p m,
    portfolio (snd (fst sample_run)) = Some p /\
    metrics (snd (fst sample_run)) = Some m /\
    Forall (fun s => 0 < portfolio_value s) (equity_curve p) /\
    0 < m_final_value m /\
    (exists r, m_total_return_pct m = Fin r /\ -100 < r) /\
    (exists d, m_max_drawdown_pct m = Fin d /\ -100 < d /\ d <= 0).
Proof.
  apply (funded_run_keeps_its_value
           floor_sqrt int_pow sample_engine (snd (fst sample_run))
           "AAPL" sample_frame [] (snd sample_run)).
  - reflexivity.
  - reflexivity.
  - repeat constructor.
  - eexists. split; [reflexivity|].
    repeat constructor; eexists; (split; [reflexivity | reflexivity]).
  - vm_compute. reflexivity.
Defined.

(** * What an order costs *)

(** X26. An order changes the value of the account by its commission
    alone.  Valued at the price of the order, the account is worth after a
    sell what it was worth before, less the commission on the shares sold
    when the sell is executed; and after a buy on an account with no shares
    it is worth what it was worth before, less the commission on the shares
    it now holds, whether the buy was executed, refused or raised. *)
Theorem orders_cost_the_commission
  (p : Portfolio) (d : Z) (pr : Q) (sz : option Q) :
  get_total_value (snd (sell p d pr)) pr
  == get_total_value p pr
     - (if has_position p then shares_held p * pr * commission_pct p else 0) /\
  (shares_held p = 0 ->
   get_total_value (snd (buy p d pr sz)) pr
   == get_total_value p pr
      - shares_held (snd (buy p d pr sz)) * pr * commission_pct p).
Proof.
  unfold get_total_value, get_position_value. split.
  - unfold sell. destruct (has_position p); cbn; ring.
  - intro Hflat. unfold buy.
    destruct (has_position p); [cbn; rewrite Hflat; ring|].
    destruct (buy_size p pr sz) as [s|x]; [|cbn; rewrite Hflat; ring].
    cbv zeta. destruct (Qgtb _ _); [cbn; rewrite Hflat; ring|].
    cbn. unfold buy_total_cost. rewrite Hflat. ring.
Qed.

Lemma orders_cost_the_commission_witness :
  let p := Portfolio_init 10000 (1 # 1000) in
  get_total_value (snd (buy p 0 100 (Some 50))) 100
  == get_total_value p 100
     - shares_held (snd (buy p 0 100 (Some 50))) * 100 * commission_pct p.
Proof.
  intro p.
  destruct (orders_cost_the_commission p 0 100 (Some 50)) as [_ H].
  apply H. reflexivity.
Defined.
